(** * ExposureNotificationService: a shallow embedding and its properties

    The development follows
    [src/services/ExposureNotificationService/ExposureNotificationService.ts].
    JavaScript numbers that the service handles (periods, millisecond
    timestamps, bucket durations) are integers and are kept in [Z]; the one
    division of the file (bucket seconds to minutes) is carried out in [Q].
    Asynchronous methods become computations over an explicit [World] that
    either return a value or throw. *)

From Stdlib Require Import ZArith QArith Qround List String Bool Lia.
From Stdlib Require Import Sorted Permutation.
From Equations Require Import Equations.
Import ListNotations.

Local Open Scope Z_scope.

(** ** Constants of the module *)

Definition HOURS_PER_PERIOD : Z := 24.
Definition EXPOSURE_NOTIFICATION_CYCLE : Z := 14.

(** ** Data model *)

(** [ExposureSummary] of the bridge: the two fields the service reads. *)
Record ExposureSummary := mkSummary {
  lastExposureTimestamp : Z;
  attenuationDurations : list Z
}.

(** [ExposureConfiguration] of the bridge: the service reads one field and
    passes the rest on untouched. *)
Record ExposureConfiguration := mkConfiguration {
  minimumExposureDurationMinutes : Z;
  otherParameters : string
}.

Inductive ExposureStatusType := Monitoring | Exposed | Diagnosed.

(** What may sit in the [period] slot of [lastChecked].  The slot is typed
    [number] in [ExposureStatus], but [finalize] stores whatever its
    [lastCheckedPeriod] argument is, and the callers pass values typed
    [any]: [null], or a whole [{timestamp, period}] object.  [PNaN] is
    what arithmetic on such an object yields. *)
Inductive PeriodValue :=
| PUndefined
| PNull
| PNaN
| PNumber (n : Z)
| PObject (timestamp : Z) (period : PeriodValue).

Record LastChecked := mkLastChecked {
  lc_timestamp : Z;
  lc_period : PeriodValue
}.

Definition objectOf (lc : LastChecked) : PeriodValue :=
  PObject (lc_timestamp lc) (lc_period lc).

(** The status object.  [MapObservable.append] merges partial objects into
    it, so fields of a former variant stay behind after a transition: the
    object is a flat record of optional fields under a [type] tag. *)
Record ExposureStatus := mkStatus {
  type : ExposureStatusType;
  summary : option ExposureSummary;
  notificationSent : option bool;
  needsSubmission : option bool;
  submissionLastCompletedAt : option Z;
  uploadReminderLastSentAt : option Z;
  cycleStartsAt : option Z;
  cycleEndsAt : option Z;
  lastChecked : option LastChecked
}.

(** [Partial<ExposureStatus>]: [None] is an absent key. *)
Record PartialStatus := mkPartial {
  p_type : option ExposureStatusType;
  p_summary : option ExposureSummary;
  p_notificationSent : option bool;
  p_needsSubmission : option bool;
  p_submissionLastCompletedAt : option Z;
  p_uploadReminderLastSentAt : option Z;
  p_cycleStartsAt : option Z;
  p_cycleEndsAt : option Z;
  p_lastChecked : option LastChecked
}.

Definition emptyPartial : PartialStatus :=
  mkPartial None None None None None None None None None.

Definition orElse {A} (new old : option A) : option A :=
  match new with Some v => Some v | None => old end.

(** The object spread [{...s, ...p}]. *)
Definition spread (s : ExposureStatus) (p : PartialStatus) : ExposureStatus :=
  {| type := match p_type p with Some t => t | None => type s end;
     summary := orElse (p_summary p) (summary s);
     notificationSent := orElse (p_notificationSent p) (notificationSent s);
     needsSubmission := orElse (p_needsSubmission p) (needsSubmission s);
     submissionLastCompletedAt :=
       orElse (p_submissionLastCompletedAt p) (submissionLastCompletedAt s);
     uploadReminderLastSentAt :=
       orElse (p_uploadReminderLastSentAt p) (uploadReminderLastSentAt s);
     cycleStartsAt := orElse (p_cycleStartsAt p) (cycleStartsAt s);
     cycleEndsAt := orElse (p_cycleEndsAt p) (cycleEndsAt s);
     lastChecked := orElse (p_lastChecked p) (lastChecked s) |}.

(** ** JavaScript truthiness on the period slot *)

Definition truthy (v : PeriodValue) : bool :=
  match v with
  | PUndefined | PNull | PNaN => false
  | PNumber n => negb (n =? 0)
  | PObject _ _ => true
  end.

(** [a || b] *)
Definition jsOr (a b : PeriodValue) : PeriodValue :=
  if truthy a then a else b.

(** [lastChecked?.period] *)
Definition periodOf (lc : option LastChecked) : PeriodValue :=
  match lc with Some c => lc_period c | None => PUndefined end.

(** [ToNumber]; [None] is [NaN]. *)
Definition toNumber (v : PeriodValue) : option Z :=
  match v with
  | PNumber n => Some n
  | PNull => Some 0
  | PUndefined | PNaN | PObject _ _ => None
  end.

(** [Math.max(v, period)] for a number [period]. *)
Definition Math_max (v : PeriodValue) (period : Z) : PeriodValue :=
  match toNumber v with
  | Some n => PNumber (Z.max n period)
  | None => PNaN
  end.

(** ** Filtering and ranking of summaries *)

Inductive OS := ios | android.

(** [Math.round]: to the nearest integer, halves upwards. *)
Definition Math_round (q : Q) : Z := Qfloor (q + (1 # 2)).

(** The rounded number of minutes [Math.round(exposureDurationMinutes)] of
    [summaryExceedsMinimumMinutes]; [None] stands for [NaN], which arises
    when a bucket is missing from [attenuationDurations]. *)
Definition exposureDurationRounded (os : OS) (s : ExposureSummary) : option Z :=
  let divisor : Z := match os with ios => 60 | android => 1 end in
  match nth_error (attenuationDurations s) 0, nth_error (attenuationDurations s) 1 with
  | Some d0, Some d1 =>
      let durationAtImmediateMinutes := (inject_Z d0 / inject_Z divisor)%Q in
      let durationAtNearMinutes := (inject_Z d1 / inject_Z divisor)%Q in
      let exposureDurationMinutes :=
        (durationAtImmediateMinutes + durationAtNearMinutes)%Q in
      Some (Math_round exposureDurationMinutes)
  | _, _ => None
  end.

(** [minimumExposureDurationMinutes && Math.round(...) >= minimumExposureDurationMinutes],
    read as the condition of [filter]. *)
Definition summaryExceedsMinimumMinutes
    (os : OS) (s : ExposureSummary) (minimumExposureDurationMinutes : Z) : bool :=
  negb (minimumExposureDurationMinutes =? 0)
  && match exposureDurationRounded os s with
     | Some rounded => minimumExposureDurationMinutes <=? rounded
     | None => false
     end.

(** The comparator handed to [sort]. *)
Definition compareSummaries (summary1 summary2 : ExposureSummary) : Z :=
  lastExposureTimestamp summary2 - lastExposureTimestamp summary1.

(** [Array.prototype.sort] is stable: an element moves behind another only
    when the comparator is positive. *)
Fixpoint sortInsert (x : ExposureSummary) (l : list ExposureSummary) :=
  match l with
  | [] => [x]
  | y :: l' =>
      if compareSummaries x y <=? 0 then x :: y :: l' else y :: sortInsert x l'
  end.

Definition sortSummaries (l : list ExposureSummary) : list ExposureSummary :=
  fold_right sortInsert [] l.

Definition summariesContainingExposures
    (os : OS) (minimumExposureDurationMinutes : Z)
    (summaries : list ExposureSummary) : list ExposureSummary :=
  sortSummaries
    (filter (fun s => summaryExceedsMinimumMinutes os s minimumExposureDurationMinutes)
            summaries).

(** Descending order of last-exposure timestamps. *)
Definition newerFirst (a b : ExposureSummary) : Prop :=
  lastExposureTimestamp a >= lastExposureTimestamp b.

(** ** Errors, outcomes and the collaborators *)

(** What a collaborator may reject with. *)
Inductive Rejection :=
| SyntaxError
| ExposureConfigurationValidationError
| OtherRejection (message : string).

(** The answer of a collaborator. *)
Inductive Answer (A : Type) :=
| Ok (a : A)
| Rejects (r : Rejection).
Arguments Ok {A} a.
Arguments Rejects {A} r.

(** What a method of the service may throw: the errors the service creates
    itself, and the rejections it lets through. *)
Inductive Error :=
| BadCertificate                        (* Error('Submission keys: bad certificate') *)
| CannotGetTEKs                         (* cannotGetTEKsError *)
| UnableToUseSavedConfiguration         (* Error('Unable to use saved exposureConfiguration') *)
| TypeError                             (* a property read on [undefined] *)
| Raised (r : Rejection).

Inductive Outcome (A : Type) :=
| Returned (a : A)
| Thrown (e : Error).
Arguments Returned {A} a.
Arguments Thrown {A} e.

Definition SubmissionKeySet := string.
Definition TemporaryExposureKey := string.
Definition ContagiousDateInfo := string.

(** [shared/date-fns] is not among the sources: its functions are taken as
    parameters.  Dates are millisecond timestamps. *)
Class DateFns := {
  daysBetween : Z -> Z -> Z;
  daysBetweenUTC : Z -> Z -> Z;
  periodSinceEpoch : Z -> Z -> Z
}.

(** What the outside world answers: the backend, the exposure-notification
    bridge, the validator, the JSON codec, the storage providers (which may
    reject) and the clock ([clock n] is the n-th reading of
    [getCurrentDate]). *)
Class Collaborators := {
  retrieveDiagnosisKeys : Z -> Answer string;
  backend_getExposureConfiguration : Answer ExposureConfiguration;
  reportDiagnosisKeys :
    SubmissionKeySet -> list TemporaryExposureKey -> ContagiousDateInfo -> Answer unit;
  getPendingExposureSummary : Answer (option (list ExposureSummary));
  detectExposure : ExposureConfiguration -> list string -> Answer (list ExposureSummary);
  getTemporaryExposureKeyHistory : Answer (list TemporaryExposureKey);
  validateExposureConfiguration : ExposureConfiguration -> Answer unit;
  JSON_stringify_configuration : ExposureConfiguration -> string;
  JSON_parse_configuration : string -> Answer ExposureConfiguration;
  JSON_parse_submissionKeys : string -> Answer SubmissionKeySet;
  storage_getItem_fault : option Rejection;
  storage_setItem_fault : option Rejection;
  secureStorage_get_fault : option Rejection;
  asyncStorage_getItem_fault : option Rejection;
  asyncStorage_setItem_fault : option Rejection;
  exposureConfigurationDefault : ExposureConfiguration;
  Platform_OS : OS;
  clock : nat -> Z
}.

(** Calls made to the collaborators and exceptions handed to
    [captureException], most recent first.  ([captureMessage] breadcrumbs
    are not recorded.) *)
Inductive Event :=
| Call_retrieveDiagnosisKeys (period : Z)
| Call_backend_getExposureConfiguration
| Call_reportDiagnosisKeys (keys : list TemporaryExposureKey)
| Call_getPendingExposureSummary
| Call_detectExposure (keys : list string)
| Call_getTemporaryExposureKeyHistory
| Captured (label : string) (error : Error).

(** ** The state the service works on *)

Record World := mkWorld {
  exposureStatus : ExposureStatus;                  (* this.exposureStatus *)
  storage_exposureStatus : option ExposureStatus;   (* storage[EXPOSURE_STATUS] *)
  storage_exposureConfiguration : option string;    (* storage[EXPOSURE_CONFIGURATION] *)
  secureStorage_submissionAuthKeys : option string; (* secureStorage[SUBMISSION_AUTH_KEYS] *)
  asyncStorage_lastExposureTimestamp : option Z;    (* AsyncStorage[LAST_EXPOSURE_TIMESTAMP_KEY] *)
  ticks : nat;                                      (* readings of the clock so far *)
  trace : list Event
}.

Definition set_exposureStatus (s : ExposureStatus) (w : World) : World :=
  mkWorld s (storage_exposureStatus w) (storage_exposureConfiguration w)
          (secureStorage_submissionAuthKeys w) (asyncStorage_lastExposureTimestamp w)
          (ticks w) (trace w).

Definition set_storage_exposureStatus (s : ExposureStatus) (w : World) : World :=
  mkWorld (exposureStatus w) (Some s) (storage_exposureConfiguration w)
          (secureStorage_submissionAuthKeys w) (asyncStorage_lastExposureTimestamp w)
          (ticks w) (trace w).

Definition set_storage_exposureConfiguration (c : string) (w : World) : World :=
  mkWorld (exposureStatus w) (storage_exposureStatus w) (Some c)
          (secureStorage_submissionAuthKeys w) (asyncStorage_lastExposureTimestamp w)
          (ticks w) (trace w).

Definition set_asyncStorage_lastExposureTimestamp (t : Z) (w : World) : World :=
  mkWorld (exposureStatus w) (storage_exposureStatus w) (storage_exposureConfiguration w)
          (secureStorage_submissionAuthKeys w) (Some t)
          (ticks w) (trace w).

Definition tick (w : World) : World :=
  mkWorld (exposureStatus w) (storage_exposureStatus w) (storage_exposureConfiguration w)
          (secureStorage_submissionAuthKeys w) (asyncStorage_lastExposureTimestamp w)
          (S (ticks w)) (trace w).

Definition record (e : Event) (w : World) : World :=
  mkWorld (exposureStatus w) (storage_exposureStatus w) (storage_exposureConfiguration w)
          (secureStorage_submissionAuthKeys w) (asyncStorage_lastExposureTimestamp w)
          (ticks w) (e :: trace w).

(** ** Asynchronous methods: state passing with exceptions *)

Definition Task (A : Type) : Type := World -> Outcome A * World.

Definition ret {A} (a : A) : Task A := fun w => (Returned a, w).

Definition throw {A} (e : Error) : Task A := fun w => (Thrown e, w).

Definition bind {A B} (m : Task A) (k : A -> Task B) : Task B :=
  fun w =>
    match m w with
    | (Returned a, w') => k a w'
    | (Thrown e, w') => (Thrown e, w')
    end.

(** [try { m } catch (error) { h error }] *)
Definition tryCatch {A} (m : Task A) (h : Error -> Task A) : Task A :=
  fun w =>
    match m w with
    | (Returned a, w') => (Returned a, w')
    | (Thrown e, w') => h e w'
    end.

Declare Scope task_scope.
Delimit Scope task_scope with task.
Notation "x <- m ;; k" := (bind m (fun x => k))
  (at level 61, m at next level, right associativity) : task_scope.
Notation "m ;; k" := (bind m (fun _ => k))
  (at level 61, right associativity) : task_scope.
Local Open Scope task_scope.

(** The state and the outcome a task leaves. *)
Definition exec {A} (m : Task A) (w : World) : World := snd (m w).
Definition result {A} (m : Task A) (w : World) : Outcome A := fst (m w).

(** [await collaborator.method(...)]: the call is recorded, its outcome
    becomes the outcome of the [await]. *)
Definition settled_answer {A} (answer : Answer A) : Outcome A :=
  match answer with
  | Ok a => Returned a
  | Rejects r => Thrown (Raised r)
  end.

Definition call {A} (e : Event) (answer : Answer A) : Task A :=
  fun w => (settled_answer answer, record e w).

(** An outcome computed without a collaborator ([JSON.parse], the validator). *)
Definition lift {A} (answer : Answer A) : Task A :=
  fun w => (settled_answer answer, w).

Definition raiseFault (fault : option Rejection) : Task unit :=
  match fault with Some r => throw (Raised r) | None => ret tt end.

Definition captureException (label : string) (error : Error) : Task unit :=
  fun w => (Returned tt, record (Captured label error) w).

Definition getStatus : Task ExposureStatus :=
  fun w => (Returned (exposureStatus w), w).

(** ** The service *)

Section Service.

Context {dates : DateFns} {env : Collaborators}.

Definition getCurrentDate : Task Z :=
  fun w => (Returned (clock (ticks w)), tick w).

(** Modelled from the spec: [MapObservable] ([shared/Observable]) is not
    among the sources.  [append] merges a partial object into the current
    value, and the observer installed by the constructor writes the new
    value through to [storage] under [EXPOSURE_STATUS]; the write is not
    awaited, so a rejection of the provider only loses the write. *)
Definition append (p : PartialStatus) : Task unit :=
  fun w =>
    let s := spread (exposureStatus w) p in
    let w' := set_exposureStatus s w in
    (Returned tt,
     match storage_setItem_fault with
     | None => set_storage_exposureStatus s w'
     | Some _ => w'
     end).

(** *** Configuration *)

Definition storage_getItem_configuration : Task (option string) :=
  raiseFault storage_getItem_fault ;;
  fun w => (Returned (storage_exposureConfiguration w), w).

Definition storage_setItem_configuration (serialized : string) : Task unit :=
  raiseFault storage_setItem_fault ;;
  fun w => (Returned tt, set_storage_exposureConfiguration serialized w).

Definition getAlternateExposureConfiguration : Task ExposureConfiguration :=
  tryCatch
    (exposureConfigurationStr <- storage_getItem_configuration ;;
     match exposureConfigurationStr with
     | Some EmptyString | None => throw UnableToUseSavedConfiguration
     | Some str => lift (JSON_parse_configuration str)
     end)
    (fun error =>
       captureException "Using default exposureConfiguration" error ;;
       ret exposureConfigurationDefault).

Definition getExposureConfiguration : Task ExposureConfiguration :=
  tryCatch
    (exposureConfiguration <-
       call Call_backend_getExposureConfiguration backend_getExposureConfiguration ;;
     lift (validateExposureConfiguration exposureConfiguration) ;;
     let serialized := JSON_stringify_configuration exposureConfiguration in
     storage_setItem_configuration serialized ;;
     ret exposureConfiguration)
    (fun error =>
       captureException
         match error with
         | Raised SyntaxError =>
             "JSON Parsing Error: Unable to parse downloaded exposureConfiguration"
         | Raised ExposureConfigurationValidationError => "JSON Schema Error: "
         | _ => "Network Error: Unable to download exposureConfiguration."
         end error ;;
       getAlternateExposureConfiguration).

(** *** Key submission *)

Definition recordKeySubmission : Task unit :=
  currentStatus <- getStatus ;;
  match type currentStatus with
  | Diagnosed =>
      now <- getCurrentDate ;;
      append (mkPartial None None None (Some false) (Some now) None None None None)
  | _ => ret tt
  end.

Definition secureStorage_get_submissionAuthKeys : Task (option string) :=
  raiseFault secureStorage_get_fault ;;
  fun w => (Returned (secureStorage_submissionAuthKeys w), w).

Definition fetchAndSubmitKeys (contagiousDateInfo : ContagiousDateInfo) : Task unit :=
  submissionKeysStr <- secureStorage_get_submissionAuthKeys ;;
  match submissionKeysStr with
  | None | Some EmptyString => throw BadCertificate
  | Some str =>
      auth <- lift (JSON_parse_submissionKeys str) ;;
      temporaryExposureKeys <-
        tryCatch
          (call Call_getTemporaryExposureKeyHistory getTemporaryExposureKeyHistory)
          (fun error =>
             captureException "getTemporaryExposureKeyHistory" error ;;
             throw CannotGetTEKs) ;;
      match temporaryExposureKeys with
      | _ :: _ =>
          call (Call_reportDiagnosisKeys temporaryExposureKeys)
               (reportDiagnosisKeys auth temporaryExposureKeys contagiousDateInfo)
      | [] => ret tt
      end ;;
      recordKeySubmission
  end.

Definition calculateNeedsSubmission : Task bool :=
  exposureStatus <- getStatus ;;
  match type exposureStatus with
  | Diagnosed =>
      today <- getCurrentDate ;;
      (* an absent [cycleEndsAt] gives an invalid date: no comparison holds *)
      if match cycleEndsAt exposureStatus with
         | Some cycleEndsAt => daysBetweenUTC today cycleEndsAt <=? 0
         | None => false
         end
      then ret false
      else
        match submissionLastCompletedAt exposureStatus with
        | None | Some 0 => ret true
        | Some lastSubmittedDay =>
            if 0 <? daysBetweenUTC lastSubmittedDay today then ret true else ret false
        end
  | _ => ret false
  end.

(** *** The period key fetcher *)

(** One turn of the generator's loop body: the [try] yields a pair, the
    [catch] yields nothing. *)
Definition fetchPeriod (runningPeriod : Z) : Task (list (string * Z)) :=
  tryCatch
    (keysFileUrl <-
       call (Call_retrieveDiagnosisKeys runningPeriod)
            (retrieveDiagnosisKeys runningPeriod) ;;
     let period := runningPeriod in
     ret [(keysFileUrl, period)])
    (fun error =>
       captureException "Error while downloading key file" error ;;
       ret []).

(** [while (runningPeriod > lastCheckedPeriod) { ...; runningPeriod -= 1 }],
    returning what the generator yields, in order. *)
Equations? fetchLoop (runningPeriod lastCheckedPeriod : Z) :
    Task (list (string * Z))
    by wf (Z.to_nat (runningPeriod - lastCheckedPeriod)) lt :=
  fetchLoop runningPeriod lastCheckedPeriod
    with Z_gt_dec runningPeriod lastCheckedPeriod => {
    | left _ =>
        yielded <- fetchPeriod runningPeriod ;;
        rest <- fetchLoop (runningPeriod - 1) lastCheckedPeriod ;;
        ret (yielded ++ rest);
    | right _ => ret [] }.
Proof. lia. Qed.

(** The asynchronous generator, as the sequence it yields when drained
    (its only consumer, [getKeys], drains it). *)
Definition keysSinceLastFetch (_lastCheckedPeriod : PeriodValue) :
    Task (list (string * Z)) :=
  runningDate <- getCurrentDate ;;
  let runningPeriod := periodSinceEpoch runningDate HOURS_PER_PERIOD in
  if negb (truthy _lastCheckedPeriod) then
    tryCatch
      (keysFileUrl <-
         call (Call_retrieveDiagnosisKeys 0) (retrieveDiagnosisKeys 0) ;;
       ret [(keysFileUrl, runningPeriod)])
      (fun error =>
         captureException "Error while downloading batch files" error ;;
         ret [])
  else
    (* [Math.max(_lastCheckedPeriod - 1, ...)] is [NaN] for an object, and
       [runningPeriod > NaN] is false *)
    match toNumber _lastCheckedPeriod with
    | Some n =>
        let lastCheckedPeriod :=
          Z.max (n - 1) (runningPeriod - EXPOSURE_NOTIFICATION_CYCLE) in
        fetchLoop runningPeriod lastCheckedPeriod
    | None => ret []
    end.

(** The body of the consumer's loop, over the yielded pairs: the handles
    pushed to [keys] and the local [lastCheckedPeriod]. *)
Fixpoint drain (yielded : list (string * Z)) (keys : list string)
    (lastCheckedPeriod : PeriodValue) : list string * PeriodValue :=
  match yielded with
  | [] => (keys, lastCheckedPeriod)
  | (keysFileUrl, period) :: rest =>
      drain rest (keys ++ [keysFileUrl])
            (Math_max (jsOr lastCheckedPeriod (PNumber 0)) period)
  end.

(** [getKeys] returns [{keys, lastChecked}]: the object it was given, not
    the local [lastCheckedPeriod]. *)
Definition getKeys (lastChecked : option LastChecked) :
    Task (list string * option LastChecked) :=
  yielded <- keysSinceLastFetch (periodOf lastChecked) ;;
  let '(keys, lastCheckedPeriod) := drain yielded [] (periodOf lastChecked) in
  ret (keys, lastChecked).

(** *** The status state machine *)

Definition finalize (status : PartialStatus) (lastCheckedPeriod : PeriodValue) :
    Task unit :=
  previousExposureStatus <- getStatus ;;
  timestamp <- getCurrentDate ;;
  let period :=
    match lastCheckedPeriod with
    | PUndefined =>
        jsOr (jsOr (periodOf (p_lastChecked status))
                   (periodOf (lastChecked previousExposureStatus)))
             (PNumber 0)
    | _ => lastCheckedPeriod
    end in
  append (mkPartial (p_type status) (p_summary status) (p_notificationSent status)
                    (p_needsSubmission status) (p_submissionLastCompletedAt status)
                    (p_uploadReminderLastSentAt status) (p_cycleStartsAt status)
                    (p_cycleEndsAt status)
                    (Some (mkLastChecked timestamp period))).

Definition selectExposureSummary (nextSummary : ExposureSummary) :
    Task (option ExposureSummary) :=
  exposureStatus <- getStatus ;;
  match type exposureStatus with
  | Exposed => ret (summary exposureStatus)
  | _ => ret (Some nextSummary)
  end.

(** [AsyncStorage.setItem] without [await]: a rejection only loses the write. *)
Definition asyncStorage_setItem_unawaited (t : Z) : Task unit :=
  fun w =>
    (Returned tt,
     match asyncStorage_setItem_fault with
     | None => set_asyncStorage_lastExposureTimestamp t w
     | Some _ => w
     end).

Definition setToExposed (summary : ExposureSummary) (lastCheckedPeriod : PeriodValue) :
    Task unit :=
  asyncStorage_setItem_unawaited (lastExposureTimestamp summary) ;;
  selected <- selectExposureSummary summary ;;
  finalize (mkPartial (Some Exposed) selected None None None None None None None)
           lastCheckedPeriod.

Definition setToMonitoring : Task unit :=
  finalize (mkPartial (Some Monitoring) None None None None None None None None)
           PUndefined.

Definition asyncStorage_getItem : Task (option Z) :=
  raiseFault asyncStorage_getItem_fault ;;
  fun w => (Returned (asyncStorage_lastExposureTimestamp w), w).

Definition asyncStorage_setItem (t : Z) : Task unit :=
  raiseFault asyncStorage_setItem_fault ;;
  fun w => (Returned tt, set_asyncStorage_lastExposureTimestamp t w).

(** The stored value is the decimal string of a timestamp, written by
    [setToExposed] and by this method: the slot holds the number. *)
Definition getStoredLastExposureTimestamp : Task (option Z) :=
  exposureStatus <- getStatus ;;
  match type exposureStatus with
  | Exposed =>
      lastExposureTimestampStr <- asyncStorage_getItem ;;
      match lastExposureTimestampStr with
      | Some stored => ret (Some stored)
      | None =>
          match summary exposureStatus with
          | None => throw TypeError   (* reading a property of [undefined] *)
          | Some summary =>
              let lastExposureTimestamp := lastExposureTimestamp summary in
              if negb (lastExposureTimestamp =? 0) then ret (Some lastExposureTimestamp)
              else
                today <- getCurrentDate ;;
                asyncStorage_setItem today ;;
                ret (Some today)
          end
      end
  | _ => ret None
  end.

Definition updateExposure : Task unit :=
  currentStatus <- getStatus ;;
  today <- getCurrentDate ;;
  match type currentStatus with
  | Diagnosed =>
      if match cycleEndsAt currentStatus with
         | Some cycleEndsAt => daysBetween today cycleEndsAt <=? 0
         | None => false
         end
      then setToMonitoring
      else
        needs <- calculateNeedsSubmission ;;
        finalize (mkPartial None None None (Some needs) None None None None None)
                 PUndefined
  | Exposed =>
      lastExposureTimestamp <- getStoredLastExposureTimestamp ;;
      match lastExposureTimestamp with
      | None => ret tt
      | Some lastExposureTimestamp =>
          if EXPOSURE_NOTIFICATION_CYCLE <=? daysBetween lastExposureTimestamp today
          then setToMonitoring
          else ret tt
      end
  | Monitoring => ret tt
  end.

(** *** The exposure evaluator *)

(** The [try] block of [getSummariesFromEnFramework]. *)
Definition getSummaries_try (exposureConfiguration : ExposureConfiguration)
    (today : Z) : Task (list ExposureSummary * PeriodValue) :=
  pendingSummaries <-
    call Call_getPendingExposureSummary getPendingExposureSummary ;;
  match pendingSummaries with
  | Some (first :: more) =>
      ret (first :: more,
           PObject today (PNumber (periodSinceEpoch today HOURS_PER_PERIOD)))
  | _ =>
      currentStatus <- getStatus ;;
      updateExposure ;;
      keysAndLastChecked <- getKeys (lastChecked currentStatus) ;;
      let lastCheckedPeriod :=
        match snd keysAndLastChecked with
        | Some lastChecked => objectOf lastChecked
        | None => PUndefined
        end in
      summaries <-
        call (Call_detectExposure (fst keysAndLastChecked))
             (detectExposure exposureConfiguration (fst keysAndLastChecked)) ;;
      ret (summaries, lastCheckedPeriod)
  end.

Definition getSummariesFromEnFramework (exposureConfiguration : ExposureConfiguration) :
    Task (list ExposureSummary * PeriodValue) :=
  today <- getCurrentDate ;;
  tryCatch
    (getSummaries_try exposureConfiguration today)
    (fun error =>
       captureException "getSummaries" error ;;
       ret ([], PNull)).

Definition performExposureCheck : Task unit :=
  exposureConfiguration <- getExposureConfiguration ;;
  summariesAndPeriod <- getSummariesFromEnFramework exposureConfiguration ;;
  let '(summaries, lastCheckedPeriod) := summariesAndPeriod in
  let summariesContaingExposures :=
    summariesContainingExposures
      Platform_OS (minimumExposureDurationMinutes exposureConfiguration) summaries in
  match summariesContaingExposures with
  | first :: _ => setToExposed first lastCheckedPeriod
  | [] => finalize emptyPartial PUndefined
  end.

(** *** Single flight of the check

    [updateExposureStatus] keeps the promise of the check in flight in
    [exposureStatusUpdatePromise]; promises are told apart by the number of
    the check they belong to.  The service is driven by two kinds of turn
    of the event loop: a call of [updateExposureStatus], and the
    settlement of the check in flight, at which [cleanUpPromise] runs.
    The effects of a check are charged to the turn that settles it. *)

Record Flights := mkFlights {
  world : World;
  exposureStatusUpdatePromise : option nat;
  checksStarted : nat;                       (* calls of [performExposureCheck] *)
  settled : list (nat * Outcome unit)        (* checks completed, with their outcome *)
}.

(** The promise handed to the caller, and the service after the call. *)
Definition updateExposureStatus (s : Flights) : nat * Flights :=
  match exposureStatusUpdatePromise s with
  | Some inFlight => (inFlight, s)
  | None =>
      let promise := checksStarted s in
      (promise, mkFlights (world s) (Some promise) (S (checksStarted s)) (settled s))
  end.

(** [cleanUpPromise], given to [then] for both fulfilment and rejection. *)
Definition cleanUpPromise (s : Flights) : Flights :=
  mkFlights (world s) None (checksStarted s) (settled s).

(** The check in flight settles; nothing settles when none is in flight. *)
Definition settle (s : Flights) : Flights :=
  match exposureStatusUpdatePromise s with
  | Some inFlight =>
      let '(outcome, w) := performExposureCheck (world s) in
      cleanUpPromise
        (mkFlights w (Some inFlight) (checksStarted s) ((inFlight, outcome) :: settled s))
  | None => s
  end.

Inductive Turn := CallUpdate | Settle.

(** A run of turns: the promises handed out, in order, and the final service. *)
Fixpoint run (turns : list Turn) (s : Flights) : list nat * Flights :=
  match turns with
  | [] => ([], s)
  | CallUpdate :: rest =>
      let '(promise, s') := updateExposureStatus s in
      let '(promises, s'') := run rest s' in
      (promise :: promises, s'')
  | Settle :: rest => run rest (settle s)
  end.

End Service.

(** ** The three tiers of the configuration *)

Section Reference.

Context {env : Collaborators}.


(** First tier as [getExposureConfiguration] runs it: the write to the
    cache is awaited inside the [try] block, so the tier also needs the
    write not to be rejected. *)
Definition remoteTier : option ExposureConfiguration :=
  match backend_getExposureConfiguration with
  | Ok remote =>
      match validateExposureConfiguration remote, storage_setItem_fault with
      | Ok _, None => Some remote
      | _, _ => None
      end
  | Rejects _ => None
  end.

(** Second tier (step 2): the last cached configuration, when local
    storage can be read, holds one, and it parses. *)
Definition cachedTier (w : World) : option ExposureConfiguration :=
  match storage_getItem_fault, storage_exposureConfiguration w with
  | None, Some EmptyString => None
  | None, Some str =>
      match JSON_parse_configuration str with
      | Ok cached => Some cached
      | Rejects _ => None
      end
  | _, _ => None
  end.

(** Three-tier resolution as the code runs it, first success wins; the
    third tier is the bundled default. *)
Definition resolvedConfiguration (w : World) : ExposureConfiguration :=
  match remoteTier with
  | Some remote => remote
  | None =>
      match cachedTier w with
      | Some cached => cached
      | None => exposureConfigurationDefault
      end
  end.


End Reference.

(** The [try] block of [getSummariesFromEnFramework] throws in the check
    that starts in [w]: the block runs with the resolved configuration, after
    [getExposureConfiguration] and the reading of [today]. *)
Definition pipelineThrows {dates : DateFns} {env : Collaborators} (w : World) : Prop :=
  let w1 := snd (getExposureConfiguration w) in
  exists e,
    fst (getSummaries_try (resolvedConfiguration w) (clock (ticks w1)) (tick w1))
    = Thrown e.

(** ** Reading a run *)

(** Order of the pairs the key fetcher yields: most recent period first. *)
Definition mostRecentFirst (a b : string * Z) : Prop := snd a > snd b.


(** A task leaves an observation of the world as it found it. *)
Definition preserves {A B} (observe : World -> B) (m : Task A) : Prop :=
  forall w, observe (snd (m w)) = observe w.

Definition isRetrieveCall (e : Event) : bool :=
  match e with Call_retrieveDiagnosisKeys _ => true | _ => false end.

Definition isReportCall (e : Event) : bool :=
  match e with Call_reportDiagnosisKeys _ => true | _ => false end.

Definition isPendingSummaryCall (e : Event) : bool :=
  match e with Call_getPendingExposureSummary => true | _ => false end.

(** The checkpoint a check starts from: an absent or falsy period reads as 0
    (it is what [finalize] writes back when it is given no period). *)
Definition checkpoint (w : World) : PeriodValue :=
  jsOr (periodOf (lastChecked (exposureStatus w))) (PNumber 0).

(** An observation that does not look at the clock, at the stores beside the
    status, or at the trace (calls for pending summaries apart). *)
Record Bookkeeping {B} (observe : World -> B) : Prop := {
  observe_record :
    forall e w, isPendingSummaryCall e = false -> observe (record e w) = observe w;
  observe_tick : forall w, observe (tick w) = observe w;
  observe_configuration :
    forall c w, observe (set_storage_exposureConfiguration c w) = observe w;
  observe_timestamp :
    forall t w, observe (set_asyncStorage_lastExposureTimestamp t w) = observe w;
  observe_stored_status :
    forall s w, observe (set_storage_exposureStatus s w) = observe w
}.

(** How often the external capability was asked for pending summaries. *)
Definition pendingSummaryCalls (w : World) : nat :=
  List.length (filter isPendingSummaryCall (trace w)).

(** ** Concrete dates and collaborators, for running the service *)

Definition MS_PER_DAY : Z := 86400000.

(** Modelled from the spec: [shared/date-fns] is not among the sources.  The
    spec speaks of UTC calendar days for [daysBetweenUTC], of local device
    time for [daysBetween], and of a period as the count of 24-hour windows
    since the epoch.  [utcOffset] is the device's offset from UTC in
    milliseconds; the second date minus the first is counted. *)
Definition deviceDates (utcOffset : Z) : DateFns :=
  {| daysBetween date1 date2 :=
       (date2 + utcOffset) / MS_PER_DAY - (date1 + utcOffset) / MS_PER_DAY;
     daysBetweenUTC date1 date2 := date2 / MS_PER_DAY - date1 / MS_PER_DAY;
     periodSinceEpoch date hoursPerPeriod := date / (3600000 * hoursPerPeriod) |}.

(** Collaborators that never reject on storage, accept every configuration,
    and answer as given; the clock stands at [now]. *)
Definition collaborators
    (os : OS)
    (now : Z)
    (retrieve : Z -> Answer string)
    (remote : Answer ExposureConfiguration)
    (pending : Answer (option (list ExposureSummary)))
    (detect : Answer (list ExposureSummary))
    (history : Answer (list TemporaryExposureKey)) : Collaborators :=
  {| retrieveDiagnosisKeys := retrieve;
     backend_getExposureConfiguration := remote;
     reportDiagnosisKeys _ _ _ := Ok tt;
     getPendingExposureSummary := pending;
     detectExposure _ _ := detect;
     getTemporaryExposureKeyHistory := history;
     validateExposureConfiguration _ := Ok tt;
     JSON_stringify_configuration c := otherParameters c;
     JSON_parse_configuration str := Ok (mkConfiguration 15 str);
     JSON_parse_submissionKeys str := Ok str;
     storage_getItem_fault := None;
     storage_setItem_fault := None;
     secureStorage_get_fault := None;
     asyncStorage_getItem_fault := None;
     asyncStorage_setItem_fault := None;
     exposureConfigurationDefault := mkConfiguration 15 "default";
     Platform_OS := os;
     clock _ := now |}.

Definition monitoringStatus (checked : option LastChecked) : ExposureStatus :=
  mkStatus Monitoring None None None None None None None checked.

Definition exposedStatus (s : ExposureSummary) (checked : option LastChecked) :
    ExposureStatus :=
  mkStatus Exposed (Some s) (Some false) None None None None None checked.

Definition diagnosedStatus (needs : bool) (cycleStartsAt cycleEndsAt : Z)
    (checked : option LastChecked) : ExposureStatus :=
  mkStatus Diagnosed None None (Some needs) None None
           (Some cycleStartsAt) (Some cycleEndsAt) checked.

(** A world with the given status and nothing stored beside it. *)
Definition worldOf (s : ExposureStatus) : World :=
  mkWorld s (Some s) None None None 0%nat [].

(** A summary with no time in the two nearest buckets. *)
Definition briefContact : ExposureSummary := mkSummary 1598313600000 [0; 0; 30].


(** *** Dates and worlds of the examples *)

Definition MS_PER_HOUR : Z := 3600000.

(** A device four hours behind UTC. *)
Definition utcMinus4 : DateFns := deviceDates (- 4 * MS_PER_HOUR).

(** 01:00 UTC on day 18500 (26 August 2020): 21:00 of day 18499 on the device. *)
Definition earlyMorningUTC : Z := 18500 * MS_PER_DAY + 1 * MS_PER_HOUR.

Definition servedConfiguration : ExposureConfiguration := mkConfiguration 15 "remote".

(** Every batch is served, no summary is pending, nothing is detected. *)
Definition uneventful : Collaborators :=
  collaborators android earlyMorningUTC (fun _ => Ok "batch"%string)
                (Ok servedConfiguration) (Ok None) (Ok []) (Ok []).

(** The request for pending summaries is rejected. *)
Definition pendingRejected : Collaborators :=
  collaborators android earlyMorningUTC (fun _ => Ok "batch"%string)
                (Ok servedConfiguration) (Rejects (OtherRejection "unavailable"))
                (Ok []) (Ok []).

(** No summary is pending and [detectExposure] is rejected. *)
Definition detectionRejected : Collaborators :=
  collaborators android earlyMorningUTC (fun _ => Ok "batch"%string)
                (Ok servedConfiguration) (Ok None)
                (Rejects (OtherRejection "unavailable")) (Ok []).

(** No summary is pending and [detectExposure] reports an exposure of 30
    minutes, one day old. *)
Definition exposureDetected : Collaborators :=
  collaborators android earlyMorningUTC (fun _ => Ok "batch"%string)
                (Ok servedConfiguration) (Ok None)
                (Ok [mkSummary (earlyMorningUTC - MS_PER_DAY) [20; 10; 0]]) (Ok []).

(** The batch of period 18498 cannot be downloaded. *)
Definition oneBatchMissing : Collaborators :=
  collaborators android earlyMorningUTC
                (fun period =>
                   if period =? 18498 then Rejects (OtherRejection "timeout")
                   else Ok "batch"%string)
                (Ok servedConfiguration) (Ok None) (Ok []) (Ok []).

(** A cycle that ends at 23:00 UTC on day 18500: the same UTC day as
    [earlyMorningUTC], the next day on the device. *)
Definition endsLaterToday : World :=
  worldOf (diagnosedStatus true
             (18486 * MS_PER_DAY + 23 * MS_PER_HOUR)
             (18500 * MS_PER_DAY + 23 * MS_PER_HOUR) None).

(** A cycle that ended at 12:00 UTC on day 18499. *)
Definition endedYesterday : World :=
  worldOf (diagnosedStatus true
             (18485 * MS_PER_DAY + 12 * MS_PER_HOUR)
             (18499 * MS_PER_DAY + 12 * MS_PER_HOUR) None).

Definition anExposure (daysAgo : Z) : ExposureSummary :=
  mkSummary (earlyMorningUTC - daysAgo * MS_PER_DAY) [20; 10; 0].

(** Exposed, with the durable timestamp of the exposure in [AsyncStorage]. *)
Definition exposedSince (daysAgo : Z) : World :=
  mkWorld (exposedStatus (anExposure daysAgo) None)
          (Some (exposedStatus (anExposure daysAgo) None))
          None None (Some (earlyMorningUTC - daysAgo * MS_PER_DAY)) 0%nat [].

(** Monitoring, last checked at period 18495. *)
Definition checkedAt18495 : World :=
  worldOf (monitoringStatus (Some (mkLastChecked 1597999999000 (PNumber 18495)))).

(** Monitoring, with a submission credential still in secure storage. *)
Definition monitoringWithCredential : World :=
  mkWorld (monitoringStatus None) (Some (monitoringStatus None))
          None (Some "credential"%string) None 0%nat [].

(** An idle service. *)
Definition idle : Flights :=
  mkFlights (worldOf (monitoringStatus None)) None 0%nat [].

(** ** Tactics *)

(** Opens the combinators of [Task]. *)
Ltac unfold_task :=
  unfold exec, result, bind, ret, throw, tryCatch, call, lift, raiseFault,
    captureException, getStatus, getCurrentDate, append, settled_answer in *.

(** Splits a statement about the paths of a method and closes the paths
    that contradict the case at hand. *)
Ltac settle_paths :=
  repeat match goal with
         | |- _ /\ _ => split
         | |- _ <-> _ => split
         | |- forall _, _ => intro
         | H : _ /\ _ |- _ => destruct H
         | H : exists _, _ |- _ => destruct H
         | H : _ \/ _ |- _ => destruct H
         | H : Some _ = Some _ |- _ => injection H as H; subst
         end;
  try discriminate; try congruence; try contradiction; try reflexivity.

(** Lemmas of the form [preserves observe m]. *)
Create HintDb frames.

Ltac frame := auto 40 with frames.

(** ** The rest of the service: reminders, notifications, the start of a
    submission cycle, loading and start-up *)

Definition MINIMUM_REMINDER_INTERVAL_MINUTES : Z := 180.

(** The functions of [shared/date-fns] the rest of the service uses, taken as
    parameters like those of [DateFns]. *)
Class CalendarFns := {
  addDays : Z -> Z -> Z;
  minutesBetween : Z -> Z -> Z
}.

(** [Status] of the bridge: the initial value of the service and whatever
    the bridge reports. *)
Inductive SystemStatus :=
| SystemStatus_Undefined
| SystemStatus_Reported (name : string).

(** The collaborators of these methods: the backend's redemption of a
    one-time code, the secure store's [set], the bridge's [start] and
    [getStatus], and the translations of [i18n]. *)
Class Platform := {
  claimOneTimeCode : string -> Answer SubmissionKeySet;
  JSON_stringify_submissionKeys : SubmissionKeySet -> string;
  secureStorage_set_fault : option Rejection;
  exposureNotification_start : Answer unit;
  exposureNotification_getStatus : Answer SystemStatus;
  translate : string -> string
}.

(** Calls to these collaborators and notifications handed to
    [PushNotification.presentLocalNotification], most recent first. *)
Inductive PlatformEvent :=
| Call_claimOneTimeCode (oneTimeCode : string)
| Call_exposureNotification_start
| Call_exposureNotification_getStatus
| Presented (alertTitle alertBody : string).

(** The service with the fields the methods above add to [World]. *)
Record Device := mkDevice {
  service : World;
  systemStatus : SystemStatus;                  (* this.systemStatus *)
  starting : bool;                              (* this.starting *)
  platformTrace : list PlatformEvent
}.

Definition set_service (w : World) (d : Device) : Device :=
  mkDevice w (systemStatus d) (starting d) (platformTrace d).

Definition set_systemStatus (s : SystemStatus) (d : Device) : Device :=
  mkDevice (service d) s (starting d) (platformTrace d).

Definition set_starting (b : bool) (d : Device) : Device :=
  mkDevice (service d) (systemStatus d) b (platformTrace d).

Definition recordPlatform (e : PlatformEvent) (d : Device) : Device :=
  mkDevice (service d) (systemStatus d) (starting d) (e :: platformTrace d).

Definition set_secureStorage_submissionAuthKeys (serialized : string) (w : World) :
    World :=
  mkWorld (exposureStatus w) (storage_exposureStatus w) (storage_exposureConfiguration w)
          (Some serialized) (asyncStorage_lastExposureTimestamp w)
          (ticks w) (trace w).

Definition DeviceTask (A : Type) : Type := Device -> Outcome A * Device.

Definition dret {A} (a : A) : DeviceTask A := fun d => (Returned a, d).

Definition dbind {A B} (m : DeviceTask A) (k : A -> DeviceTask B) : DeviceTask B :=
  fun d =>
    match m d with
    | (Returned a, d') => k a d'
    | (Thrown e, d') => (Thrown e, d')
    end.

Definition dtryCatch {A} (m : DeviceTask A) (h : Error -> DeviceTask A) : DeviceTask A :=
  fun d =>
    match m d with
    | (Returned a, d') => (Returned a, d')
    | (Thrown e, d') => h e d'
    end.

(** The device and the outcome a task leaves. *)
Definition dexec {A} (m : DeviceTask A) (d : Device) : Device := snd (m d).
Definition dresult {A} (m : DeviceTask A) (d : Device) : Outcome A := fst (m d).

(** A method of the first part, run on the [service] of the device. *)
Definition onService {A} (m : Task A) : DeviceTask A :=
  fun d => let '(o, w) := m (service d) in (o, set_service w d).

Definition platformCall {A} (e : PlatformEvent) (answer : Answer A) : DeviceTask A :=
  fun d => (settled_answer answer, recordPlatform e d).

Declare Scope device_scope.
Delimit Scope device_scope with device.
Notation "x <- m ;; k" := (dbind m (fun x => k))
  (at level 61, m at next level, right associativity) : device_scope.
Notation "m ;; k" := (dbind m (fun _ => k))
  (at level 61, right associativity) : device_scope.

(** The notifications presented so far, oldest first. *)
Definition presented (d : Device) : list (string * string) :=
  rev (flat_map (fun e => match e with
                          | Presented alertTitle alertBody => [(alertTitle, alertBody)]
                          | _ => []
                          end) (platformTrace d)).

(** The keys of a stored status object: a field is present when it has a
    value. *)
Definition partialOf (s : ExposureStatus) : PartialStatus :=
  mkPartial (Some (type s)) (summary s) (notificationSent s) (needsSubmission s)
            (submissionLastCompletedAt s) (uploadReminderLastSentAt s)
            (cycleStartsAt s) (cycleEndsAt s) (lastChecked s).

(** [JSON.parse (JSON.stringify v)] on the period slot: [NaN] is written as
    [null]; an [undefined] member is left out and reads back as
    [undefined]. *)
Fixpoint JSON_roundTrip_period (v : PeriodValue) : PeriodValue :=
  match v with
  | PNaN => PNull
  | PObject timestamp period => PObject timestamp (JSON_roundTrip_period period)
  | _ => v
  end.

(** The status object read back from the string the observer wrote. *)
Definition JSON_roundTrip (s : ExposureStatus) : ExposureStatus :=
  mkStatus (type s) (summary s) (notificationSent s) (needsSubmission s)
           (submissionLastCompletedAt s) (uploadReminderLastSentAt s)
           (cycleStartsAt s) (cycleEndsAt s)
           match lastChecked s with
           | Some checked =>
               Some (mkLastChecked (lc_timestamp checked)
                                   (JSON_roundTrip_period (lc_period checked)))
           | None => None
           end.

Section RestOfService.

Context {dates : DateFns} {calendar : CalendarFns}
        {env : Collaborators} {platform : Platform}.

Definition isReminderNeeded (exposureStatus : ExposureStatus) : Task bool :=
  match type exposureStatus with
  | Diagnosed =>
      match needsSubmission exposureStatus with
      | Some true =>
          match uploadReminderLastSentAt exposureStatus with
          | None | Some 0 => ret true
          | Some lastSent =>
              today <- getCurrentDate ;;
              let mins := minutesBetween lastSent today in
              ret (MINIMUM_REMINDER_INTERVAL_MINUTES <? mins)
          end
      | _ => ret false
      end
  | _ => ret false
  end.

Definition presentLocalNotification (alertTitle alertBody : string) : DeviceTask unit :=
  fun d => (Returned tt, recordPlatform (Presented alertTitle alertBody) d).

(** [new Date()] in [processNotification] reads the clock that
    [getCurrentDate] reads. *)
Definition processNotification : DeviceTask unit :=
  (exposureStatus <- onService getStatus ;;
   match type exposureStatus, notificationSent exposureStatus with
   | Exposed, Some true => dret tt
   | Exposed, _ =>
       presentLocalNotification
         (translate "Notification.ExposedMessageTitle")
         (translate "Notification.ExposedMessageBody") ;;
       onService
         (append (mkPartial None None (Some true) None None None None None None))
   | _, _ => dret tt
   end ;;
   needed <- onService (isReminderNeeded exposureStatus) ;;
   if needed : bool then
     presentLocalNotification
       (translate "Notification.DailyUploadNotificationTitle")
       (translate "Notification.DailyUploadNotificationBody") ;;
     now <- onService getCurrentDate ;;
     onService
       (append (mkPartial None None None None None (Some now) None None None))
   else dret tt)%device.

(** The two notifications of [processNotification], as presented. *)
Definition exposedAlert : string * string :=
  (translate "Notification.ExposedMessageTitle",
   translate "Notification.ExposedMessageBody").

Definition uploadReminder : string * string :=
  (translate "Notification.DailyUploadNotificationTitle",
   translate "Notification.DailyUploadNotificationBody").

Definition secureStorage_set_submissionAuthKeys (serialized : string) : Task unit :=
  raiseFault secureStorage_set_fault ;;
  fun w => (Returned tt, set_secureStorage_submissionAuthKeys serialized w).

Definition startKeysSubmission (oneTimeCode : string) : DeviceTask unit :=
  (keys <- platformCall (Call_claimOneTimeCode oneTimeCode)
                        (claimOneTimeCode oneTimeCode) ;;
   let serialized := JSON_stringify_submissionKeys keys in
   dtryCatch
     (onService (secureStorage_set_submissionAuthKeys serialized))
     (fun error =>
        onService (captureException "Unable to store SUBMISSION_AUTH_KEYS" error)) ;;
   cycleStartsAt <- onService getCurrentDate ;;
   onService
     (append (mkPartial (Some Diagnosed) None None (Some true) None None
                        (Some cycleStartsAt)
                        (Some (addDays cycleStartsAt EXPOSURE_NOTIFICATION_CYCLE))
                        None)))%device.

Definition storage_getItem_status : Task (option ExposureStatus) :=
  raiseFault storage_getItem_fault ;;
  fun w => (Returned (storage_exposureStatus w), w).

(** The stored string is what the observer wrote with [JSON.stringify]: the
    slot holds the object the observer was given, and reading it back goes
    through [JSON_roundTrip].  A missing item reads as ['null'], whose
    spread is the empty object. *)
Definition loadExposureStatus : Task unit :=
  exposureStatus <- storage_getItem_status ;;
  append match exposureStatus with
         | Some stored => partialOf (JSON_roundTrip stored)
         | None => emptyPartial
         end.

Definition updateSystemStatus : DeviceTask unit :=
  (status <- platformCall Call_exposureNotification_getStatus
                          exposureNotification_getStatus ;;
   fun d => (Returned tt, set_systemStatus status d))%device.

(** [await this.updateExposureStatus()] with no check in flight: the check
    runs, and the promise is fulfilled whether the check fulfils or rejects,
    [cleanUpPromise] returning its input in both cases. *)
Definition awaitExposureStatusUpdate : DeviceTask unit :=
  onService (tryCatch performExposureCheck (fun _ => ret tt)).

Definition start : DeviceTask unit :=
  fun d =>
    if starting d then (Returned tt, d)
    else
      ((fun d => (Returned tt, set_starting true d)) ;;
       onService loadExposureStatus ;;
       dtryCatch
         (platformCall Call_exposureNotification_start exposureNotification_start)
         (fun error => onService (captureException "Cannot start EN framework" error)) ;;
       updateSystemStatus ;;
       (fun d => (Returned tt, set_starting false d)) ;;
       awaitExposureStatusUpdate)%device d.

Definition updateExposureStatusInBackground : DeviceTask unit :=
  (onService loadExposureStatus ;;
   dtryCatch
     (awaitExposureStatusUpdate ;;
      processNotification)
     (fun error =>
        onService (captureException "updateExposureStatusInBackground" error)))%device.

End RestOfService.

(** The constructor: a service in the initial [Monitoring] status over the
    stores as they are, with the observer in place ([append] writes
    through), no system status yet and no start under way. *)
Definition newService (stores : World) : World :=
  mkWorld (mkStatus Monitoring None None None None None None None None)
          (storage_exposureStatus stores) (storage_exposureConfiguration stores)
          (secureStorage_submissionAuthKeys stores)
          (asyncStorage_lastExposureTimestamp stores)
          (ticks stores) (trace stores).

Definition newDevice (stores : World) : Device :=
  mkDevice (newService stores) SystemStatus_Undefined false [].

(** *** Observations used below *)

(** Storage holds the status the service holds. *)
Definition statusIsStored (w : World) : Prop :=
  storage_exposureStatus w = Some (exposureStatus w).

(** The exposure alert has been presented and the stored status says so. *)
Definition alerted (w : World) : Prop :=
  notificationSent (exposureStatus w) = Some true /\ statusIsStored w.

(** The promises handed out so far are those of the checks started: the
    checks started are the checks settled and, when a promise is kept, the
    one in flight, whose promise it is. *)
Definition consistent (s : Flights) : Prop :=
  match exposureStatusUpdatePromise s with
  | Some inFlight =>
      checksStarted s = S (List.length (settled s))
      /\ inFlight = List.length (settled s)
  | None => checksStarted s = List.length (settled s)
  end.

(** [NaN] somewhere in a period slot. *)
Fixpoint holdsNaN (v : PeriodValue) : bool :=
  match v with
  | PNaN => true
  | PObject _ period => holdsNaN period
  | _ => false
  end.


Definition isDetectCall (e : Event) : bool :=
  match e with Call_detectExposure _ => true | _ => false end.

(** The fields of the status that belong to the notification and
    submission bookkeeping and to the bounds of the cycle. *)
Definition fieldsOutsideCheck (w : World) :=
  (notificationSent (exposureStatus w),
   submissionLastCompletedAt (exposureStatus w),
   uploadReminderLastSentAt (exposureStatus w),
   cycleStartsAt (exposureStatus w),
   cycleEndsAt (exposureStatus w)).

(** The checkpoint period as it stands in the status. *)
Definition checkpointPeriod (w : World) : PeriodValue :=
  periodOf (lastChecked (exposureStatus w)).

(** A period slot that holds no number other than 0. *)
Definition unnumbered (v : PeriodValue) : Prop :=
  match v with PNumber n => n = 0 | _ => True end.

Definition isObject (v : PeriodValue) : Prop :=
  match v with PObject _ _ => True | _ => False end.

(** A request for key files, if it is one, asks for batch 0. *)
Definition batchZeroOnly (e : Event) : Prop :=
  match e with Call_retrieveDiagnosisKeys period => period = 0 | _ => True end.

Definition noRetrieveCall (e : Event) : Prop := isRetrieveCall e = false.

(** The trace of [w'] extends that of [w] by events that all satisfy [Q]. *)
Definition since (Q : Event -> Prop) (w w' : World) : Prop :=
  exists new, trace w' = (new ++ trace w)%list /\ Forall Q new.

(** From a checkpoint period in [J], the state reached has its checkpoint
    period in [J] again, by events that all satisfy [Q]. *)
Definition keeping (J : PeriodValue -> Prop) (Q : Event -> Prop) (w w' : World) : Prop :=
  J (checkpointPeriod w) -> J (checkpointPeriod w') /\ since Q w w'.

(** Every run of a task takes a state to one related to it by [R]. *)
Definition respects {A} (R : World -> World -> Prop) (m : Task A) : Prop :=
  forall w, R w (snd (m w)).

(** Every value a task returns satisfies [P]. *)
Definition returns {A} (P : A -> Prop) (m : Task A) : Prop :=
  forall w a, fst (m w) = Returned a -> P a.

(** Lemmas of the form [respects R m]. *)
Create HintDb keeps.

Ltac keep := auto 40 with keeps.

(** Opens the combinators of [DeviceTask]. *)
Ltac unfold_device :=
  unfold dexec, dresult, dbind, dret, dtryCatch, onService, platformCall in *.

(** *** Fixtures of the examples for these methods *)

(** Modelled from the spec: [addDays] and [minutesBetween] of
    [shared/date-fns] are not among the sources.  The cycle ends [days] days
    after it starts, and the reminder interval is counted in whole minutes
    since the last reminder. *)
Definition plainCalendar : CalendarFns :=
  {| addDays date days := date + days * MS_PER_DAY;
     minutesBetween date1 date2 := (date2 - date1) / 60000 |}.

(** A platform where every call succeeds. *)
Definition cooperative : Platform :=
  {| claimOneTimeCode code := Ok ("keys for " ++ code)%string;
     JSON_stringify_submissionKeys keys := keys;
     secureStorage_set_fault := None;
     exposureNotification_start := Ok tt;
     exposureNotification_getStatus := Ok (SystemStatus_Reported "active");
     translate key := key |}.

(** A platform whose secure store rejects writes. *)
Definition secureStoreBroken : Platform :=
  {| claimOneTimeCode code := Ok ("keys for " ++ code)%string;
     JSON_stringify_submissionKeys keys := keys;
     secureStorage_set_fault := Some (OtherRejection "keychain locked");
     exposureNotification_start := Ok tt;
     exposureNotification_getStatus := Ok (SystemStatus_Reported "active");
     translate key := key |}.

(** A platform whose bridge rejects [getStatus]. *)
Definition statusUnavailable : Platform :=
  {| claimOneTimeCode code := Ok ("keys for " ++ code)%string;
     JSON_stringify_submissionKeys keys := keys;
     secureStorage_set_fault := None;
     exposureNotification_start := Ok tt;
     exposureNotification_getStatus := Rejects (OtherRejection "unavailable");
     translate key := key |}.

Definition deviceOf (w : World) : Device :=
  mkDevice w SystemStatus_Undefined false [].

(** A summary of 30 minutes, one day old, is pending on the platform. *)
Definition summaryPending : Collaborators :=
  collaborators android earlyMorningUTC (fun _ => Ok "batch"%string)
                (Ok servedConfiguration) (Ok (Some [anExposure 1]))
                (Ok []) (Ok []).

(** The bridge hands over two keys of the device. *)
Definition keysOnDevice : Collaborators :=
  collaborators android earlyMorningUTC (fun _ => Ok "batch"%string)
                (Ok servedConfiguration) (Ok None) (Ok [])
                (Ok ["key 1"%string; "key 2"%string]).

(** Monitoring, with the checkpoint object of an earlier check in the period
    slot. *)
Definition objectInPeriodSlot : World :=
  worldOf (monitoringStatus
             (Some (mkLastChecked 1598313600000
                      (PObject 1598313000000 (PNumber 18499))))).

(** Exposed, the alert presented. *)
Definition alertPresented : World :=
  worldOf (mkStatus Exposed (Some (anExposure 2)) (Some true) None None None
                    None None None).

(** Diagnosed on day 18496 with ten days of the cycle to go, the credential
    in secure storage. *)
Definition midCycle : World :=
  mkWorld (diagnosedStatus true (18496 * MS_PER_DAY) (18510 * MS_PER_DAY) None)
          (Some (diagnosedStatus true (18496 * MS_PER_DAY) (18510 * MS_PER_DAY) None))
          None (Some "credential"%string) None 0%nat [].



(** * Properties *)

(** ** Composition of tasks that leave an observation alone *)

Section Preservation.

Context {B : Type} (observe : World -> B).

Lemma preserves_ret {A} (a : A) : preserves observe (ret a).
Proof. intros w. reflexivity. Qed.

Lemma preserves_throw {A} e : preserves observe (@throw A e).
Proof. intros w. reflexivity. Qed.

Lemma preserves_lift {A} (answer : Answer A) : preserves observe (lift answer).
Proof. intros w. reflexivity. Qed.

Lemma preserves_raiseFault fault : preserves observe (raiseFault fault).
Proof. intros w. destruct fault; reflexivity. Qed.

Lemma preserves_getStatus : preserves observe getStatus.
Proof. intros w. reflexivity. Qed.

Lemma preserves_bind {A C} (m : Task A) (k : A -> Task C) :
  preserves observe m -> (forall a, preserves observe (k a)) ->
  preserves observe (bind m k).
Proof.
  intros Hm Hk w. unfold bind. specialize (Hm w).
  destruct (m w) as [[a|e] w']; simpl in *; [rewrite Hk|]; assumption.
Qed.

Lemma preserves_tryCatch {A} (m : Task A) (h : Error -> Task A) :
  preserves observe m -> (forall e, preserves observe (h e)) ->
  preserves observe (tryCatch m h).
Proof.
  intros Hm Hh w. unfold tryCatch. specialize (Hm w).
  destruct (m w) as [[a|e] w']; simpl in *; [|rewrite Hh]; assumption.
Qed.

(** What follows a task does not show in the observation. *)
Lemma observe_bind {A C} (m : Task A) (k : A -> Task C) w :
  (forall a, preserves observe (k a)) ->
  observe (snd (bind m k w)) = observe (snd (m w)).
Proof.
  intros Hk. unfold bind. destruct (m w) as [[a|e] w']; [apply Hk | reflexivity].
Qed.

Lemma observe_tryCatch {A} (m : Task A) (h : Error -> Task A) w :
  (forall e, preserves observe (h e)) ->
  observe (snd (tryCatch m h w)) = observe (snd (m w)).
Proof.
  intros Hh. unfold tryCatch. destruct (m w) as [[a|e] w']; [reflexivity | apply Hh].
Qed.

End Preservation.

#[global] Hint Resolve preserves_ret preserves_throw preserves_lift preserves_raiseFault
  preserves_getStatus preserves_bind preserves_tryCatch : frames.
#[global] Hint Extern 2 (preserves _ (match ?x with _ => _ end)) => destruct x : frames.
#[global] Hint Extern 2 (preserves _ (if ?x then _ else _)) => destruct x : frames.
#[global] Hint Extern 2 (preserves _ (let '(_, _) := ?x in _)) => destruct x : frames.

(** ** Filtering and ranking of summaries *)

Lemma sortInsert_perm x l : Permutation (x :: l) (sortInsert x l).
Proof.
  induction l as [|y l IH]; simpl; [reflexivity|].
  destruct (compareSummaries x y <=? 0); [reflexivity|].
  rewrite perm_swap. now apply perm_skip.
Qed.

Lemma sortSummaries_perm l : Permutation l (sortSummaries l).
Proof.
  induction l as [|x l IH]; simpl; [constructor|].
  rewrite <- sortInsert_perm. now apply perm_skip.
Qed.

Lemma sortInsert_sorted x l :
  StronglySorted newerFirst l -> StronglySorted newerFirst (sortInsert x l).
Proof.
  induction 1 as [|y l Hs IH Hy]; simpl.
  - repeat constructor.
  - unfold compareSummaries.
    destruct (Z.leb_spec (lastExposureTimestamp y - lastExposureTimestamp x) 0)
      as [Hle|Hgt].
    + constructor; [now constructor|].
      constructor; [unfold newerFirst; lia|].
      rewrite Forall_forall in *. intros z Hz. specialize (Hy z Hz).
      unfold newerFirst in *. lia.
    + constructor; [assumption|].
      rewrite Forall_forall in *. intros z Hz.
      apply (Permutation_in _ (Permutation_sym (sortInsert_perm x l))) in Hz.
      destruct Hz as [<-|Hz]; [unfold newerFirst; lia | now apply Hy].
Qed.

Lemma sortSummaries_sorted l : StronglySorted newerFirst (sortSummaries l).
Proof.
  induction l; simpl; [constructor | now apply sortInsert_sorted].
Qed.

Lemma summaryExceedsMinimumMinutes_iff os s T :
  summaryExceedsMinimumMinutes os s T = true <->
  T <> 0 /\ exists D, exposureDurationRounded os s = Some D /\ T <= D.
Proof.
  unfold summaryExceedsMinimumMinutes. rewrite andb_true_iff, negb_true_iff, Z.eqb_neq.
  destruct (exposureDurationRounded os s) as [D|].
  - rewrite Z.leb_le. split.
    + intros [H1 H2]. split; [assumption|]. now exists D.
    + intros [H1 [D' [[= <-] H2]]]. now split.
  - split; [intros [_ H]; discriminate | intros [_ [D [H _]]]; discriminate].
Qed.

(** The rounded minutes, in integer arithmetic: bucket values as they are
    where the buckets hold minutes, their sum divided by 60 and rounded
    half up where they hold seconds. *)
Lemma exposureDurationRounded_android s d0 d1 rest :
  attenuationDurations s = d0 :: d1 :: rest ->
  exposureDurationRounded android s = Some (d0 + d1).
Proof.
  intros E. unfold exposureDurationRounded. rewrite E. simpl. f_equal.
  unfold Math_round.
  assert (Q : (inject_Z d0 / inject_Z 1 + inject_Z d1 / inject_Z 1 + (1 # 2)
               == (2 * (d0 + d1) + 1) # 2)%Q).
  { unfold Qeq, Qplus, Qdiv, Qmult, Qinv, inject_Z; cbn -[Z.mul Z.add]. lia. }
  rewrite (Qfloor_comp _ _ Q). clear Q. unfold Qfloor. Z.div_mod_to_equations. lia.
Qed.

Lemma exposureDurationRounded_ios s d0 d1 rest :
  attenuationDurations s = d0 :: d1 :: rest ->
  exposureDurationRounded ios s = Some ((d0 + d1 + 30) / 60).
Proof.
  intros E. unfold exposureDurationRounded. rewrite E. simpl. f_equal.
  unfold Math_round.
  assert (Q : (inject_Z d0 / inject_Z 60 + inject_Z d1 / inject_Z 60 + (1 # 2)
               == (2 * (d0 + d1 + 30)) # 120)%Q).
  { unfold Qeq, Qplus, Qdiv, Qmult, Qinv, inject_Z; cbn -[Z.mul Z.add]. lia. }
  rewrite (Qfloor_comp _ _ Q). clear Q. unfold Qfloor. Z.div_mod_to_equations. lia.
Qed.

(** C5, as the code decides it. A summary survives
    [summariesContainingExposures] exactly when the threshold [T] is not
    zero and the rounded minutes [D] of its two nearest buckets reach [T];
    the survivors are ordered by last-exposure timestamp, newest first, and
    are the filtered summaries up to order. *)
Theorem summariesContainingExposures_filters_and_ranks os T summaries :
  (forall s, In s (summariesContainingExposures os T summaries) <->
             In s summaries /\ T <> 0 /\
             exists D, exposureDurationRounded os s = Some D /\ T <= D)
  /\ StronglySorted newerFirst (summariesContainingExposures os T summaries)
  /\ Permutation
       (filter (fun s => summaryExceedsMinimumMinutes os s T) summaries)
       (summariesContainingExposures os T summaries).
Proof.
  unfold summariesContainingExposures. split; [|split].
  - intros s. rewrite <- summaryExceedsMinimumMinutes_iff.
    rewrite <- (filter_In (fun s => summaryExceedsMinimumMinutes os s T)).
    split; apply Permutation_in; [symmetry|]; apply sortSummaries_perm.
  - apply sortSummaries_sorted.
  - apply sortSummaries_perm.
Qed.

(** With a negative threshold a summary of zero minutes survives. *)
Lemma negative_threshold_keeps_every_summary :
  exposureDurationRounded android briefContact = Some 0
  /\ In briefContact (summariesContainingExposures android (-1) [briefContact])
  /\ ~ (0 >= -1 /\ -1 > 0).
Proof.
  split; [reflexivity|]. split; [left; reflexivity|]. lia.
Qed.

(** ** Configuration resolver *)

Section ConfigurationResolver.

Context {dates : DateFns} {env : Collaborators}.

Lemma getExposureConfiguration_runs w :
  fst (getExposureConfiguration w) = Returned (resolvedConfiguration w).
Proof.
  unfold getExposureConfiguration, getAlternateExposureConfiguration,
    storage_setItem_configuration, storage_getItem_configuration,
    resolvedConfiguration, remoteTier, cachedTier.
  unfold_task. simpl.
  destruct backend_getExposureConfiguration as [remote|r]; simpl.
  - destruct (validateExposureConfiguration remote) as [[]|r]; simpl.
    + destruct storage_setItem_fault as [r|]; simpl; [|reflexivity].
      destruct storage_getItem_fault; simpl; [reflexivity|].
      destruct (storage_exposureConfiguration w) as [[|c str]|]; simpl; try reflexivity.
      destruct (JSON_parse_configuration (String c str)); reflexivity.
    + destruct storage_getItem_fault; simpl; [reflexivity|].
      destruct (storage_exposureConfiguration w) as [[|c str]|]; simpl; try reflexivity.
      destruct (JSON_parse_configuration (String c str)); reflexivity.
  - destruct storage_getItem_fault; simpl; [reflexivity|].
    destruct (storage_exposureConfiguration w) as [[|c str]|]; simpl; try reflexivity.
    destruct (JSON_parse_configuration (String c str)); reflexivity.
Qed.


(** The scenario of the spec: the validator rejects the remote
    configuration and nothing is cached. *)
Lemma getExposureConfiguration_schema_error_no_cache w remote :
  backend_getExposureConfiguration = Ok remote ->
  validateExposureConfiguration remote = Rejects ExposureConfigurationValidationError ->
  storage_exposureConfiguration w = None ->
  result getExposureConfiguration w = Returned exposureConfigurationDefault.
Proof.
  intros Hf Hv Hs. unfold result. rewrite getExposureConfiguration_runs.
  unfold resolvedConfiguration, remoteTier, cachedTier. rewrite Hf, Hv, Hs.
  destruct storage_getItem_fault; reflexivity.
Qed.

Lemma getExposureConfiguration_keeps_status :
  preserves exposureStatus getExposureConfiguration.
Proof.
  unfold getExposureConfiguration, getAlternateExposureConfiguration,
    storage_setItem_configuration, storage_getItem_configuration.
  repeat first
    [ apply preserves_bind; [|intros ?]
    | apply preserves_tryCatch; [|intros ?]
    | apply preserves_ret | apply preserves_throw | apply preserves_lift
    | apply preserves_raiseFault
    | match goal with |- preserves _ (match ?x with _ => _ end) => destruct x end
    | (intros ?; reflexivity) ].
Qed.

End ConfigurationResolver.

(** ** Period key fetcher *)

Section PeriodKeyFetcher.

Context {dates : DateFns} {env : Collaborators}.

Lemma fetchPeriod_result p w :
  fst (fetchPeriod p w) =
  Returned match retrieveDiagnosisKeys p with
           | Ok keysFileUrl => [(keysFileUrl, p)]
           | Rejects _ => []
           end.
Proof.
  unfold fetchPeriod. unfold_task. simpl.
  destruct (retrieveDiagnosisKeys p); reflexivity.
Qed.

Lemma fetchLoop_yields runningPeriod lastCheckedPeriod :
  forall w, exists yielded,
    fst (fetchLoop runningPeriod lastCheckedPeriod w) = Returned yielded
    /\ (forall keysFileUrl period,
          In (keysFileUrl, period) yielded <->
          lastCheckedPeriod < period <= runningPeriod
          /\ retrieveDiagnosisKeys period = Ok keysFileUrl)
    /\ StronglySorted mostRecentFirst yielded.
Proof.
  funelim (fetchLoop runningPeriod lastCheckedPeriod); intros w.
  - unfold bind at 1.
    pose proof (fetchPeriod_result runningPeriod w) as Hp.
    destruct (fetchPeriod runningPeriod w) as [[ys|e] w1]; simpl in Hp; [|discriminate].
    injection Hp as Hys.
    match goal with
    | IH : list _ -> World -> forall w, exists _, _ |- _ =>
        destruct (IH [] w w1) as (rest & Hr & Hin & Hs)
    end.
    unfold bind, ret.
    destruct (fetchLoop (runningPeriod - 1) lastCheckedPeriod w1) as [[rest'|e] w2];
      simpl in Hr; [|discriminate].
    injection Hr as ->. exists (ys ++ rest). split; [reflexivity|]. split.
    + intros u p. rewrite in_app_iff, Hin. subst ys.
      destruct (retrieveDiagnosisKeys runningPeriod) as [url|r] eqn:E; simpl.
      * split.
        -- intros [[[= <- <-]|[]]|[Hp Hu]]; [split; [lia|assumption] | split; [lia|assumption]].
        -- intros [Hp Hu]. destruct (Z.eq_dec p runningPeriod) as [->|Hne].
           ++ left. left. congruence.
           ++ right. split; [lia|assumption].
      * split.
        -- intros [[]|[Hp Hu]]. split; [lia|assumption].
        -- intros [Hp Hu]. right. split; [|assumption].
           destruct (Z.eq_dec p runningPeriod) as [->|Hne]; [congruence|lia].
    + subst ys. destruct (retrieveDiagnosisKeys runningPeriod) as [url|r]; simpl; [|assumption].
      constructor; [assumption|].
      rewrite Forall_forall. intros [u p] Hi. apply Hin in Hi.
      unfold mostRecentFirst; simpl. lia.
  - exists []. split; [reflexivity|]. split; [|constructor].
    intros u p. simpl. split; [intros []|intros [Hp _]; lia].
Qed.

(** C6, as the code decides it. Drained, the generator never throws and yields its pairs most
    recent period first.  Without a usable checkpoint it makes one request,
    for batch 0, and labels what it gets with the current period.  With a
    checkpoint [n] it yields exactly the periods above
    [max (n - 1) (current - 14)], up to the current one, whose request
    succeeded: a rejected request is skipped and the older periods are
    still asked for.  Whatever the number in the checkpoint, no period at
    or below that bound is yielded (the current period not being
    negative). *)
Theorem keysSinceLastFetch_yields _lastCheckedPeriod w :
  exists yielded,
    result (keysSinceLastFetch _lastCheckedPeriod) w = Returned yielded
    /\ StronglySorted mostRecentFirst yielded
    /\ (truthy _lastCheckedPeriod = false ->
        yielded =
          match retrieveDiagnosisKeys 0 with
          | Ok keysFileUrl =>
              [(keysFileUrl, periodSinceEpoch (clock (ticks w)) HOURS_PER_PERIOD)]
          | Rejects _ => []
          end
        /\ filter isRetrieveCall (trace (exec (keysSinceLastFetch _lastCheckedPeriod) w)) =
           Call_retrieveDiagnosisKeys 0 :: filter isRetrieveCall (trace w))
    /\ (forall n, _lastCheckedPeriod = PNumber n -> n <> 0 ->
        forall keysFileUrl period,
          In (keysFileUrl, period) yielded <->
          Z.max (n - 1)
                (periodSinceEpoch (clock (ticks w)) HOURS_PER_PERIOD
                 - EXPOSURE_NOTIFICATION_CYCLE) < period
            <= periodSinceEpoch (clock (ticks w)) HOURS_PER_PERIOD
          /\ retrieveDiagnosisKeys period = Ok keysFileUrl)
    /\ (forall n, _lastCheckedPeriod = PNumber n ->
        0 <= periodSinceEpoch (clock (ticks w)) HOURS_PER_PERIOD ->
        forall keysFileUrl period,
          In (keysFileUrl, period) yielded ->
          Z.max (n - 1)
                (periodSinceEpoch (clock (ticks w)) HOURS_PER_PERIOD
                 - EXPOSURE_NOTIFICATION_CYCLE) < period
            <= periodSinceEpoch (clock (ticks w)) HOURS_PER_PERIOD).
Proof.
  unfold keysSinceLastFetch, result, exec, bind at 1, getCurrentDate.
  destruct (truthy _lastCheckedPeriod) eqn:Ht; simpl negb; cbv iota.
  - destruct (toNumber _lastCheckedPeriod) as [m|] eqn:Hn.
    + destruct (fetchLoop_yields
                  (periodSinceEpoch (clock (ticks w)) HOURS_PER_PERIOD)
                  (Z.max (m - 1)
                     (periodSinceEpoch (clock (ticks w)) HOURS_PER_PERIOD
                      - EXPOSURE_NOTIFICATION_CYCLE))
                  (tick w)) as (yielded & Hr & Hin & Hs).
      exists yielded. split; [exact Hr|]. split; [exact Hs|].
      split; [discriminate|]. split.
      * intros n -> Hnz. simpl in Hn. injection Hn as <-. exact Hin.
      * intros n -> _ u p Hi. simpl in Hn. injection Hn as <-. now apply Hin in Hi.
    + exists []. split; [reflexivity|]. split; [constructor|].
      split; [discriminate|]. split; [intros n ->; discriminate|].
      intros n _ _ u p [].
  - exists match retrieveDiagnosisKeys 0 with
           | Ok keysFileUrl =>
               [(keysFileUrl, periodSinceEpoch (clock (ticks w)) HOURS_PER_PERIOD)]
           | Rejects _ => []
           end.
    assert (Hzero : forall n, _lastCheckedPeriod = PNumber n -> n = 0).
    { intros n ->. simpl in Ht. now apply negb_false_iff, Z.eqb_eq in Ht. }
    unfold_task. simpl.
    destruct (retrieveDiagnosisKeys 0) as [url|r]; simpl.
    + split; [reflexivity|]. split; [repeat constructor|].
      split; [intros _; split; reflexivity|]. split.
      * intros n Hv Hnz. apply Hzero in Hv. contradiction.
      * intros n Hv Hpos u p [[= <- <-]|[]]. apply Hzero in Hv. subst n.
        unfold EXPOSURE_NOTIFICATION_CYCLE, HOURS_PER_PERIOD in *. lia.
    + split; [reflexivity|]. split; [constructor|].
      split; [intros _; split; reflexivity|]. split.
      * intros n Hv Hnz. apply Hzero in Hv. contradiction.
      * intros n _ _ u p [].
Qed.

End PeriodKeyFetcher.

(** ** Status state machine *)

Section StatusStateMachine.

Context {dates : DateFns} {env : Collaborators}.

Lemma finalize_runs status lastCheckedPeriod w :
  finalize status lastCheckedPeriod w =
  (Returned tt,
   let s :=
     spread (exposureStatus w)
       (mkPartial (p_type status) (p_summary status) (p_notificationSent status)
          (p_needsSubmission status) (p_submissionLastCompletedAt status)
          (p_uploadReminderLastSentAt status) (p_cycleStartsAt status)
          (p_cycleEndsAt status)
          (Some (mkLastChecked (clock (ticks w))
                   match lastCheckedPeriod with
                   | PUndefined =>
                       jsOr (jsOr (periodOf (p_lastChecked status))
                                  (periodOf (lastChecked (exposureStatus w))))
                            (PNumber 0)
                   | _ => lastCheckedPeriod
                   end))) in
   let w' := set_exposureStatus s (tick w) in
   match storage_setItem_fault with
   | None => set_storage_exposureStatus s w'
   | Some _ => w'
   end).
Proof. reflexivity. Qed.

Lemma finalize_status status lastCheckedPeriod w :
  exposureStatus (snd (finalize status lastCheckedPeriod w)) =
  spread (exposureStatus w)
    (mkPartial (p_type status) (p_summary status) (p_notificationSent status)
       (p_needsSubmission status) (p_submissionLastCompletedAt status)
       (p_uploadReminderLastSentAt status) (p_cycleStartsAt status)
       (p_cycleEndsAt status)
       (Some (mkLastChecked (clock (ticks w))
                match lastCheckedPeriod with
                | PUndefined =>
                    jsOr (jsOr (periodOf (p_lastChecked status))
                               (periodOf (lastChecked (exposureStatus w))))
                         (PNumber 0)
                | _ => lastCheckedPeriod
                end))).
Proof.
  rewrite finalize_runs. cbv zeta. destruct storage_setItem_fault; reflexivity.
Qed.

Lemma setToMonitoring_runs w :
  fst (setToMonitoring w) = Returned tt
  /\ exposureStatus (snd (setToMonitoring w)) =
     spread (exposureStatus w)
       (mkPartial (Some Monitoring) None None None None None None None
          (Some (mkLastChecked (clock (ticks w))
                   (jsOr (periodOf (lastChecked (exposureStatus w))) (PNumber 0))))).
Proof.
  unfold setToMonitoring. rewrite finalize_runs. simpl.
  split; [reflexivity|]. destruct storage_setItem_fault; reflexivity.
Qed.

(** C3. [setToExposed] returns and leaves the status [Exposed]; when the
    status it finds is already [Exposed], the summary on record is kept and
    the incoming one is not written over it; the incoming summary is stored
    only when the status it finds is not [Exposed]. *)
Theorem setToExposed_keeps_active_summary nextSummary lastCheckedPeriod w :
  result (setToExposed nextSummary lastCheckedPeriod) w = Returned tt
  /\ type (exposureStatus (exec (setToExposed nextSummary lastCheckedPeriod) w)) = Exposed
  /\ summary (exposureStatus (exec (setToExposed nextSummary lastCheckedPeriod) w)) =
     match type (exposureStatus w) with
     | Exposed => summary (exposureStatus w)
     | _ => Some nextSummary
     end.
Proof.
  unfold setToExposed, selectExposureSummary, asyncStorage_setItem_unawaited.
  unfold_task. simpl.
  destruct asyncStorage_setItem_fault; simpl;
    destruct (type (exposureStatus w)) eqn:E; simpl; rewrite ?finalize_runs; simpl;
    destruct storage_setItem_fault; simpl; repeat split; try reflexivity;
    destruct (summary (exposureStatus w)); reflexivity.
Qed.

(** The [Diagnosed] case of [updateExposure], cycle over. *)
Lemma updateExposure_on_ended_cycle w cycleEnd :
  type (exposureStatus w) = Diagnosed ->
  cycleEndsAt (exposureStatus w) = Some cycleEnd ->
  daysBetween (clock (ticks w)) cycleEnd <= 0 ->
  updateExposure w = setToMonitoring (tick w).
Proof.
  intros Ht Hc Hd. apply Z.leb_le in Hd.
  unfold updateExposure. unfold_task. simpl. rewrite Ht, Hc, Hd. reflexivity.
Qed.

(** The [Exposed] case of [updateExposure], with the durable timestamp read. *)
Lemma updateExposure_on_exposed w stored :
  type (exposureStatus w) = Exposed ->
  asyncStorage_getItem_fault = None ->
  asyncStorage_lastExposureTimestamp w = Some stored ->
  exposureStatus (snd (updateExposure w)) =
  if EXPOSURE_NOTIFICATION_CYCLE <=? daysBetween stored (clock (ticks w))
  then exposureStatus (snd (setToMonitoring (tick w)))
  else exposureStatus w.
Proof.
  intros Ht Hf Hs.
  unfold updateExposure, getStoredLastExposureTimestamp, asyncStorage_getItem.
  unfold_task. simpl. rewrite Ht, Hf. simpl. rewrite Ht. simpl. rewrite Hs.
  destruct (EXPOSURE_NOTIFICATION_CYCLE <=? daysBetween stored (clock (ticks w)));
    reflexivity.
Qed.



End StatusStateMachine.

(** ** What the parts of a check leave alone *)

Section Frames.

Context {dates : DateFns} {env : Collaborators}.
Context {B : Type} (observe : World -> B) (quiet : Bookkeeping observe).

Lemma preserves_getCurrentDate : preserves observe getCurrentDate.
Proof. intros w. apply (observe_tick _ quiet). Qed.

Lemma preserves_call {A} e (answer : Answer A) :
  isPendingSummaryCall e = false -> preserves observe (call e answer).
Proof. intros He w. now apply (observe_record _ quiet). Qed.

Lemma preserves_captureException label error :
  preserves observe (captureException label error).
Proof. intros w. now apply (observe_record _ quiet). Qed.

#[local] Hint Resolve preserves_getCurrentDate preserves_captureException : frames.
#[local] Hint Extern 1 (preserves _ (call _ _)) =>
  apply preserves_call; reflexivity : frames.

Lemma preserves_storage_getItem_configuration :
  preserves observe storage_getItem_configuration.
Proof.
  unfold storage_getItem_configuration.
  apply preserves_bind; [apply preserves_raiseFault | intros _ w; reflexivity].
Qed.

Lemma preserves_storage_setItem_configuration serialized :
  preserves observe (storage_setItem_configuration serialized).
Proof.
  unfold storage_setItem_configuration.
  apply preserves_bind; [apply preserves_raiseFault|].
  intros _ w. apply (observe_configuration _ quiet).
Qed.

Lemma preserves_getExposureConfiguration : preserves observe getExposureConfiguration.
Proof.
  unfold getExposureConfiguration, getAlternateExposureConfiguration.
  pose proof preserves_storage_getItem_configuration.
  pose proof preserves_storage_setItem_configuration.
  frame.
Qed.

Lemma preserves_fetchPeriod p : preserves observe (fetchPeriod p).
Proof. unfold fetchPeriod. frame. Qed.

Lemma preserves_fetchLoop runningPeriod lastCheckedPeriod :
  preserves observe (fetchLoop runningPeriod lastCheckedPeriod).
Proof.
  funelim (fetchLoop runningPeriod lastCheckedPeriod).
  - pose proof (preserves_fetchPeriod runningPeriod).
    match goal with
    | IH : list _ -> World -> preserves _ _ |- _ =>
        pose proof (IH [] (worldOf (monitoringStatus None)))
    end.
    frame.
  - frame.
Qed.

Lemma preserves_keysSinceLastFetch v : preserves observe (keysSinceLastFetch v).
Proof.
  unfold keysSinceLastFetch. pose proof preserves_fetchLoop. frame.
Qed.

Lemma preserves_getKeys lastChecked : preserves observe (getKeys lastChecked).
Proof.
  unfold getKeys. pose proof preserves_keysSinceLastFetch. frame.
Qed.

(** The parts that write the status, for an observation that a
    [finalize] without a period of its own leaves alone. *)

Hypothesis finalize_quiet :
  forall status, p_lastChecked status = None ->
                 preserves observe (finalize status PUndefined).

Lemma preserves_setToMonitoring : preserves observe setToMonitoring.
Proof. unfold setToMonitoring. now apply finalize_quiet. Qed.

Lemma preserves_calculateNeedsSubmission : preserves observe calculateNeedsSubmission.
Proof. unfold calculateNeedsSubmission. frame. Qed.

Lemma preserves_asyncStorage_getItem : preserves observe asyncStorage_getItem.
Proof.
  unfold asyncStorage_getItem.
  apply preserves_bind; [apply preserves_raiseFault | intros _ w; reflexivity].
Qed.

Lemma preserves_asyncStorage_setItem t : preserves observe (asyncStorage_setItem t).
Proof.
  unfold asyncStorage_setItem.
  apply preserves_bind; [apply preserves_raiseFault|].
  intros _ w. apply (observe_timestamp _ quiet).
Qed.

Lemma preserves_getStoredLastExposureTimestamp :
  preserves observe getStoredLastExposureTimestamp.
Proof.
  unfold getStoredLastExposureTimestamp.
  pose proof preserves_asyncStorage_getItem.
  pose proof preserves_asyncStorage_setItem.
  frame.
Qed.

Lemma preserves_updateExposure : preserves observe updateExposure.
Proof.
  unfold updateExposure.
  pose proof preserves_setToMonitoring.
  pose proof preserves_calculateNeedsSubmission.
  pose proof preserves_getStoredLastExposureTimestamp.
  frame.
Qed.

(** What follows the request for pending summaries in the [try] block. *)
Lemma getSummaries_try_after_request exposureConfiguration today w :
  observe (snd (getSummaries_try exposureConfiguration today w)) =
  observe (record Call_getPendingExposureSummary w).
Proof.
  unfold getSummaries_try, bind at 1, call at 1.
  destruct (settled_answer getPendingExposureSummary) as [pending|e]; [|reflexivity].
  match goal with
  | |- observe (snd (?m _)) = _ => enough (H : preserves observe m) by apply H
  end.
  pose proof preserves_updateExposure. pose proof preserves_getKeys.
  frame.
Qed.

End Frames.

(** ** Runs as sequences of elementary updates *)

Section Respecting.

Context {dates : DateFns} {env : Collaborators}.
Variable R : World -> World -> Prop.
Hypothesis R_refl : forall w, R w w.
Hypothesis R_trans : forall w1 w2 w3, R w1 w2 -> R w2 w3 -> R w1 w3.

Lemma respects_ret {A} (a : A) : respects R (ret a).
Proof. intros w. apply R_refl. Qed.

Lemma respects_throw {A} e : respects R (@throw A e).
Proof. intros w. apply R_refl. Qed.

Lemma respects_lift {A} (answer : Answer A) : respects R (lift answer).
Proof. intros w. apply R_refl. Qed.

Lemma respects_raiseFault fault : respects R (raiseFault fault).
Proof. intros w. destruct fault; apply R_refl. Qed.

Lemma respects_getStatus : respects R getStatus.
Proof. intros w. apply R_refl. Qed.

Lemma respects_bind {A C} (m : Task A) (k : A -> Task C) :
  respects R m -> (forall a, respects R (k a)) -> respects R (bind m k).
Proof.
  intros Hm Hk w. unfold bind. specialize (Hm w).
  destruct (m w) as [[a|e] w']; simpl in *; [|assumption].
  eapply R_trans; [exact Hm | apply Hk].
Qed.

Lemma respects_tryCatch {A} (m : Task A) (h : Error -> Task A) :
  respects R m -> (forall e, respects R (h e)) -> respects R (tryCatch m h).
Proof.
  intros Hm Hh w. unfold tryCatch. specialize (Hm w).
  destruct (m w) as [[a|e] w']; simpl in *; [assumption|].
  eapply R_trans; [exact Hm | apply Hh].
Qed.

End Respecting.

#[global] Hint Extern 2 (respects _ (match ?x with _ => _ end)) => destruct x : keeps.
#[global] Hint Extern 2 (respects _ (if ?x then _ else _)) => destruct x : keeps.
#[global] Hint Extern 2 (respects _ (let '(_, _) := ?x in _)) => destruct x : keeps.

(** A relation that every elementary update of the state respects is
    respected by every run of the parts of a check. *)
Section Steps.

Context {dates : DateFns} {env : Collaborators}.
Variable R : World -> World -> Prop.
Hypothesis R_refl : forall w, R w w.
Hypothesis R_trans : forall w1 w2 w3, R w1 w2 -> R w2 w3 -> R w1 w3.
Hypothesis R_tick : forall w, R w (tick w).
Hypothesis R_record : forall e w, R w (record e w).
Hypothesis R_status : forall s w, R w (set_exposureStatus s w).
Hypothesis R_stored : forall s w, R w (set_storage_exposureStatus s w).
Hypothesis R_configuration : forall c w, R w (set_storage_exposureConfiguration c w).
Hypothesis R_timestamp : forall t w, R w (set_asyncStorage_lastExposureTimestamp t w).

Lemma steps_ret {A} (a : A) : respects R (ret a).
Proof. now apply respects_ret. Qed.

Lemma steps_throw {A} e : respects R (@throw A e).
Proof. now apply respects_throw. Qed.

Lemma steps_lift {A} (answer : Answer A) : respects R (lift answer).
Proof. now apply respects_lift. Qed.

Lemma steps_raiseFault fault : respects R (raiseFault fault).
Proof. now apply respects_raiseFault. Qed.

Lemma steps_getStatus : respects R getStatus.
Proof. now apply respects_getStatus. Qed.

Lemma steps_bind {A C} (m : Task A) (k : A -> Task C) :
  respects R m -> (forall a, respects R (k a)) -> respects R (bind m k).
Proof. now apply respects_bind. Qed.

Lemma steps_tryCatch {A} (m : Task A) (h : Error -> Task A) :
  respects R m -> (forall e, respects R (h e)) -> respects R (tryCatch m h).
Proof. now apply respects_tryCatch. Qed.

Lemma steps_getCurrentDate : respects R getCurrentDate.
Proof. intros w. apply R_tick. Qed.

Lemma steps_call {A} e (answer : Answer A) : respects R (call e answer).
Proof. intros w. apply R_record. Qed.

Lemma steps_captureException label error : respects R (captureException label error).
Proof. intros w. apply R_record. Qed.

Lemma steps_append p : respects R (append p).
Proof.
  intros w. unfold append. simpl. destruct storage_setItem_fault.
  - apply R_status.
  - eapply R_trans; [apply R_status | apply R_stored].
Qed.

#[local] Hint Resolve steps_ret steps_throw steps_lift steps_raiseFault steps_getStatus
  steps_bind steps_tryCatch steps_getCurrentDate steps_call steps_captureException
  steps_append : keeps.

Lemma steps_finalize status lastCheckedPeriod :
  respects R (finalize status lastCheckedPeriod).
Proof. unfold finalize. keep. Qed.

Lemma steps_asyncStorage_getItem : respects R asyncStorage_getItem.
Proof.
  unfold asyncStorage_getItem. apply steps_bind; [keep|]. intros _ w. apply R_refl.
Qed.

Lemma steps_asyncStorage_setItem t : respects R (asyncStorage_setItem t).
Proof.
  unfold asyncStorage_setItem. apply steps_bind; [keep|]. intros _ w.
  apply R_timestamp.
Qed.

#[local] Hint Resolve steps_finalize steps_asyncStorage_getItem
  steps_asyncStorage_setItem : keeps.

Lemma steps_updateExposure : respects R updateExposure.
Proof.
  unfold updateExposure, setToMonitoring, calculateNeedsSubmission,
    getStoredLastExposureTimestamp.
  keep.
Qed.

Lemma steps_fetchPeriod runningPeriod : respects R (fetchPeriod runningPeriod).
Proof. unfold fetchPeriod. keep. Qed.

Lemma steps_fetchLoop runningPeriod lastCheckedPeriod :
  respects R (fetchLoop runningPeriod lastCheckedPeriod).
Proof.
  funelim (fetchLoop runningPeriod lastCheckedPeriod).
  - pose proof (steps_fetchPeriod runningPeriod).
    match goal with
    | IH : list _ -> World -> respects _ _ |- _ =>
        pose proof (IH [] (worldOf (monitoringStatus None)))
    end.
    keep.
  - keep.
Qed.

Lemma steps_getKeys lastChecked : respects R (getKeys lastChecked).
Proof.
  unfold getKeys, keysSinceLastFetch. pose proof steps_fetchLoop. keep.
Qed.

Lemma steps_getSummaries_try exposureConfiguration today :
  respects R (getSummaries_try exposureConfiguration today).
Proof.
  unfold getSummaries_try. pose proof steps_updateExposure. pose proof steps_getKeys.
  keep.
Qed.

End Steps.

(** The clock is only read forward. *)
Lemma getSummaries_try_ticks {dates : DateFns} {env : Collaborators}
    exposureConfiguration today w :
  (ticks w <= ticks (snd (getSummaries_try exposureConfiguration today w)))%nat.
Proof.
  apply (steps_getSummaries_try (fun w w' => (ticks w <= ticks w')%nat));
    intros; simpl; lia.
Qed.

Lemma getExposureConfiguration_reads_no_clock {dates : DateFns} {env : Collaborators} w :
  ticks (snd (getExposureConfiguration w)) = ticks w.
Proof.
  unfold getExposureConfiguration, getAlternateExposureConfiguration,
    storage_setItem_configuration, storage_getItem_configuration.
  unfold_task. simpl.
  destruct backend_getExposureConfiguration as [remote|r]; simpl.
  - destruct (validateExposureConfiguration remote) as [[]|r]; simpl;
      [destruct storage_setItem_fault; simpl; [|reflexivity]|];
      destruct storage_getItem_fault; simpl; try reflexivity;
      destruct (storage_exposureConfiguration w) as [[|c str]|]; simpl;
      try reflexivity; destruct (JSON_parse_configuration (String c str)); reflexivity.
  - destruct storage_getItem_fault; simpl; try reflexivity;
      destruct (storage_exposureConfiguration w) as [[|c str]|]; simpl;
      try reflexivity; destruct (JSON_parse_configuration (String c str)); reflexivity.
Qed.


(** ** The check as a whole *)

Section ExposureCheck.

Context {dates : DateFns} {env : Collaborators}.

Lemma bookkeeping_exposureStatus : Bookkeeping exposureStatus.
Proof. split; reflexivity. Qed.

Lemma bookkeeping_checkpoint : Bookkeeping checkpoint.
Proof. split; reflexivity. Qed.

Lemma jsOr_zero_idempotent v :
  jsOr (jsOr v (PNumber 0)) (PNumber 0) = jsOr v (PNumber 0).
Proof. unfold jsOr. destruct (truthy v) eqn:E; [rewrite E|]; reflexivity. Qed.

Lemma finalize_keeps_checkpoint status :
  p_lastChecked status = None -> preserves checkpoint (finalize status PUndefined).
Proof.
  intros Hp w. rewrite finalize_runs. unfold checkpoint. rewrite Hp. simpl.
  destruct storage_setItem_fault; simpl; apply jsOr_zero_idempotent.
Qed.

(** The fetcher reads an absent or falsy checkpoint as it reads 0. *)
Lemma keysSinceLastFetch_reads_checkpoint v :
  keysSinceLastFetch (jsOr v (PNumber 0)) = keysSinceLastFetch v.
Proof.
  unfold jsOr. destruct (truthy v) eqn:E; [reflexivity|].
  unfold keysSinceLastFetch. rewrite E. reflexivity.
Qed.

(** The check, once the [try] block has thrown. *)
Lemma performExposureCheck_after_throw w e w2 :
  getSummaries_try (resolvedConfiguration w)
    (clock (ticks (snd (getExposureConfiguration w))))
    (tick (snd (getExposureConfiguration w))) = (Thrown e, w2) ->
  performExposureCheck w =
  finalize emptyPartial PUndefined (record (Captured "getSummaries" e) w2).
Proof.
  intros Ht. unfold performExposureCheck, getSummariesFromEnFramework.
  unfold bind at 1. pose proof (getExposureConfiguration_runs w) as Hc.
  destruct (getExposureConfiguration w) as [[cfg|e0] w1]; simpl in Hc; [|discriminate].
  injection Hc as ->. simpl in Ht.
  unfold bind at 1. unfold bind at 1. unfold getCurrentDate at 1.
  unfold tryCatch at 1. rewrite Ht.
  unfold bind, captureException, ret. simpl. reflexivity.
Qed.

(** C2, as the code decides it. When the [try] block of the check throws,
    the check itself still returns, and [finalize] runs: [lastChecked] is
    stamped anew, with the time [finalize] reads from the clock, which is
    the last reading of the check and a later one than any made before the
    check, and with the period of the checkpoint the status had (an absent
    or falsy period is written as 0).  When the exception is the rejection
    of the request for pending summaries, that reading is the second of the
    check and every other field of the status is as it was. *)
Theorem performExposureCheck_failed_pipeline w :
  pipelineThrows w ->
  result performExposureCheck w = Returned tt
  /\ (exists reading,
        ticks (exec performExposureCheck w) = S reading
        /\ (ticks w < reading)%nat
        /\ lastChecked (exposureStatus (exec performExposureCheck w)) =
           Some (mkLastChecked (clock reading) (checkpoint w)))
  /\ keysSinceLastFetch
       (periodOf (lastChecked (exposureStatus (exec performExposureCheck w))))
     = keysSinceLastFetch (periodOf (lastChecked (exposureStatus w)))
  /\ (forall r, getPendingExposureSummary = Rejects r ->
      exposureStatus (exec performExposureCheck w) =
      spread (exposureStatus w)
        (mkPartial None None None None None None None None
           (Some (mkLastChecked (clock (S (ticks w))) (checkpoint w))))).
Proof.
  intros [e He]. cbv zeta in He.
  pose proof (getSummaries_try_ticks (resolvedConfiguration w)
                (clock (ticks (snd (getExposureConfiguration w))))
                (tick (snd (getExposureConfiguration w)))) as Hticks.
  pose proof (getExposureConfiguration_reads_no_clock w) as Hconf.
  destruct (getSummaries_try (resolvedConfiguration w)
              (clock (ticks (snd (getExposureConfiguration w))))
              (tick (snd (getExposureConfiguration w)))) as [o w2] eqn:Ht.
  simpl in He, Hticks. subst o.
  unfold result, exec. rewrite (performExposureCheck_after_throw _ _ _ Ht).
  assert (Hcp : checkpoint w2 = checkpoint w).
  { replace w2 with (snd (getSummaries_try (resolvedConfiguration w)
              (clock (ticks (snd (getExposureConfiguration w))))
              (tick (snd (getExposureConfiguration w))))) by now rewrite Ht.
    rewrite (getSummaries_try_after_request checkpoint bookkeeping_checkpoint
               finalize_keeps_checkpoint).
    apply (preserves_getExposureConfiguration checkpoint bookkeeping_checkpoint). }
  assert (Hfinal :
    exposureStatus
      (snd (finalize emptyPartial PUndefined (record (Captured "getSummaries" e) w2)))
    = spread (exposureStatus w2)
        (mkPartial None None None None None None None None
           (Some (mkLastChecked (clock (ticks w2)) (checkpoint w))))).
  { rewrite finalize_status, <- Hcp. reflexivity. }
  assert (Hread :
    ticks (snd (finalize emptyPartial PUndefined
                  (record (Captured "getSummaries" e) w2))) = S (ticks w2)).
  { rewrite finalize_runs. cbv zeta. destruct storage_setItem_fault; reflexivity. }
  rewrite Hfinal. split; [reflexivity|]. split; [|split].
  - exists (ticks w2). split; [exact Hread|]. split; [|reflexivity].
    rewrite Hconf in Hticks. lia.
  - apply keysSinceLastFetch_reads_checkpoint.
  - intros r Hr.
    unfold getSummaries_try, bind at 1, call at 1 in Ht. rewrite Hr in Ht.
    simpl in Ht. injection Ht as _ <-. simpl. rewrite Hconf.
    now rewrite (preserves_getExposureConfiguration
                   exposureStatus bookkeeping_exposureStatus w).
Qed.

End ExposureCheck.

Section CheckAfterMaintenance.

Context {dates : DateFns} {env : Collaborators}.

#[local] Hint Extern 8 (preserves _ _) => (intros ?; reflexivity) : frames.

Lemma getExposureConfiguration_keeps_ticks : preserves ticks getExposureConfiguration.
Proof.
  unfold getExposureConfiguration, getAlternateExposureConfiguration,
    storage_setItem_configuration, storage_getItem_configuration.
  frame.
Qed.

Lemma finalize_keeps_type lastCheckedPeriod w :
  type (exposureStatus (snd (finalize emptyPartial lastCheckedPeriod w))) =
  type (exposureStatus w).
Proof.
  rewrite finalize_runs. cbv zeta. destruct storage_setItem_fault; reflexivity.
Qed.

Lemma setToExposed_type nextSummary lastCheckedPeriod w :
  type (exposureStatus (snd (setToExposed nextSummary lastCheckedPeriod w))) = Exposed.
Proof.
  unfold setToExposed, selectExposureSummary, asyncStorage_setItem_unawaited.
  unfold_task. simpl.
  destruct asyncStorage_setItem_fault; simpl;
    destruct (type (exposureStatus w)); simpl; rewrite ?finalize_runs; simpl;
    destruct storage_setItem_fault; reflexivity.
Qed.

Lemma getSummariesFromEnFramework_returns exposureConfiguration w :
  exists summaries lastCheckedPeriod,
    fst (getSummariesFromEnFramework exposureConfiguration w)
    = Returned (summaries, lastCheckedPeriod).
Proof.
  unfold getSummariesFromEnFramework, bind at 1, getCurrentDate, tryCatch.
  destruct (getSummaries_try exposureConfiguration (clock (ticks w)) (tick w))
    as [[[summaries lcp]|e] w'].
  - now exists summaries, lcp.
  - now exists [], PNull.
Qed.

(** The end of the check: the status becomes [Exposed], or keeps the type
    the evaluator left. *)
Lemma performExposureCheck_type w :
  type (exposureStatus (snd (performExposureCheck w))) = Exposed
  \/ type (exposureStatus (snd (performExposureCheck w))) =
     type (exposureStatus
             (snd (getSummariesFromEnFramework (resolvedConfiguration w)
                     (snd (getExposureConfiguration w))))).
Proof.
  unfold performExposureCheck, bind.
  pose proof (getExposureConfiguration_runs w) as Hc.
  destruct (getExposureConfiguration w) as [[cfg|e0] w0]; simpl in Hc; [|discriminate].
  injection Hc as <-. cbn [snd].
  destruct (getSummariesFromEnFramework_returns cfg w0) as (summaries & lcp & Hr).
  destruct (getSummariesFromEnFramework cfg w0) as [o w5]. simpl in Hr. subst o.
  cbn [snd].
  destruct (summariesContainingExposures Platform_OS
              (minimumExposureDurationMinutes cfg) summaries) as [|first more].
  - right. apply finalize_keeps_type.
  - left. apply setToExposed_type.
Qed.

(** Without pending summaries the evaluator runs the maintenance step, and
    nothing after it touches the status. *)
Lemma getSummariesFromEnFramework_without_pending exposureConfiguration w pending :
  getPendingExposureSummary = Ok pending ->
  (pending = None \/ pending = Some []) ->
  exposureStatus (snd (getSummariesFromEnFramework exposureConfiguration w)) =
  exposureStatus
    (snd (updateExposure (record Call_getPendingExposureSummary (tick w)))).
Proof.
  intros Hp Hnone.
  unfold getSummariesFromEnFramework, bind at 1, getCurrentDate.
  rewrite (observe_tryCatch exposureStatus) by frame.
  unfold getSummaries_try, bind at 1, call at 1. rewrite Hp. cbn [settled_answer].
  assert (Hrest :
    exposureStatus
      (snd ((currentStatus <- getStatus ;;
             updateExposure ;;
             keysAndLastChecked <- getKeys (lastChecked currentStatus) ;;
             summaries <-
               call (Call_detectExposure (fst keysAndLastChecked))
                    (detectExposure exposureConfiguration (fst keysAndLastChecked)) ;;
             ret (summaries,
                  match snd keysAndLastChecked with
                  | Some lastChecked => objectOf lastChecked
                  | None => PUndefined
                  end))
              (record Call_getPendingExposureSummary (tick w)))) =
    exposureStatus
      (snd (updateExposure (record Call_getPendingExposureSummary (tick w))))).
  { unfold bind at 1, getStatus at 1.
    apply (observe_bind exposureStatus). intros _.
    apply preserves_bind; [apply (preserves_getKeys _ bookkeeping_exposureStatus)|].
    intros kl. frame. }
  destruct Hnone as [-> | ->]; exact Hrest.
Qed.

(** With pending summaries, or when the request for them is rejected, the
    maintenance step does not run: the evaluator leaves the status alone. *)
Lemma getSummariesFromEnFramework_skips_maintenance exposureConfiguration w :
  match getPendingExposureSummary with
  | Ok (Some (_ :: _)) | Rejects _ => True
  | _ => False
  end ->
  exposureStatus (snd (getSummariesFromEnFramework exposureConfiguration w)) =
  exposureStatus w.
Proof.
  intros Hp.
  unfold getSummariesFromEnFramework, bind at 1, getCurrentDate.
  rewrite (observe_tryCatch exposureStatus) by frame.
  unfold getSummaries_try, bind at 1, call at 1.
  destruct getPendingExposureSummary as [[[|first more]|]|r]; try contradiction;
    reflexivity.
Qed.

Lemma getExposureConfiguration_keeps_timestamp :
  preserves asyncStorage_lastExposureTimestamp getExposureConfiguration.
Proof.
  unfold getExposureConfiguration, getAlternateExposureConfiguration,
    storage_setItem_configuration, storage_getItem_configuration.
  frame.
Qed.

(** C1 over the whole check: with no pending summaries and the cycle over
    by the days of the device, the check ends in [Monitoring], or in
    [Exposed] when it detects a qualifying exposure. *)
Lemma performExposureCheck_ends_cycle w cycleEnd pending :
  type (exposureStatus w) = Diagnosed ->
  cycleEndsAt (exposureStatus w) = Some cycleEnd ->
  getPendingExposureSummary = Ok pending ->
  (pending = None \/ pending = Some []) ->
  daysBetween (clock (S (ticks w))) cycleEnd <= 0 ->
  type (exposureStatus (exec performExposureCheck w)) = Monitoring
  \/ type (exposureStatus (exec performExposureCheck w)) = Exposed.
Proof.
  intros Ht Hc Hp Hnone Hd. unfold exec.
  destruct (performExposureCheck_type w) as [H|H]; [right; exact H|left].
  rewrite H, (getSummariesFromEnFramework_without_pending _ _ pending Hp Hnone).
  set (w2 := record Call_getPendingExposureSummary
               (tick (snd (getExposureConfiguration w)))) in *.
  assert (Hs : exposureStatus w2 = exposureStatus w)
    by apply (preserves_getExposureConfiguration
                exposureStatus bookkeeping_exposureStatus w).
  assert (Hk : ticks w2 = S (ticks w))
    by (simpl; f_equal; apply getExposureConfiguration_keeps_ticks).
  rewrite (updateExposure_on_ended_cycle w2 cycleEnd);
    [| now rewrite Hs | now rewrite Hs | now rewrite Hk].
  destruct (setToMonitoring_runs (tick w2)) as [_ Hm]. rewrite Hm. reflexivity.
Qed.

(** C8 over the whole check: with no pending summaries, an [Exposed]
    status ends the check [Exposed], or [Monitoring] with the durable
    timestamp 14 or more days old. *)
Lemma performExposureCheck_ages_exposure_out w stored pending :
  type (exposureStatus w) = Exposed ->
  asyncStorage_getItem_fault = None ->
  asyncStorage_lastExposureTimestamp w = Some stored ->
  getPendingExposureSummary = Ok pending ->
  (pending = None \/ pending = Some []) ->
  type (exposureStatus (exec performExposureCheck w)) = Exposed
  \/ (type (exposureStatus (exec performExposureCheck w)) = Monitoring
      /\ EXPOSURE_NOTIFICATION_CYCLE <= daysBetween stored (clock (S (ticks w)))).
Proof.
  intros Ht Hf Hst Hp Hnone. unfold exec.
  destruct (performExposureCheck_type w) as [H|H]; [left; exact H|].
  rewrite (getSummariesFromEnFramework_without_pending _ _ pending Hp Hnone) in H.
  set (w2 := record Call_getPendingExposureSummary
               (tick (snd (getExposureConfiguration w)))) in *.
  assert (Hs : exposureStatus w2 = exposureStatus w)
    by apply (preserves_getExposureConfiguration
                exposureStatus bookkeeping_exposureStatus w).
  assert (Hk : ticks w2 = S (ticks w))
    by (simpl; f_equal; apply getExposureConfiguration_keeps_ticks).
  assert (Ha : asyncStorage_lastExposureTimestamp w2 = Some stored)
    by (rewrite <- Hst; apply getExposureConfiguration_keeps_timestamp).
  rewrite (updateExposure_on_exposed w2 stored) in H;
    [| now rewrite Hs | exact Hf | exact Ha].
  rewrite Hk in H.
  destruct (Z.leb_spec EXPOSURE_NOTIFICATION_CYCLE (daysBetween stored (clock (S (ticks w)))))
    as [Hle|Hlt].
  - right. split; [|exact Hle]. rewrite H.
    destruct (setToMonitoring_runs (tick w2)) as [_ Hm]. rewrite Hm. reflexivity.
  - left. rewrite H, Hs. exact Ht.
Qed.

End CheckAfterMaintenance.

(** ** Key submission *)

Section KeySubmission.

Context {dates : DateFns} {env : Collaborators}.

Lemma recordKeySubmission_runs w :
  recordKeySubmission w =
  match type (exposureStatus w) with
  | Diagnosed =>
      append (mkPartial None None None (Some false) (Some (clock (ticks w)))
                        None None None None) (tick w)
  | _ => (Returned tt, w)
  end.
Proof.
  unfold recordKeySubmission. unfold_task.
  destruct (type (exposureStatus w)); reflexivity.
Qed.

(** [fetchAndSubmitKeys], path by path. *)
Lemma fetchAndSubmitKeys_runs contagiousDateInfo w :
  fetchAndSubmitKeys contagiousDateInfo w =
  match secureStorage_get_fault with
  | Some r => (Thrown (Raised r), w)
  | None =>
      match secureStorage_submissionAuthKeys w with
      | None | Some EmptyString => (Thrown BadCertificate, w)
      | Some str =>
          match JSON_parse_submissionKeys str with
          | Rejects r => (Thrown (Raised r), w)
          | Ok auth =>
              let asked := record Call_getTemporaryExposureKeyHistory w in
              match getTemporaryExposureKeyHistory with
              | Rejects r =>
                  (Thrown CannotGetTEKs,
                   record (Captured "getTemporaryExposureKeyHistory" (Raised r)) asked)
              | Ok [] => recordKeySubmission asked
              | Ok keys =>
                  let reported := record (Call_reportDiagnosisKeys keys) asked in
                  match reportDiagnosisKeys auth keys contagiousDateInfo with
                  | Ok _ => recordKeySubmission reported
                  | Rejects r => (Thrown (Raised r), reported)
                  end
              end
          end
      end
  end.
Proof.
  unfold fetchAndSubmitKeys, secureStorage_get_submissionAuthKeys.
  unfold bind, raiseFault, throw, ret, lift, tryCatch, call, captureException,
    settled_answer.
  destruct secureStorage_get_fault; [reflexivity|].
  destruct (secureStorage_submissionAuthKeys w) as [[|c str]|]; try reflexivity.
  destruct (JSON_parse_submissionKeys (String c str)); [|reflexivity].
  destruct getTemporaryExposureKeyHistory as [[|k keys]|]; try reflexivity.
  destruct (reportDiagnosisKeys a (k :: keys) contagiousDateInfo); reflexivity.
Qed.

Lemma recordKeySubmission_returns w : fst (recordKeySubmission w) = Returned tt.
Proof.
  rewrite recordKeySubmission_runs. destruct (type (exposureStatus w)); reflexivity.
Qed.

Lemma recordKeySubmission_trace w : trace (snd (recordKeySubmission w)) = trace w.
Proof.
  rewrite recordKeySubmission_runs. unfold append.
  destruct (type (exposureStatus w)); try reflexivity.
  simpl. destruct storage_setItem_fault; reflexivity.
Qed.

Lemma recordKeySubmission_status w :
  match type (exposureStatus w) with
  | Diagnosed =>
      exposureStatus (snd (recordKeySubmission w)) =
      spread (exposureStatus w)
        (mkPartial None None None (Some false) (Some (clock (ticks w)))
                   None None None None)
  | _ => exposureStatus (snd (recordKeySubmission w)) = exposureStatus w
  end.
Proof.
  rewrite recordKeySubmission_runs. unfold append.
  destruct (type (exposureStatus w)); try reflexivity.
  simpl. destruct storage_setItem_fault; reflexivity.
Qed.

(** C9, as the code decides it. [fetchAndSubmitKeys] throws the
    bad-certificate error exactly when secure storage answers with no
    credential; it throws [cannotGetTEKsError] exactly when a credential is
    stored and parsed and the request for the key history is rejected; with
    an empty key history it returns without a call to
    [reportDiagnosisKeys]; and a run that returns has recorded completion
    ([needsSubmission] false, [submissionLastCompletedAt] stamped) when the
    status is [Diagnosed], and has left the status alone otherwise. *)
Theorem fetchAndSubmitKeys_outcomes contagiousDateInfo w :
  (result (fetchAndSubmitKeys contagiousDateInfo) w = Thrown BadCertificate <->
   secureStorage_get_fault = None
   /\ (secureStorage_submissionAuthKeys w = None
       \/ secureStorage_submissionAuthKeys w = Some EmptyString))
  /\ (result (fetchAndSubmitKeys contagiousDateInfo) w = Thrown CannotGetTEKs <->
      secureStorage_get_fault = None
      /\ exists str auth r,
           secureStorage_submissionAuthKeys w = Some str /\ str <> EmptyString
           /\ JSON_parse_submissionKeys str = Ok auth
           /\ getTemporaryExposureKeyHistory = Rejects r)
  /\ (forall str auth,
        secureStorage_get_fault = None ->
        secureStorage_submissionAuthKeys w = Some str -> str <> EmptyString ->
        JSON_parse_submissionKeys str = Ok auth ->
        getTemporaryExposureKeyHistory = Ok [] ->
        result (fetchAndSubmitKeys contagiousDateInfo) w = Returned tt
        /\ filter isReportCall (trace (exec (fetchAndSubmitKeys contagiousDateInfo) w))
           = filter isReportCall (trace w))
  /\ (result (fetchAndSubmitKeys contagiousDateInfo) w = Returned tt ->
      match type (exposureStatus w) with
      | Diagnosed =>
          exists completedAt,
            exposureStatus (exec (fetchAndSubmitKeys contagiousDateInfo) w) =
            spread (exposureStatus w)
              (mkPartial None None None (Some false) (Some completedAt)
                         None None None None)
      | _ =>
          exposureStatus (exec (fetchAndSubmitKeys contagiousDateInfo) w) =
          exposureStatus w
      end).
Proof.
  unfold result, exec. rewrite fetchAndSubmitKeys_runs. cbv zeta.
  destruct secureStorage_get_fault as [fault|] eqn:Hfault; [settle_paths|].
  destruct (secureStorage_submissionAuthKeys w) as [[|c str]|] eqn:Hs;
    [settle_paths; auto | | settle_paths; auto].
  destruct (JSON_parse_submissionKeys (String c str)) as [auth|r] eqn:Hp;
    [|settle_paths].
  destruct getTemporaryExposureKeyHistory as [[|k keys]|r] eqn:Hh.
  - pose proof (recordKeySubmission_returns (record Call_getTemporaryExposureKeyHistory w)) as Hr.
    pose proof (recordKeySubmission_trace (record Call_getTemporaryExposureKeyHistory w)) as Ht.
    pose proof (recordKeySubmission_status (record Call_getTemporaryExposureKeyHistory w)) as Hst.
    simpl in Hst, Ht. rewrite Hr, Ht.
    settle_paths.
    destruct (type (exposureStatus w)); try assumption.
    eexists. exact Hst.
  - destruct (reportDiagnosisKeys auth (k :: keys) contagiousDateInfo) as [[]|r] eqn:Hrep.
    + pose proof (recordKeySubmission_returns
                    (record (Call_reportDiagnosisKeys (k :: keys))
                            (record Call_getTemporaryExposureKeyHistory w))) as Hr.
      pose proof (recordKeySubmission_status
                    (record (Call_reportDiagnosisKeys (k :: keys))
                            (record Call_getTemporaryExposureKeyHistory w))) as Hst.
      simpl in Hst. rewrite Hr.
      settle_paths.
      destruct (type (exposureStatus w)); try assumption.
      eexists. exact Hst.
    + settle_paths.
  - settle_paths. exists (String c str), auth, r. repeat split; auto. discriminate.
Qed.

End KeySubmission.

(** ** Single flight *)

Section SingleFlight.

Context {dates : DateFns} {env : Collaborators}.

Lemma bookkeeping_pendingSummaryCalls : Bookkeeping pendingSummaryCalls.
Proof.
  split; try reflexivity.
  intros e w He. unfold pendingSummaryCalls. simpl. now rewrite He.
Qed.

Lemma finalize_keeps_requests status lastCheckedPeriod :
  preserves pendingSummaryCalls (finalize status lastCheckedPeriod).
Proof.
  intros w. rewrite finalize_runs. cbv zeta.
  destruct storage_setItem_fault; reflexivity.
Qed.

Lemma setToExposed_keeps_requests nextSummary lastCheckedPeriod :
  preserves pendingSummaryCalls (setToExposed nextSummary lastCheckedPeriod).
Proof.
  unfold setToExposed, selectExposureSummary, asyncStorage_setItem_unawaited.
  apply preserves_bind.
  - intros w. destruct asyncStorage_setItem_fault; reflexivity.
  - intros _. apply preserves_bind.
    + apply preserves_bind; [apply preserves_getStatus|].
      intros s. destruct (type s); apply preserves_ret.
    + intros selected. apply finalize_keeps_requests.
Qed.

(** One check asks the external capability for pending summaries exactly
    once. *)
Lemma performExposureCheck_asks_once w :
  pendingSummaryCalls (snd (performExposureCheck w)) = S (pendingSummaryCalls w).
Proof.
  unfold performExposureCheck, getSummariesFromEnFramework.
  unfold bind at 1.
  pose proof (getExposureConfiguration_runs w) as Hc.
  pose proof (preserves_getExposureConfiguration
                pendingSummaryCalls bookkeeping_pendingSummaryCalls w) as Hn.
  destruct (getExposureConfiguration w) as [[cfg|e0] w1]; simpl in Hc, Hn; [|discriminate].
  unfold bind at 1. unfold bind at 1. unfold getCurrentDate at 1. unfold tryCatch at 1.
  pose proof (getSummaries_try_after_request
                pendingSummaryCalls bookkeeping_pendingSummaryCalls
                (fun status _ => finalize_keeps_requests status PUndefined)
                cfg (clock (ticks w1)) (tick w1)) as Ha.
  destruct (getSummaries_try cfg (clock (ticks w1)) (tick w1)) as [[[summaries lcp]|e] w2];
    simpl in Ha; cbv beta iota zeta.
  - destruct (summariesContainingExposures Platform_OS
                (minimumExposureDurationMinutes cfg) summaries) as [|first more].
    + etransitivity; [apply finalize_keeps_requests|].
      rewrite Ha. unfold pendingSummaryCalls in *. simpl. now rewrite Hn.
    + etransitivity; [apply setToExposed_keeps_requests|].
      rewrite Ha. unfold pendingSummaryCalls in *. simpl. now rewrite Hn.
  - unfold bind, captureException, ret. cbv beta iota zeta.
    change (summariesContainingExposures Platform_OS
              (minimumExposureDurationMinutes cfg) []) with (@nil ExposureSummary).
    cbv iota. etransitivity; [apply finalize_keeps_requests|].
    unfold pendingSummaryCalls in *. simpl in *. now rewrite Ha, Hn.
Qed.

Lemma run_calls_in_flight n s inFlight :
  exposureStatusUpdatePromise s = Some inFlight ->
  run (repeat CallUpdate n) s = (repeat inFlight n, s).
Proof.
  intros Hs. induction n as [|n IH]; simpl; [reflexivity|].
  unfold updateExposureStatus. rewrite Hs, IH. reflexivity.
Qed.

Lemma run_app turns1 turns2 s :
  run (turns1 ++ turns2) s =
  let '(promises1, s1) := run turns1 s in
  let '(promises2, s2) := run turns2 s1 in
  (promises1 ++ promises2, s2).
Proof.
  revert s. induction turns1 as [|[|] turns1 IH]; intros s; simpl.
  - destruct (run turns2 s); reflexivity.
  - destruct (updateExposureStatus s) as [p s']. rewrite IH.
    destruct (run turns1 s') as [ps1 s1]. destruct (run turns2 s1). reflexivity.
  - apply IH.
Qed.

Lemma run_flight s n :
  exposureStatusUpdatePromise s = None ->
  run (repeat CallUpdate (S n) ++ [Settle]) s =
  (repeat (checksStarted s) (S n),
   settle (mkFlights (world s) (Some (checksStarted s)) (S (checksStarted s))
                     (settled s))).
Proof.
  intros Hidle. rewrite run_app.
  change (repeat CallUpdate (S n)) with (CallUpdate :: repeat CallUpdate n).
  cbn [run]. unfold updateExposureStatus. rewrite Hidle.
  rewrite (run_calls_in_flight n _ (checksStarted s)) by reflexivity.
  rewrite app_nil_r. reflexivity.
Qed.

(** Over any run, every check that settled asked for pending summaries
    once, and no call or settlement asked otherwise. *)
Lemma run_one_request_per_check turns s :
  (pendingSummaryCalls (world (snd (run turns s))) + List.length (settled s)
   = pendingSummaryCalls (world s) + List.length (settled (snd (run turns s))))%nat.
Proof.
  revert s. induction turns as [|[|] turns IH]; intros s; simpl.
  - reflexivity.
  - unfold updateExposureStatus.
    destruct (exposureStatusUpdatePromise s) as [p|].
    + specialize (IH s). destruct (run turns s). exact IH.
    + specialize (IH (mkFlights (world s) (Some (checksStarted s))
                                (S (checksStarted s)) (settled s))).
      destruct (run turns _). exact IH.
  - specialize (IH (settle s)). unfold settle in *.
    destruct (exposureStatusUpdatePromise s) as [p|]; [|exact IH].
    pose proof (performExposureCheck_asks_once (world s)) as Honce.
    destruct (performExposureCheck (world s)) as [outcome w']. simpl in *. lia.
Qed.

(** C10. From an idle service, any number of calls of
    [updateExposureStatus] made before the check settles are handed the same
    promise, that of the one check started; the check runs once and asks the
    external capability for pending summaries exactly once; its settlement,
    whether it returned or threw, clears [exposureStatusUpdatePromise], and
    the next call starts a check of its own. *)
Theorem updateExposureStatus_single_flight s n :
  exposureStatusUpdatePromise s = None ->
  fst (run (repeat CallUpdate (S n) ++ [Settle]) s) = repeat (checksStarted s) (S n)
  /\ exposureStatusUpdatePromise (snd (run (repeat CallUpdate (S n) ++ [Settle]) s)) = None
  /\ world (snd (run (repeat CallUpdate (S n) ++ [Settle]) s)) =
     exec performExposureCheck (world s)
  /\ settled (snd (run (repeat CallUpdate (S n) ++ [Settle]) s)) =
     (checksStarted s, result performExposureCheck (world s)) :: settled s
  /\ pendingSummaryCalls (world (snd (run (repeat CallUpdate (S n) ++ [Settle]) s))) =
     S (pendingSummaryCalls (world s))
  /\ fst (updateExposureStatus (snd (run (repeat CallUpdate (S n) ++ [Settle]) s))) =
     S (checksStarted s).
Proof.
  intros Hidle. rewrite (run_flight s n Hidle).
  unfold settle, cleanUpPromise, updateExposureStatus, result, exec.
  cbn [fst snd exposureStatusUpdatePromise world checksStarted settled].
  pose proof (performExposureCheck_asks_once (world s)) as Honce.
  destruct (performExposureCheck (world s)) as [outcome w']. simpl in *.
  repeat split; try reflexivity. exact Honce.
Qed.

End SingleFlight.

(** ** The service on concrete runs *)

Local Open Scope string_scope.

(** *** Status state machine *)




(** A weaker exposure found while [Exposed] does not replace the summary
    on record; its timestamp still goes to the durable store. *)
Example setToExposed_on_exposed_status :
  summary (exposureStatus
             (exec (setToExposed (env := uneventful) (anExposure 1) PUndefined)
                   (exposedSince 5))) = Some (anExposure 5)
  /\ asyncStorage_lastExposureTimestamp
       (exec (setToExposed (env := uneventful) (anExposure 1) PUndefined)
             (exposedSince 5)) = Some (lastExposureTimestamp (anExposure 1)).
Proof. split; reflexivity. Qed.

(** *** Period key fetcher *)

Example keysSinceLastFetch_skips_missing_batch :
  result (keysSinceLastFetch (dates := utcMinus4) (env := oneBatchMissing)
            (PNumber 18495)) checkedAt18495
  = Returned [("batch", 18500); ("batch", 18499); ("batch", 18497);
              ("batch", 18496); ("batch", 18495)].
Proof. vm_compute. reflexivity. Qed.

(** What the loop of [getKeys] tracks in its local [lastCheckedPeriod]: the
    largest of the checkpoint and the periods yielded. *)
Lemma drain_tracks_largest_period yielded :
  forall keys n,
    snd (drain yielded keys (PNumber n))
    = PNumber (fold_left Z.max (map snd yielded) n).
Proof.
  induction yielded as [|[keysFileUrl period] rest IH]; intros keys n; simpl.
  - reflexivity.
  - replace (Math_max (jsOr (PNumber n) (PNumber 0)) period)
      with (PNumber (Z.max n period)).
    + apply IH.
    + unfold jsOr, truthy. destruct (Z.eqb_spec n 0) as [->|Hn]; reflexivity.
Qed.

(** [getKeys] hands back the [lastChecked] it was given. *)
Lemma getKeys_returns_what_it_was_given
    {dates : DateFns} {env : Collaborators} lastChecked w keys returned :
  result (getKeys lastChecked) w = Returned (keys, returned) ->
  returned = lastChecked.
Proof.
  unfold result, getKeys, bind, ret.
  destruct (keysSinceLastFetch (periodOf lastChecked) w) as [[yielded|e] w'];
    [|discriminate].
  destruct (drain yielded [] (periodOf lastChecked)) as [ks tracked]. simpl.
  now intros [= _ <-].
Qed.

(** C4, on a run.  With the checkpoint at period 18495 and the clock in
    period 18500, the fetcher yields the periods 18500 down to 18495, and
    the local [lastCheckedPeriod] of [getKeys] ends at 18500, the largest
    period seen; but [getKeys] returns the [lastChecked] object it was
    given, and the check commits period 18495 again; when the same check
    detects an exposure, it is that whole object that [finalize] stores in
    the period slot. *)
Theorem getKeys_returns_stale_checkpoint :
  result (keysSinceLastFetch (dates := utcMinus4) (env := uneventful)
            (PNumber 18495)) checkedAt18495
  = Returned [("batch", 18500); ("batch", 18499); ("batch", 18498);
              ("batch", 18497); ("batch", 18496); ("batch", 18495)]
  /\ snd (drain [("batch", 18500); ("batch", 18499); ("batch", 18498);
                 ("batch", 18497); ("batch", 18496); ("batch", 18495)]
                [] (PNumber 18495)) = PNumber 18500
  /\ result (getKeys (dates := utcMinus4) (env := uneventful)
               (lastChecked (exposureStatus checkedAt18495))) checkedAt18495
     = Returned (["batch"; "batch"; "batch"; "batch"; "batch"; "batch"],
                 Some (mkLastChecked 1597999999000 (PNumber 18495)))
  /\ lastChecked
       (exposureStatus
          (exec (performExposureCheck (dates := utcMinus4) (env := uneventful))
                checkedAt18495))
     = Some (mkLastChecked earlyMorningUTC (PNumber 18495))
  /\ lastChecked
       (exposureStatus
          (exec (performExposureCheck (dates := utcMinus4) (env := exposureDetected))
                checkedAt18495))
     = Some (mkLastChecked earlyMorningUTC (PObject 1597999999000 (PNumber 18495))).
Proof. repeat split; vm_compute; reflexivity. Qed.

(** *** The check as a whole *)

(** A check whose request for pending summaries is rejected still returns. *)
Lemma performExposureCheck_failed_pipeline_witness :
  result (performExposureCheck (dates := utcMinus4) (env := pendingRejected))
         checkedAt18495 = Returned tt.
Proof.
  refine (proj1 (performExposureCheck_failed_pipeline
                   (dates := utcMinus4) (env := pendingRejected) checkedAt18495 _)).
  exists (Raised (OtherRejection "unavailable")). vm_compute. reflexivity.
Defined.

(** A rejected request for pending summaries leaves a new [lastChecked]
    behind; a rejected [detectExposure] comes after the maintenance step,
    whose transition stays. *)
Lemma failed_check_rewrites_status :
  pipelineThrows (dates := utcMinus4) (env := pendingRejected) checkedAt18495
  /\ lastChecked (exposureStatus checkedAt18495)
     = Some (mkLastChecked 1597999999000 (PNumber 18495))
  /\ lastChecked
       (exposureStatus
          (exec (performExposureCheck (dates := utcMinus4) (env := pendingRejected))
                checkedAt18495))
     = Some (mkLastChecked earlyMorningUTC (PNumber 18495))
  /\ exposureStatus
       (exec (performExposureCheck (dates := utcMinus4) (env := pendingRejected))
             checkedAt18495)
     <> exposureStatus checkedAt18495
  /\ pipelineThrows (dates := utcMinus4) (env := detectionRejected) endedYesterday
  /\ type (exposureStatus endedYesterday) = Diagnosed
  /\ type (exposureStatus
             (exec (performExposureCheck (dates := utcMinus4) (env := detectionRejected))
                   endedYesterday)) = Monitoring.
Proof.
  split; [exists (Raised (OtherRejection "unavailable")); vm_compute; reflexivity|].
  split; [reflexivity|]. split; [vm_compute; reflexivity|].
  split; [intros H; apply (f_equal lastChecked) in H; vm_compute in H; discriminate|].
  split; [exists (Raised (OtherRejection "unavailable")); vm_compute; reflexivity|].
  split; [reflexivity | vm_compute; reflexivity].
Qed.

(** *** Key submission *)

(** With a credential in store and no keys to share, a status that is not
    [Diagnosed] is left as it is: no completion is recorded. *)
Lemma submission_not_recorded_outside_diagnosis :
  secureStorage_submissionAuthKeys monitoringWithCredential = Some "credential"
  /\ result (fetchAndSubmitKeys (env := uneventful) "symptom onset")
            monitoringWithCredential = Returned tt
  /\ exposureStatus
       (exec (fetchAndSubmitKeys (env := uneventful) "symptom onset")
             monitoringWithCredential)
     = exposureStatus monitoringWithCredential
  /\ submissionLastCompletedAt
       (exposureStatus
          (exec (fetchAndSubmitKeys (env := uneventful) "symptom onset")
                monitoringWithCredential)) = None.
Proof. repeat split; vm_compute; reflexivity. Qed.

(** *** Single flight *)

(** Three calls before the check settles: one promise, one request to the
    external capability. *)
Lemma updateExposureStatus_single_flight_witness :
  fst (run (dates := utcMinus4) (env := uneventful)
           (repeat CallUpdate 3 ++ [Settle]) idle) = [0; 0; 0]%nat
  /\ pendingSummaryCalls
       (world (snd (run (dates := utcMinus4) (env := uneventful)
                        (repeat CallUpdate 3 ++ [Settle]) idle))) = 1%nat.
Proof.
  pose proof (updateExposureStatus_single_flight
                (dates := utcMinus4) (env := uneventful) idle 2 eq_refl)
    as (Hsame & _ & _ & _ & Honce & _).
  split; [exact Hsame | exact Honce].
Defined.

(** *** Where the check and the resolver part from the spec *)

(** Without a checkpoint the fetcher asks for batch 0, in period 18500, and
    hands out what it gets under the current period. *)
Lemma bootstrap_requests_batch_zero :
  periodSinceEpoch (DateFns := utcMinus4) earlyMorningUTC HOURS_PER_PERIOD = 18500
  /\ result (keysSinceLastFetch (dates := utcMinus4) (env := uneventful) PUndefined)
            (worldOf (monitoringStatus None))
     = Returned [("batch", 18500)]
  /\ trace (exec (keysSinceLastFetch (dates := utcMinus4) (env := uneventful)
                                     PUndefined)
                 (worldOf (monitoringStatus None)))
     = [Call_retrieveDiagnosisKeys 0]
  /\ ~ In (Call_retrieveDiagnosisKeys 18500)
          (trace (exec (keysSinceLastFetch (dates := utcMinus4) (env := uneventful)
                                           PUndefined)
                       (worldOf (monitoringStatus None)))).
Proof.
  split; [reflexivity|]. split; [vm_compute; reflexivity|].
  split; [vm_compute; reflexivity|].
  vm_compute. intros [H|[]]. discriminate.
Qed.



(** * Further properties of the check *)

Section CheckOutcomes.

Context {dates : DateFns} {env : Collaborators}.

Lemma setToExposed_returns nextSummary lastCheckedPeriod w :
  fst (setToExposed nextSummary lastCheckedPeriod w) = Returned tt.
Proof.
  unfold setToExposed, selectExposureSummary, asyncStorage_setItem_unawaited.
  unfold_task. simpl.
  destruct asyncStorage_setItem_fault; simpl;
    destruct (type (exposureStatus w)); reflexivity.
Qed.

(** X1. The exposure check never throws: every rejection of the backend,
    of the bridge or of a store is absorbed on the way, and the check ends
    in [setToExposed] or in [finalize], which return. *)
Theorem performExposureCheck_never_throws w :
  result performExposureCheck w = Returned tt.
Proof.
  unfold result, performExposureCheck, bind.
  pose proof (getExposureConfiguration_runs w) as Hc.
  destruct (getExposureConfiguration w) as [[cfg|e0] w0]; simpl in Hc; [|discriminate].
  destruct (getSummariesFromEnFramework_returns cfg w0) as (summaries & lcp & Hr).
  destruct (getSummariesFromEnFramework cfg w0) as [o w5]. simpl in Hr. subst o.
  destruct (summariesContainingExposures Platform_OS
              (minimumExposureDurationMinutes cfg) summaries) as [|first more].
  - rewrite finalize_runs. reflexivity.
  - apply setToExposed_returns.
Qed.

Lemma bookkeeping_fieldsOutsideCheck : Bookkeeping fieldsOutsideCheck.
Proof. split; reflexivity. Qed.

Lemma finalize_keeps_fieldsOutsideCheck status lastCheckedPeriod :
  p_notificationSent status = None ->
  p_submissionLastCompletedAt status = None ->
  p_uploadReminderLastSentAt status = None ->
  p_cycleStartsAt status = None ->
  p_cycleEndsAt status = None ->
  preserves fieldsOutsideCheck (finalize status lastCheckedPeriod).
Proof.
  intros H1 H2 H3 H4 H5 w. unfold fieldsOutsideCheck.
  rewrite finalize_status. simpl. now rewrite H1, H2, H3, H4, H5.
Qed.

Lemma setToExposed_keeps_fieldsOutsideCheck nextSummary lastCheckedPeriod :
  preserves fieldsOutsideCheck (setToExposed nextSummary lastCheckedPeriod).
Proof.
  unfold setToExposed, selectExposureSummary, asyncStorage_setItem_unawaited.
  apply preserves_bind.
  - intros w. destruct asyncStorage_setItem_fault; reflexivity.
  - intros _. apply preserves_bind.
    + apply preserves_bind; [apply preserves_getStatus|].
      intros s. destruct (type s); apply preserves_ret.
    + intros selected. now apply finalize_keeps_fieldsOutsideCheck.
Qed.

Lemma updateExposure_keeps_fieldsOutsideCheck :
  preserves fieldsOutsideCheck updateExposure.
Proof.
  unfold updateExposure, setToMonitoring.
  pose proof (preserves_getCurrentDate _ bookkeeping_fieldsOutsideCheck).
  pose proof (preserves_calculateNeedsSubmission _ bookkeeping_fieldsOutsideCheck).
  pose proof (preserves_asyncStorage_getItem fieldsOutsideCheck).
  pose proof (preserves_asyncStorage_setItem _ bookkeeping_fieldsOutsideCheck).
  assert (preserves fieldsOutsideCheck getStoredLastExposureTimestamp)
    by (unfold getStoredLastExposureTimestamp; frame).
  assert (forall status lcp,
             p_notificationSent status = None ->
             p_submissionLastCompletedAt status = None ->
             p_uploadReminderLastSentAt status = None ->
             p_cycleStartsAt status = None ->
             p_cycleEndsAt status = None ->
             preserves fieldsOutsideCheck (finalize status lcp))
    by apply finalize_keeps_fieldsOutsideCheck.
  frame.
Qed.

Lemma getSummariesFromEnFramework_keeps_fieldsOutsideCheck exposureConfiguration :
  preserves fieldsOutsideCheck (getSummariesFromEnFramework exposureConfiguration).
Proof.
  unfold getSummariesFromEnFramework, getSummaries_try.
  pose proof (preserves_getCurrentDate _ bookkeeping_fieldsOutsideCheck).
  pose proof (preserves_captureException _ bookkeeping_fieldsOutsideCheck).
  pose proof (preserves_getKeys _ bookkeeping_fieldsOutsideCheck).
  pose proof updateExposure_keeps_fieldsOutsideCheck.
  assert (forall A e (answer : Answer A), preserves fieldsOutsideCheck (call e answer))
    by (intros A e answer w; reflexivity).
  frame.
Qed.

Lemma performExposureCheck_preserves_fieldsOutsideCheck :
  preserves fieldsOutsideCheck performExposureCheck.
Proof.
  unfold performExposureCheck.
  pose proof (preserves_getExposureConfiguration _ bookkeeping_fieldsOutsideCheck).
  pose proof getSummariesFromEnFramework_keeps_fieldsOutsideCheck.
  pose proof setToExposed_keeps_fieldsOutsideCheck.
  assert (preserves fieldsOutsideCheck (finalize emptyPartial PUndefined))
    by now apply finalize_keeps_fieldsOutsideCheck.
  frame.
Qed.

(** X2. Checks write [type], [summary], [needsSubmission] and
    [lastChecked] only: [notificationSent], [submissionLastCompletedAt],
    [uploadReminderLastSentAt], [cycleStartsAt] and [cycleEndsAt] are after
    any number of checks what they were before the first, whatever the
    checks find and whatever fails. *)
Theorem performExposureCheck_keeps_fieldsOutsideCheck n w :
  fieldsOutsideCheck (Nat.iter n (exec performExposureCheck) w) = fieldsOutsideCheck w.
Proof.
  induction n as [|n IH]; simpl; [reflexivity|].
  unfold exec at 1. rewrite performExposureCheck_preserves_fieldsOutsideCheck.
  exact IH.
Qed.

End CheckOutcomes.
Section PendingSummaries.

Context {dates : DateFns} {env : Collaborators}.

#[local] Hint Extern 8 (preserves _ _) => (intros ?; reflexivity) : frames.

Lemma getExposureConfiguration_keeps_requests (select : Event -> bool) :
  select Call_backend_getExposureConfiguration = false ->
  (forall label error, select (Captured label error) = false) ->
  preserves (fun w => filter select (trace w)) getExposureConfiguration.
Proof.
  intros Hb Hc.
  assert (Hcap : forall label error,
             preserves (fun w => filter select (trace w)) (captureException label error)).
  { intros label error w. simpl. now rewrite Hc. }
  assert (Hcall : forall A (answer : Answer A),
             preserves (fun w => filter select (trace w))
                       (call Call_backend_getExposureConfiguration answer)).
  { intros A answer w. simpl. now rewrite Hb. }
  unfold getExposureConfiguration, getAlternateExposureConfiguration,
    storage_setItem_configuration, storage_getItem_configuration.
  frame.
Qed.

Lemma finalize_trace status lastCheckedPeriod w :
  trace (snd (finalize status lastCheckedPeriod w)) = trace w.
Proof.
  rewrite finalize_runs. cbv zeta. destruct storage_setItem_fault; reflexivity.
Qed.

(** [setToExposed], step by step. *)
Lemma setToExposed_runs nextSummary lastCheckedPeriod w :
  setToExposed nextSummary lastCheckedPeriod w =
  finalize
    (mkPartial (Some Exposed)
       match type (exposureStatus w) with
       | Exposed => summary (exposureStatus w)
       | _ => Some nextSummary
       end None None None None None None None)
    lastCheckedPeriod
    match asyncStorage_setItem_fault with
    | None => set_asyncStorage_lastExposureTimestamp (lastExposureTimestamp nextSummary) w
    | Some _ => w
    end.
Proof.
  unfold setToExposed, selectExposureSummary, asyncStorage_setItem_unawaited.
  unfold bind, getStatus, ret.
  destruct asyncStorage_setItem_fault; simpl; destruct (type (exposureStatus w));
    reflexivity.
Qed.

(** The evaluator on pending summaries. *)
Lemma getSummariesFromEnFramework_with_pending exposureConfiguration w first more :
  getPendingExposureSummary = Ok (Some (first :: more)) ->
  getSummariesFromEnFramework exposureConfiguration w =
  (Returned (first :: more,
             PObject (clock (ticks w))
                     (PNumber (periodSinceEpoch (clock (ticks w)) HOURS_PER_PERIOD))),
   record Call_getPendingExposureSummary (tick w)).
Proof.
  intros Hp. unfold getSummariesFromEnFramework, getSummaries_try.
  unfold_task. simpl. rewrite Hp. reflexivity.
Qed.

(** X3. When the platform holds pending summaries, the check uses them as
    they are: it requests no key file and does not call [detectExposure],
    and the maintenance step is skipped.  The status ends as it was, with
    [lastChecked] stamped on the old checkpoint, when no pending summary
    qualifies; otherwise it ends [Exposed], with the most recent qualifying
    summary unless one is on record, and with the [{timestamp, period}]
    object of the check in the period slot. *)
Theorem performExposureCheck_with_pending w first more :
  getPendingExposureSummary = Ok (Some (first :: more)) ->
  filter isRetrieveCall (trace (exec performExposureCheck w))
  = filter isRetrieveCall (trace w)
  /\ filter isDetectCall (trace (exec performExposureCheck w))
     = filter isDetectCall (trace w)
  /\ exposureStatus (exec performExposureCheck w) =
     match summariesContainingExposures Platform_OS
             (minimumExposureDurationMinutes (resolvedConfiguration w))
             (first :: more) with
     | [] =>
         spread (exposureStatus w)
           (mkPartial None None None None None None None None
              (Some (mkLastChecked (clock (S (ticks w))) (checkpoint w))))
     | mostRecent :: _ =>
         spread (exposureStatus w)
           (mkPartial (Some Exposed)
              match type (exposureStatus w) with
              | Exposed => summary (exposureStatus w)
              | _ => Some mostRecent
              end None None None None None None
              (Some (mkLastChecked (clock (S (ticks w)))
                       (PObject (clock (ticks w))
                          (PNumber (periodSinceEpoch (clock (ticks w))
                                                     HOURS_PER_PERIOD))))))
     end.
Proof.
  intros Hp. unfold exec, performExposureCheck, bind.
  pose proof (getExposureConfiguration_runs w) as Hc.
  pose proof (getExposureConfiguration_keeps_requests isRetrieveCall
                eq_refl (fun _ _ => eq_refl) w) as Hr.
  pose proof (getExposureConfiguration_keeps_requests isDetectCall
                eq_refl (fun _ _ => eq_refl) w) as Hd.
  pose proof (preserves_getExposureConfiguration
                exposureStatus bookkeeping_exposureStatus w) as Hs.
  pose proof (getExposureConfiguration_keeps_ticks w) as Hk.
  destruct (getExposureConfiguration w) as [[cfg|e0] w0]; simpl in Hc; [|discriminate].
  injection Hc as ->. cbn [snd] in *.
  rewrite (getSummariesFromEnFramework_with_pending _ w0 first more Hp).
  cbv beta iota zeta.
  destruct (summariesContainingExposures Platform_OS
              (minimumExposureDurationMinutes (resolvedConfiguration w))
              (first :: more)) as [|mostRecent rest].
  - rewrite finalize_trace, finalize_status. simpl. rewrite Hr, Hd, Hs, Hk.
    repeat split; reflexivity.
  - rewrite setToExposed_runs, finalize_trace, finalize_status.
    destruct asyncStorage_setItem_fault; simpl; rewrite Hr, Hd, Hs, Hk;
      repeat split; reflexivity.
Qed.

End PendingSummaries.

(** * Further properties of filtering, fetching and caching *)

(** X4. The summary the check acts on, [summaries[0]] of the filtered and
    sorted list, qualifies and is no older than any qualifying summary of
    the input; the list is empty exactly when no summary of the input
    qualifies. *)
Theorem summariesContainingExposures_head os T summaries :
  match summariesContainingExposures os T summaries with
  | [] => forall s, In s summaries -> summaryExceedsMinimumMinutes os s T = false
  | mostRecent :: _ =>
      In mostRecent summaries
      /\ summaryExceedsMinimumMinutes os mostRecent T = true
      /\ forall s, In s summaries -> summaryExceedsMinimumMinutes os s T = true ->
                   lastExposureTimestamp s <= lastExposureTimestamp mostRecent
  end.
Proof.
  unfold summariesContainingExposures.
  pose proof (sortSummaries_perm
                (filter (fun s => summaryExceedsMinimumMinutes os s T) summaries)) as Hperm.
  pose proof (sortSummaries_sorted
                (filter (fun s => summaryExceedsMinimumMinutes os s T) summaries)) as Hsorted.
  destruct (sortSummaries
              (filter (fun s => summaryExceedsMinimumMinutes os s T) summaries))
    as [|mostRecent rest].
  - intros s Hin. destruct (summaryExceedsMinimumMinutes os s T) eqn:E; [|reflexivity].
    assert (Hf : In s (filter (fun s => summaryExceedsMinimumMinutes os s T) summaries))
      by (apply filter_In; now split).
    apply (Permutation_in _ Hperm) in Hf. destruct Hf.
  - assert (Hhead : In mostRecent
                      (filter (fun s => summaryExceedsMinimumMinutes os s T) summaries))
      by (apply (Permutation_in _ (Permutation_sym Hperm)); now left).
    apply filter_In in Hhead. destruct Hhead as [Hin Hq].
    split; [exact Hin|]. split; [exact Hq|].
    intros s Hs Hqs.
    assert (Hf : In s (filter (fun s => summaryExceedsMinimumMinutes os s T) summaries))
      by (apply filter_In; now split).
    apply (Permutation_in _ Hperm) in Hf. destruct Hf as [<-|Hrest]; [lia|].
    inversion Hsorted as [|? ? _ Hall]; subst.
    rewrite Forall_forall in Hall. specialize (Hall s Hrest).
    unfold newerFirst in Hall. lia.
Qed.

(** X5. The threshold in the units of the platform: where the buckets hold
    minutes a summary qualifies when the two nearest buckets add up to the
    threshold; where they hold seconds, when they add up to the threshold
    less 30 seconds, the minutes being rounded half up; a zero threshold
    admits nothing, and a summary without both buckets never qualifies. *)
Theorem summaryExceedsMinimumMinutes_in_bucket_units s T :
  (forall d0 d1 rest,
     attenuationDurations s = d0 :: d1 :: rest ->
     (summaryExceedsMinimumMinutes android s T = true <-> T <> 0 /\ T <= d0 + d1)
     /\ (summaryExceedsMinimumMinutes ios s T = true <->
         T <> 0 /\ 60 * T - 30 <= d0 + d1))
  /\ (forall os, (List.length (attenuationDurations s) < 2)%nat ->
                 summaryExceedsMinimumMinutes os s T = false)
  /\ (forall os, T = 0 -> summaryExceedsMinimumMinutes os s T = false).
Proof.
  split; [|split].
  - intros d0 d1 rest E. split.
    + rewrite summaryExceedsMinimumMinutes_iff,
        (exposureDurationRounded_android s d0 d1 rest E).
      split.
      * intros [Hn (D & [= <-] & Hle)]. now split.
      * intros [Hn Hle]. split; [exact Hn|]. now exists (d0 + d1).
    + rewrite summaryExceedsMinimumMinutes_iff,
        (exposureDurationRounded_ios s d0 d1 rest E).
      split.
      * intros [Hn (D & [= <-] & Hle)]. split; [exact Hn|].
        Z.div_mod_to_equations. lia.
      * intros [Hn Hle]. split; [exact Hn|]. eexists. split; [reflexivity|].
        Z.div_mod_to_equations. lia.
  - intros os Hlen. unfold summaryExceedsMinimumMinutes, exposureDurationRounded.
    destruct (attenuationDurations s) as [|d0 [|d1 rest]]; simpl in *;
      try lia; apply andb_false_r.
  - intros os ->. reflexivity.
Qed.

Section FetchBound.

Context {dates : DateFns} {env : Collaborators}.

Lemma fetchPeriod_requests p w :
  filter isRetrieveCall (trace (snd (fetchPeriod p w)))
  = Call_retrieveDiagnosisKeys p :: filter isRetrieveCall (trace w)
  /\ exists yielded, fst (fetchPeriod p w) = Returned yielded
                     /\ (List.length yielded <= 1)%nat.
Proof.
  unfold fetchPeriod. unfold_task. simpl.
  destruct (retrieveDiagnosisKeys p); simpl; (split; [reflexivity|]);
    eexists; (split; [reflexivity|]); simpl; lia.
Qed.

Lemma fetchLoop_requests runningPeriod lastCheckedPeriod :
  forall w,
    List.length (filter isRetrieveCall
                   (trace (snd (fetchLoop runningPeriod lastCheckedPeriod w))))
    = (List.length (filter isRetrieveCall (trace w))
       + Z.to_nat (runningPeriod - lastCheckedPeriod))%nat
    /\ exists yielded,
         fst (fetchLoop runningPeriod lastCheckedPeriod w) = Returned yielded
         /\ (List.length yielded <= Z.to_nat (runningPeriod - lastCheckedPeriod))%nat.
Proof.
  funelim (fetchLoop runningPeriod lastCheckedPeriod); intros w.
  - unfold bind at 1 3.
    destruct (fetchPeriod_requests runningPeriod w) as (Ht & ys & Hy & Hlen).
    destruct (fetchPeriod runningPeriod w) as [o w1]. simpl in Ht, Hy. subst o.
    match goal with
    | IH : list _ -> World -> forall w, _ |- _ =>
        destruct (IH [] w w1) as (Hn & rest & Hr & Hrest)
    end.
    unfold bind, ret.
    destruct (fetchLoop (runningPeriod - 1) lastCheckedPeriod w1) as [o w2].
    simpl in Hn, Hr. subst o. simpl. split.
    + rewrite Hn, Ht. simpl. lia.
    + exists (ys ++ rest)%list. split; [reflexivity|]. rewrite length_app. lia.
  - simpl. split; [lia|]. exists []. split; [reflexivity|]. simpl. lia.
Qed.

(** The generator, path by path. *)
Lemma keysSinceLastFetch_runs _lastCheckedPeriod w :
  keysSinceLastFetch _lastCheckedPeriod w =
  if truthy _lastCheckedPeriod then
    match toNumber _lastCheckedPeriod with
    | Some n =>
        fetchLoop (periodSinceEpoch (clock (ticks w)) HOURS_PER_PERIOD)
                  (Z.max (n - 1)
                     (periodSinceEpoch (clock (ticks w)) HOURS_PER_PERIOD
                      - EXPOSURE_NOTIFICATION_CYCLE))
                  (tick w)
    | None => (Returned [], tick w)
    end
  else
    match retrieveDiagnosisKeys 0 with
    | Ok keysFileUrl =>
        (Returned [(keysFileUrl, periodSinceEpoch (clock (ticks w)) HOURS_PER_PERIOD)],
         record (Call_retrieveDiagnosisKeys 0) (tick w))
    | Rejects r =>
        (Returned [],
         record (Captured "Error while downloading batch files" (Raised r))
                (record (Call_retrieveDiagnosisKeys 0) (tick w)))
    end.
Proof.
  unfold keysSinceLastFetch, bind at 1, getCurrentDate.
  destruct (truthy _lastCheckedPeriod); simpl negb; cbv iota.
  - destruct (toNumber _lastCheckedPeriod); reflexivity.
  - unfold_task. simpl. destruct (retrieveDiagnosisKeys 0); reflexivity.
Qed.

(** X6. One run of the key fetcher makes at most 14 requests to
    [retrieveDiagnosisKeys] and yields at most 14 key files, whatever the
    checkpoint and however old it is: the window never reaches back further
    than [EXPOSURE_NOTIFICATION_CYCLE] periods. *)
Theorem keysSinceLastFetch_at_most_a_cycle _lastCheckedPeriod w :
  (List.length (filter isRetrieveCall
                  (trace (exec (keysSinceLastFetch _lastCheckedPeriod) w)))
   <= List.length (filter isRetrieveCall (trace w)) + 14)%nat
  /\ exists yielded,
       result (keysSinceLastFetch _lastCheckedPeriod) w = Returned yielded
       /\ (List.length yielded <= 14)%nat.
Proof.
  unfold result, exec. rewrite keysSinceLastFetch_runs.
  destruct (truthy _lastCheckedPeriod).
  - destruct (toNumber _lastCheckedPeriod) as [n|].
    + destruct (fetchLoop_requests
                  (periodSinceEpoch (clock (ticks w)) HOURS_PER_PERIOD)
                  (Z.max (n - 1)
                     (periodSinceEpoch (clock (ticks w)) HOURS_PER_PERIOD
                      - EXPOSURE_NOTIFICATION_CYCLE))
                  (tick w)) as (Hn & yielded & Hr & Hlen).
      unfold EXPOSURE_NOTIFICATION_CYCLE in *. split.
      * rewrite Hn. simpl. lia.
      * exists yielded. split; [exact Hr|]. lia.
    + simpl. split; [lia|]. exists []. split; [reflexivity|]. simpl. lia.
  - destruct (retrieveDiagnosisKeys 0); simpl;
      (split; [lia|]); eexists; (split; [reflexivity|]); simpl; lia.
Qed.

End FetchBound.

Section ConfigurationCache.

Context {dates : DateFns} {env : Collaborators}.

(** X7. The cached configuration is overwritten exactly when the remote
    configuration was fetched, passed validation and could be stored, and
    then with that configuration; a resolution that falls back to the cache
    or to the default leaves the cache as it found it. *)
Theorem getExposureConfiguration_cache w :
  storage_exposureConfiguration (exec getExposureConfiguration w) =
  match remoteTier with
  | Some remote => Some (JSON_stringify_configuration remote)
  | None => storage_exposureConfiguration w
  end.
Proof.
  assert (Halt : forall w1,
             storage_exposureConfiguration
               (snd (getAlternateExposureConfiguration w1))
             = storage_exposureConfiguration w1).
  { intros w1.
    unfold getAlternateExposureConfiguration, storage_getItem_configuration.
    unfold_task. simpl.
    destruct storage_getItem_fault; simpl; [reflexivity|].
    destruct (storage_exposureConfiguration w1) as [[|c str]|] eqn:Hstored;
      simpl; try exact Hstored.
    destruct (JSON_parse_configuration (String c str)); exact Hstored. }
  unfold exec, getExposureConfiguration, storage_setItem_configuration, remoteTier.
  unfold_task. simpl.
  destruct backend_getExposureConfiguration as [remote|r]; simpl.
  - destruct (validateExposureConfiguration remote) as [[]|r]; simpl.
    + destruct storage_setItem_fault as [r|]; simpl; [|reflexivity].
      rewrite Halt. reflexivity.
    + rewrite Halt. reflexivity.
  - rewrite Halt. reflexivity.
Qed.

End ConfigurationCache.

(** * The checkpoint over a series of checks *)

Section Returning.

Context {A : Type} (P : A -> Prop).

Lemma returns_ret a : P a -> returns P (ret a).
Proof. intros Ha w b Hb. injection Hb as <-. exact Ha. Qed.

Lemma returns_throw e : returns P (throw e).
Proof. intros w b Hb. discriminate. Qed.

Lemma returns_bind {B} (m : Task B) (k : B -> Task A) :
  (forall b, returns P (k b)) -> returns P (bind m k).
Proof.
  intros Hk w a. unfold bind. destruct (m w) as [[b|e] w']; simpl.
  - apply Hk.
  - discriminate.
Qed.

Lemma returns_tryCatch (m : Task A) (h : Error -> Task A) :
  returns P m -> (forall e, returns P (h e)) -> returns P (tryCatch m h).
Proof.
  intros Hm Hh w a. unfold tryCatch. specialize (Hm w).
  destruct (m w) as [[b|e] w']; simpl in *.
  - apply Hm.
  - apply Hh.
Qed.

End Returning.

Section Keeping.

Context {dates : DateFns} {env : Collaborators}.
Variable J : PeriodValue -> Prop.
Variable Q : Event -> Prop.
Hypothesis Q_other : forall e, isRetrieveCall e = false -> Q e.
Hypothesis J_object : forall timestamp period, J (PObject timestamp period).
Hypothesis J_default : forall v, J v -> J (jsOr v (PNumber 0)).
Hypothesis fetch_Q :
  forall v w, J v -> since Q w (snd (keysSinceLastFetch v w)).

Lemma since_refl w : since Q w w.
Proof. exists []. split; [reflexivity | constructor]. Qed.

Lemma since_same w w' : trace w' = trace w -> since Q w w'.
Proof. intros H. exists []. split; [exact H | constructor]. Qed.

Lemma since_trans w1 w2 w3 : since Q w1 w2 -> since Q w2 w3 -> since Q w1 w3.
Proof.
  intros (n1 & H1 & F1) (n2 & H2 & F2). exists (n2 ++ n1)%list. split.
  - rewrite H2, H1. apply app_assoc.
  - apply Forall_app. split; assumption.
Qed.

Lemma keeping_refl w : keeping J Q w w.
Proof. intros HJ. split; [exact HJ | apply since_refl]. Qed.

Lemma keeping_trans w1 w2 w3 :
  keeping J Q w1 w2 -> keeping J Q w2 w3 -> keeping J Q w1 w3.
Proof.
  intros H12 H23 HJ. destruct (H12 HJ) as [HJ2 S12].
  destruct (H23 HJ2) as [HJ3 S23]. split; [exact HJ3|].
  eapply since_trans; eassumption.
Qed.

(** A step that leaves the status alone and records at most events in [Q]. *)
Lemma keeping_quiet w w' :
  exposureStatus w' = exposureStatus w -> since Q w w' -> keeping J Q w w'.
Proof.
  intros Hs Hq HJ. split; [|exact Hq]. unfold checkpointPeriod in *. now rewrite Hs.
Qed.

Lemma keeps_ret {A} (a : A) : respects (keeping J Q) (ret a).
Proof. apply respects_ret, keeping_refl. Qed.

Lemma keeps_throw {A} e : respects (keeping J Q) (@throw A e).
Proof. apply respects_throw, keeping_refl. Qed.

Lemma keeps_lift {A} (answer : Answer A) : respects (keeping J Q) (lift answer).
Proof. apply respects_lift, keeping_refl. Qed.

Lemma keeps_raiseFault fault : respects (keeping J Q) (raiseFault fault).
Proof. apply respects_raiseFault, keeping_refl. Qed.

Lemma keeps_getStatus : respects (keeping J Q) getStatus.
Proof. apply respects_getStatus, keeping_refl. Qed.

Lemma keeps_bind {A C} (m : Task A) (k : A -> Task C) :
  respects (keeping J Q) m -> (forall a, respects (keeping J Q) (k a)) ->
  respects (keeping J Q) (bind m k).
Proof. apply respects_bind, keeping_trans. Qed.

Lemma keeps_tryCatch {A} (m : Task A) (h : Error -> Task A) :
  respects (keeping J Q) m -> (forall e, respects (keeping J Q) (h e)) ->
  respects (keeping J Q) (tryCatch m h).
Proof. apply respects_tryCatch, keeping_trans. Qed.

Lemma keeps_getCurrentDate : respects (keeping J Q) getCurrentDate.
Proof. intros w. apply keeping_quiet; [reflexivity | now apply since_same]. Qed.

Lemma keeps_call {A} e (answer : Answer A) :
  isRetrieveCall e = false -> respects (keeping J Q) (call e answer).
Proof.
  intros He w. apply keeping_quiet; [reflexivity|].
  exists [e]. split; [reflexivity|]. constructor; [now apply Q_other | constructor].
Qed.

Lemma keeps_captureException label error :
  respects (keeping J Q) (captureException label error).
Proof.
  intros w. apply keeping_quiet; [reflexivity|].
  exists [Captured label error]. split; [reflexivity|].
  constructor; [now apply Q_other | constructor].
Qed.

#[local] Hint Resolve keeps_ret keeps_throw keeps_lift keeps_raiseFault keeps_getStatus
  keeps_bind keeps_tryCatch : keeps.
#[local] Hint Resolve keeps_getCurrentDate keeps_captureException : keeps.
#[local] Hint Extern 1 (respects _ (call _ _)) =>
  apply keeps_call; reflexivity : keeps.
#[local] Hint Extern 9 (respects _ _) =>
  (intros ?; apply keeping_quiet; [reflexivity | apply since_same; reflexivity]) : keeps.

Lemma keeps_getExposureConfiguration : respects (keeping J Q) getExposureConfiguration.
Proof.
  unfold getExposureConfiguration, getAlternateExposureConfiguration,
    storage_setItem_configuration, storage_getItem_configuration.
  keep.
Qed.

Lemma keeps_append p :
  p_lastChecked p = None -> respects (keeping J Q) (append p).
Proof.
  intros Hp w HJ. split.
  - unfold checkpointPeriod, append in *. simpl.
    destruct storage_setItem_fault; simpl; rewrite Hp; exact HJ.
  - exists []. split; [|constructor].
    unfold append. simpl. destruct storage_setItem_fault; reflexivity.
Qed.

(** [finalize] with a period that is absent, or in [J]. *)
Lemma keeps_finalize status lastCheckedPeriod :
  p_lastChecked status = None ->
  lastCheckedPeriod = PUndefined \/ J lastCheckedPeriod ->
  respects (keeping J Q) (finalize status lastCheckedPeriod).
Proof.
  intros Hp Hl w HJ. split.
  - unfold checkpointPeriod in *. rewrite finalize_status. simpl.
    rewrite Hp. simpl.
    destruct Hl as [-> | Hl].
    + unfold jsOr at 2. simpl. apply J_default. exact HJ.
    + destruct lastCheckedPeriod; try exact Hl.
      unfold jsOr at 2. simpl. apply J_default. exact HJ.
  - exists []. split; [|constructor].
    rewrite finalize_runs. cbv zeta. destruct storage_setItem_fault; reflexivity.
Qed.

Lemma keeps_setToMonitoring : respects (keeping J Q) setToMonitoring.
Proof. unfold setToMonitoring. apply keeps_finalize; [reflexivity | now left]. Qed.

Lemma keeps_calculateNeedsSubmission : respects (keeping J Q) calculateNeedsSubmission.
Proof. unfold calculateNeedsSubmission. keep. Qed.

Lemma keeps_getStoredLastExposureTimestamp :
  respects (keeping J Q) getStoredLastExposureTimestamp.
Proof.
  unfold getStoredLastExposureTimestamp, asyncStorage_getItem, asyncStorage_setItem.
  keep.
Qed.

Lemma keeps_updateExposure : respects (keeping J Q) updateExposure.
Proof.
  unfold updateExposure.
  pose proof keeps_setToMonitoring.
  pose proof keeps_calculateNeedsSubmission.
  pose proof keeps_getStoredLastExposureTimestamp.
  assert (forall needs,
             respects (keeping J Q)
               (finalize (mkPartial None None None (Some needs) None None None None None)
                         PUndefined))
    by (intros needs; apply keeps_finalize; [reflexivity | now left]).
  keep.
Qed.

Lemma keeps_getKeys lastChecked :
  J (periodOf lastChecked) -> respects (keeping J Q) (getKeys lastChecked).
Proof.
  intros Hv w. apply keeping_quiet.
  - apply (preserves_getKeys _ bookkeeping_exposureStatus).
  - pose proof (fetch_Q (periodOf lastChecked) w Hv) as H.
    unfold getKeys, bind.
    destruct (keysSinceLastFetch (periodOf lastChecked) w) as [[yielded|e] w'];
      simpl in *; [destruct (drain yielded [] (periodOf lastChecked))|]; exact H.
Qed.

Lemma keeps_getSummaries_try exposureConfiguration today :
  respects (keeping J Q) (getSummaries_try exposureConfiguration today).
Proof.
  assert (Hrest : respects (keeping J Q)
    (currentStatus <- getStatus ;;
     updateExposure ;;
     keysAndLastChecked <- getKeys (lastChecked currentStatus) ;;
     summaries <-
       call (Call_detectExposure (fst keysAndLastChecked))
            (detectExposure exposureConfiguration (fst keysAndLastChecked)) ;;
     ret (summaries,
          match snd keysAndLastChecked with
          | Some lastChecked => objectOf lastChecked
          | None => PUndefined
          end))).
  { intros w HJ. unfold bind at 1, getStatus at 1.
    pose proof keeps_updateExposure.
    pose proof (keeps_getKeys (lastChecked (exposureStatus w)) HJ).
    assert (Hk : respects (keeping J Q)
      (updateExposure ;;
       keysAndLastChecked <- getKeys (lastChecked (exposureStatus w)) ;;
       summaries <-
         call (Call_detectExposure (fst keysAndLastChecked))
              (detectExposure exposureConfiguration (fst keysAndLastChecked)) ;;
       ret (summaries,
            match snd keysAndLastChecked with
            | Some lastChecked => objectOf lastChecked
            | None => PUndefined
            end))) by keep.
    exact (Hk w HJ). }
  unfold getSummaries_try.
  apply keeps_bind; [keep|].
  intros [[|first more]|]; [exact Hrest | keep | exact Hrest].
Qed.

Lemma keeps_getSummariesFromEnFramework exposureConfiguration :
  respects (keeping J Q) (getSummariesFromEnFramework exposureConfiguration).
Proof.
  unfold getSummariesFromEnFramework. pose proof keeps_getSummaries_try. keep.
Qed.

(** The period the evaluator hands on is absent, or an object, unless it
    hands on no summary. *)
Lemma getSummariesFromEnFramework_period exposureConfiguration :
  returns (fun summariesAndPeriod =>
             snd summariesAndPeriod = PUndefined
             \/ J (snd summariesAndPeriod)
             \/ fst summariesAndPeriod = [])
          (getSummariesFromEnFramework exposureConfiguration).
Proof.
  unfold getSummariesFromEnFramework, getSummaries_try.
  apply returns_bind. intros today. apply returns_tryCatch.
  - apply returns_bind. intros [[|first more]|].
    + do 4 (apply returns_bind; intros ?). apply returns_ret. simpl.
      destruct (snd _); [right; left; apply J_object | now left].
    + apply returns_ret. right. left. apply J_object.
    + do 4 (apply returns_bind; intros ?). apply returns_ret. simpl.
      destruct (snd _); [right; left; apply J_object | now left].
  - intros e. apply returns_bind. intros _. apply returns_ret. right. now right.
Qed.

Lemma keeps_setToExposed nextSummary lastCheckedPeriod :
  lastCheckedPeriod = PUndefined \/ J lastCheckedPeriod ->
  respects (keeping J Q) (setToExposed nextSummary lastCheckedPeriod).
Proof.
  intros Hl. unfold setToExposed, selectExposureSummary, asyncStorage_setItem_unawaited.
  assert (forall selected,
             respects (keeping J Q)
               (finalize (mkPartial (Some Exposed) selected None None None None None
                                    None None) lastCheckedPeriod))
    by (intros selected; now apply keeps_finalize).
  apply keeps_bind.
  - intros w. apply keeping_quiet.
    + simpl. destruct asyncStorage_setItem_fault; reflexivity.
    + apply since_same. simpl. destruct asyncStorage_setItem_fault; reflexivity.
  - intros _. keep.
Qed.

Lemma keeps_performExposureCheck : respects (keeping J Q) performExposureCheck.
Proof.
  unfold performExposureCheck.
  apply keeps_bind; [apply keeps_getExposureConfiguration|].
  intros exposureConfiguration w. unfold bind.
  pose proof (keeps_getSummariesFromEnFramework exposureConfiguration w) as Hk.
  pose proof (getSummariesFromEnFramework_period exposureConfiguration w) as Hr.
  destruct (getSummariesFromEnFramework exposureConfiguration w)
    as [[[summaries lastCheckedPeriod]|e] w']; simpl in *; [|exact Hk].
  specialize (Hr _ eq_refl). simpl in Hr.
  eapply keeping_trans; [exact Hk|].
  assert (Hf : keeping J Q w' (snd (finalize emptyPartial PUndefined w')))
    by (apply keeps_finalize; [reflexivity | now left]).
  destruct Hr as [-> | [HJ | ->]].
  - destruct (summariesContainingExposures _ _ summaries); [exact Hf|].
    apply keeps_setToExposed. now left.
  - destruct (summariesContainingExposures _ _ summaries); [exact Hf|].
    apply keeps_setToExposed. now right.
  - exact Hf.
Qed.

Lemma keeps_checks n w :
  keeping J Q w (Nat.iter n (exec performExposureCheck) w).
Proof.
  induction n as [|n IH]; simpl.
  - apply keeping_refl.
  - eapply keeping_trans; [exact IH | apply keeps_performExposureCheck].
Qed.

End Keeping.

Section CheckpointOverChecks.

Context {dates : DateFns} {env : Collaborators}.

Lemma keysSinceLastFetch_unnumbered v w :
  unnumbered v -> since batchZeroOnly w (snd (keysSinceLastFetch v w)).
Proof.
  intros Hv. rewrite keysSinceLastFetch_runs.
  assert (Hzero :
    since batchZeroOnly w
      (snd match retrieveDiagnosisKeys 0 with
           | Ok keysFileUrl =>
               (Returned [(keysFileUrl,
                           periodSinceEpoch (clock (ticks w)) HOURS_PER_PERIOD)],
                record (Call_retrieveDiagnosisKeys 0) (tick w))
           | Rejects r =>
               (Returned [],
                record (Captured "Error while downloading batch files" (Raised r))
                       (record (Call_retrieveDiagnosisKeys 0) (tick w)))
           end)).
  { destruct (retrieveDiagnosisKeys 0) as [keysFileUrl|r].
    - exists [Call_retrieveDiagnosisKeys 0]. split; [reflexivity|].
      repeat constructor.
    - exists [Captured "Error while downloading batch files" (Raised r);
              Call_retrieveDiagnosisKeys 0].
      split; [reflexivity|]. repeat constructor. }
  destruct v as [| | |n|timestamp period]; simpl in Hv; try exact Hzero.
  - subst n. exact Hzero.
  - now apply since_same.
Qed.

Lemma keysSinceLastFetch_object v w :
  isObject v -> since noRetrieveCall w (snd (keysSinceLastFetch v w)).
Proof.
  intros Hv. rewrite keysSinceLastFetch_runs.
  destruct v; try contradiction. simpl. now apply since_same.
Qed.

(** X8. A service whose checkpoint period is not a number other than 0 (a
    fresh service has none at all) never gets one, however many checks run,
    and every request these checks make for key files is for batch 0: the
    window of periods since the last check is never walked. *)
Theorem checks_request_only_batch_zero n w :
  unnumbered (checkpointPeriod w) ->
  unnumbered (checkpointPeriod (Nat.iter n (exec performExposureCheck) w))
  /\ exists requested,
       trace (Nat.iter n (exec performExposureCheck) w) = (requested ++ trace w)%list
       /\ Forall batchZeroOnly requested.
Proof.
  intros Hw.
  apply (keeps_checks unnumbered batchZeroOnly); try assumption.
  - intros [] He; try exact I. discriminate.
  - intros; exact I.
  - intros [] Hv; simpl in *; try exact I; try reflexivity.
    subst n0. reflexivity.
  - intros; now apply keysSinceLastFetch_unnumbered.
Qed.

(** X9. Once the checkpoint period holds an object (what a check stores
    there when it finds an exposure among pending summaries, or with a
    checkpoint already on record), it holds one after every later check, and
    no later check requests a key file. *)
Theorem checks_after_object_checkpoint n w :
  isObject (checkpointPeriod w) ->
  isObject (checkpointPeriod (Nat.iter n (exec performExposureCheck) w))
  /\ filter isRetrieveCall (trace (Nat.iter n (exec performExposureCheck) w))
     = filter isRetrieveCall (trace w).
Proof.
  intros Hw.
  destruct (keeps_checks isObject noRetrieveCall) with (n := n) (w := w)
    as (Hobj & requested & Ht & Hq); try assumption.
  - intros e He. exact He.
  - intros; exact I.
  - intros [] Hv; try contradiction. exact I.
  - intros; now apply keysSinceLastFetch_object.
  - split; [exact Hobj|]. rewrite Ht, filter_app.
    replace (filter isRetrieveCall requested) with (@nil Event); [reflexivity|].
    clear Ht. induction Hq as [|e rest He _ IH]; [reflexivity|].
    simpl. unfold noRetrieveCall in He. rewrite He. exact IH.
Qed.

End CheckpointOverChecks.

(** * Further properties of the status and of key submission *)

Section ExposureTimestamp.

Context {dates : DateFns} {env : Collaborators}.

(** X10. When [AsyncStorage] works, the timestamp read back after
    [setToExposed] is that of the summary just detected, also when the status
    keeps the summary of an earlier exposure: the exposure ages from the most
    recent detection. *)
Theorem setToExposed_then_getStoredLastExposureTimestamp nextSummary lastCheckedPeriod w :
  asyncStorage_setItem_fault = None ->
  asyncStorage_getItem_fault = None ->
  result getStoredLastExposureTimestamp
         (exec (setToExposed nextSummary lastCheckedPeriod) w)
  = Returned (Some (lastExposureTimestamp nextSummary))
  /\ summary (exposureStatus (exec (setToExposed nextSummary lastCheckedPeriod) w))
     = match type (exposureStatus w) with
       | Exposed => summary (exposureStatus w)
       | _ => Some nextSummary
       end.
Proof.
  intros Hset Hget.
  unfold setToExposed, selectExposureSummary, asyncStorage_setItem_unawaited,
    getStoredLastExposureTimestamp, asyncStorage_getItem, finalize.
  unfold_task. rewrite Hset, Hget. simpl.
  destruct (type (exposureStatus w)); simpl;
    destruct storage_setItem_fault; simpl; split; try reflexivity.
  all: destruct (summary (exposureStatus w)); reflexivity.
Qed.

End ExposureTimestamp.

Section SubmissionCycle.

Context {dates : DateFns} {calendar : CalendarFns}
        {env : Collaborators} {platform : Platform}.

(** What [append] changes: the status, and its copy in storage. *)
Lemma append_effect p w :
  exposureStatus (snd (append p w)) = spread (exposureStatus w) p
  /\ secureStorage_submissionAuthKeys (snd (append p w))
     = secureStorage_submissionAuthKeys w
  /\ ticks (snd (append p w)) = ticks w
  /\ trace (snd (append p w)) = trace w.
Proof. unfold append. simpl. destruct storage_setItem_fault; now repeat split. Qed.

(** X11. A submission that throws, whatever it throws, has changed neither
    the status nor anything in the stores nor the clock: only the calls it
    made are on record. *)
Theorem fetchAndSubmitKeys_failure_changes_nothing contagiousDateInfo w e :
  result (fetchAndSubmitKeys contagiousDateInfo) w = Thrown e ->
  exposureStatus (exec (fetchAndSubmitKeys contagiousDateInfo) w) = exposureStatus w
  /\ storage_exposureStatus (exec (fetchAndSubmitKeys contagiousDateInfo) w)
     = storage_exposureStatus w
  /\ secureStorage_submissionAuthKeys (exec (fetchAndSubmitKeys contagiousDateInfo) w)
     = secureStorage_submissionAuthKeys w
  /\ ticks (exec (fetchAndSubmitKeys contagiousDateInfo) w) = ticks w.
Proof.
  unfold result, exec. rewrite fetchAndSubmitKeys_runs. cbv zeta.
  destruct secureStorage_get_fault; [now intros _|].
  destruct (secureStorage_submissionAuthKeys w) as [[|c str]|] eqn:Hs;
    [now intros _ | | now intros _].
  destruct (JSON_parse_submissionKeys (String c str)) as [auth|r]; [|now intros _].
  destruct getTemporaryExposureKeyHistory as [[|k keys]|r].
  - rewrite recordKeySubmission_returns. discriminate.
  - destruct (reportDiagnosisKeys auth (k :: keys) contagiousDateInfo) as [[]|r].
    + rewrite recordKeySubmission_returns. discriminate.
    + intros _. simpl. now rewrite Hs.
  - intros _. simpl. now rewrite Hs.
Qed.

Lemma startKeysSubmission_runs oneTimeCode d :
  startKeysSubmission oneTimeCode d =
  match claimOneTimeCode oneTimeCode with
  | Rejects r =>
      (Thrown (Raised r), recordPlatform (Call_claimOneTimeCode oneTimeCode) d)
  | Ok keys =>
      let stored :=
        match secureStorage_set_fault with
        | None =>
            set_secureStorage_submissionAuthKeys
              (JSON_stringify_submissionKeys keys) (service d)
        | Some r =>
            record (Captured "Unable to store SUBMISSION_AUTH_KEYS" (Raised r))
                   (service d)
        end in
      let cycleStartsAt := clock (ticks stored) in
      (Returned tt,
       set_service
         (snd (append (mkPartial (Some Diagnosed) None None (Some true) None None
                                 (Some cycleStartsAt)
                                 (Some (addDays cycleStartsAt EXPOSURE_NOTIFICATION_CYCLE))
                                 None)
                      (tick stored)))
         (recordPlatform (Call_claimOneTimeCode oneTimeCode) d))
  end.
Proof.
  unfold startKeysSubmission, secureStorage_set_submissionAuthKeys.
  unfold_device. unfold_task. simpl.
  destruct (claimOneTimeCode oneTimeCode) as [keys|r]; simpl; [|reflexivity].
  destruct secureStorage_set_fault; simpl; reflexivity.
Qed.

(** X12. [startKeysSubmission] returns exactly when the backend redeems the
    code.  A rejected code leaves the service as it was.  A redeemed code
    opens a cycle of [EXPOSURE_NOTIFICATION_CYCLE] days from now with
    [needsSubmission] set, whether or not the credential could be stored,
    and keeps every other field of the status, among them the completion
    stamp of an earlier cycle. *)
Theorem startKeysSubmission_outcomes oneTimeCode d :
  (dresult (startKeysSubmission oneTimeCode) d = Returned tt <->
   exists keys, claimOneTimeCode oneTimeCode = Ok keys)
  /\ (forall e,
        dresult (startKeysSubmission oneTimeCode) d = Thrown e ->
        service (dexec (startKeysSubmission oneTimeCode) d) = service d)
  /\ (dresult (startKeysSubmission oneTimeCode) d = Returned tt ->
      exposureStatus (service (dexec (startKeysSubmission oneTimeCode) d)) =
      mkStatus Diagnosed
               (summary (exposureStatus (service d)))
               (notificationSent (exposureStatus (service d)))
               (Some true)
               (submissionLastCompletedAt (exposureStatus (service d)))
               (uploadReminderLastSentAt (exposureStatus (service d)))
               (Some (clock (ticks (service d))))
               (Some (addDays (clock (ticks (service d))) EXPOSURE_NOTIFICATION_CYCLE))
               (lastChecked (exposureStatus (service d)))).
Proof.
  unfold dresult, dexec. rewrite startKeysSubmission_runs.
  destruct (claimOneTimeCode oneTimeCode) as [keys|r]; cbv zeta; simpl.
  - split; [split; [intros _; now exists keys | reflexivity]|].
    split; [discriminate|]. intros _.
    unfold append. simpl.
    destruct secureStorage_set_fault, storage_setItem_fault; reflexivity.
  - split; [split; [discriminate | intros (keys & H); discriminate]|].
    split; [reflexivity | discriminate].
Qed.

(** X13. Diagnosis followed by submission: when the code is redeemed, the
    credential is stored and read back, the bridge hands over the keys of
    the device and the backend accepts them, the submission returns, the
    keys were reported once with the credential of this code, the status is
    [Diagnosed] with nothing left to submit, and no upload reminder is due. *)
Theorem diagnosis_then_submission oneTimeCode contagiousDateInfo keys auth
    firstKey moreKeys d :
  claimOneTimeCode oneTimeCode = Ok keys ->
  secureStorage_set_fault = None ->
  secureStorage_get_fault = None ->
  JSON_stringify_submissionKeys keys <> EmptyString ->
  JSON_parse_submissionKeys (JSON_stringify_submissionKeys keys) = Ok auth ->
  getTemporaryExposureKeyHistory = Ok (firstKey :: moreKeys) ->
  reportDiagnosisKeys auth (firstKey :: moreKeys) contagiousDateInfo = Ok tt ->
  let diagnosed := service (dexec (startKeysSubmission oneTimeCode) d) in
  let submitted := exec (fetchAndSubmitKeys contagiousDateInfo) diagnosed in
  result (fetchAndSubmitKeys contagiousDateInfo) diagnosed = Returned tt
  /\ filter isReportCall (trace submitted)
     = Call_reportDiagnosisKeys (firstKey :: moreKeys)
       :: filter isReportCall (trace (service d))
  /\ type (exposureStatus submitted) = Diagnosed
  /\ needsSubmission (exposureStatus submitted) = Some false
  /\ submissionLastCompletedAt (exposureStatus submitted)
     = Some (clock (S (ticks (service d))))
  /\ forall later,
       result (isReminderNeeded (exposureStatus submitted)) later = Returned false.
Proof.
  intros Hclaim Hset Hget Hnonempty Hparse Hhistory Hreport diagnosed submitted.
  subst submitted diagnosed.
  unfold dexec, result, exec. rewrite startKeysSubmission_runs, Hclaim, Hset.
  cbv zeta. cbn [snd service set_service].
  match goal with
  | |- context [snd (append ?p ?w0)] =>
      pose proof (append_effect p w0) as Heff;
      set (w1 := snd (append p w0)) in *
  end.
  clearbody w1. destruct Heff as (Hs1 & Hk1 & Ht1 & Htr1).
  simpl in Hs1, Hk1, Ht1, Htr1.
  rewrite fetchAndSubmitKeys_runs, Hget, Hk1.
  destruct (JSON_stringify_submissionKeys keys) as [|c str] eqn:Hstr;
    [now contradiction Hnonempty|].
  rewrite Hparse, Hhistory, Hreport. cbv zeta.
  rewrite recordKeySubmission_runs. simpl. rewrite Hs1. simpl.
  destruct storage_setItem_fault; simpl; rewrite ?Hs1, ?Ht1, ?Htr1; simpl;
    repeat split; reflexivity.
Qed.

(** X14. When the secure store rejects the write, [startKeysSubmission]
    still returns and sets the status to [Diagnosed], and the credential
    slot is as it was.  With no credential there from before, the
    submission that follows throws the bad-certificate error and the status
    stays [Diagnosed] with the keys still to submit. *)
Theorem diagnosis_without_stored_credential oneTimeCode contagiousDateInfo keys r d :
  claimOneTimeCode oneTimeCode = Ok keys ->
  secureStorage_set_fault = Some r ->
  secureStorage_get_fault = None ->
  let diagnosed := service (dexec (startKeysSubmission oneTimeCode) d) in
  dresult (startKeysSubmission oneTimeCode) d = Returned tt
  /\ type (exposureStatus diagnosed) = Diagnosed
  /\ secureStorage_submissionAuthKeys diagnosed
     = secureStorage_submissionAuthKeys (service d)
  /\ (secureStorage_submissionAuthKeys (service d) = None ->
      result (fetchAndSubmitKeys contagiousDateInfo) diagnosed = Thrown BadCertificate
      /\ type (exposureStatus (exec (fetchAndSubmitKeys contagiousDateInfo) diagnosed))
         = Diagnosed
      /\ needsSubmission
           (exposureStatus (exec (fetchAndSubmitKeys contagiousDateInfo) diagnosed))
         = Some true).
Proof.
  intros Hclaim Hset Hget diagnosed. subst diagnosed.
  unfold dexec, dresult, result, exec.
  rewrite startKeysSubmission_runs, Hclaim, Hset. cbv zeta.
  cbn [fst snd service set_service].
  rewrite fetchAndSubmitKeys_runs, Hget.
  unfold append. cbn [snd].
  destruct storage_setItem_fault; simpl;
    (split; [reflexivity|]); (split; [reflexivity|]); (split; [reflexivity|]);
    intros ->; repeat split; reflexivity.
Qed.

(** A submission that returns in the [Diagnosed] state: what it leaves. *)
Lemma fetchAndSubmitKeys_completed contagiousDateInfo w :
  type (exposureStatus w) = Diagnosed ->
  result (fetchAndSubmitKeys contagiousDateInfo) w = Returned tt ->
  exposureStatus (exec (fetchAndSubmitKeys contagiousDateInfo) w)
  = spread (exposureStatus w)
      (mkPartial None None None (Some false) (Some (clock (ticks w)))
                 None None None None)
  /\ ticks (exec (fetchAndSubmitKeys contagiousDateInfo) w) = S (ticks w).
Proof.
  intros Htype. unfold result, exec. rewrite fetchAndSubmitKeys_runs. cbv zeta.
  destruct secureStorage_get_fault; [discriminate|].
  destruct (secureStorage_submissionAuthKeys w) as [[|c str]|];
    [discriminate | | discriminate].
  destruct (JSON_parse_submissionKeys (String c str)) as [auth|r]; [|discriminate].
  destruct getTemporaryExposureKeyHistory as [[|k keys]|r]; [| |discriminate].
  - intros _. rewrite recordKeySubmission_runs. simpl. rewrite Htype.
    destruct (append_effect
                (mkPartial None None None (Some false) (Some (clock (ticks w)))
                           None None None None)
                (tick (record Call_getTemporaryExposureKeyHistory w)))
      as (Hs & _ & Ht & _).
    split; [exact Hs | exact Ht].
  - destruct (reportDiagnosisKeys auth (k :: keys) contagiousDateInfo) as [[]|r];
      [|discriminate].
    intros _. rewrite recordKeySubmission_runs. simpl. rewrite Htype.
    destruct (append_effect
                (mkPartial None None None (Some false) (Some (clock (ticks w)))
                           None None None None)
                (tick (record (Call_reportDiagnosisKeys (k :: keys))
                         (record Call_getTemporaryExposureKeyHistory w))))
      as (Hs & _ & Ht & _).
    split; [exact Hs | exact Ht].
Qed.

(** X15. A completed submission is credited for its UTC day.  In a cycle
    that is still running, the maintenance step that follows a submission
    completed at [completedAt] leaves the status [Diagnosed] and asks for
    the keys again exactly when the day has changed in UTC since
    [completedAt]. *)
Theorem submission_credited_for_its_UTC_day contagiousDateInfo w cycleEnd :
  type (exposureStatus w) = Diagnosed ->
  cycleEndsAt (exposureStatus w) = Some cycleEnd ->
  result (fetchAndSubmitKeys contagiousDateInfo) w = Returned tt ->
  let completedAt := clock (ticks w) in
  let submitted := exec (fetchAndSubmitKeys contagiousDateInfo) w in
  let today := clock (S (ticks w)) in
  let todayAgain := clock (S (S (ticks w))) in
  (completedAt <> 0)%Z ->
  (0 < daysBetween today cycleEnd)%Z ->
  (0 < daysBetweenUTC todayAgain cycleEnd)%Z ->
  type (exposureStatus (exec updateExposure submitted)) = Diagnosed
  /\ needsSubmission (exposureStatus (exec updateExposure submitted))
     = Some (0 <? daysBetweenUTC completedAt todayAgain)%Z
  /\ submissionLastCompletedAt (exposureStatus (exec updateExposure submitted))
     = Some completedAt.
Proof.
  intros Htype Hend Hret completedAt submitted today todayAgain Hstamp Hdevice Hutc.
  destruct (fetchAndSubmitKeys_completed contagiousDateInfo w Htype Hret) as [Hs Ht].
  fold submitted in Hs, Ht. clearbody submitted.
  unfold completedAt in *. clear completedAt.
  remember (clock (ticks w)) as completedAt eqn:Hc.
  unfold exec, updateExposure, calculateNeedsSubmission, finalize.
  unfold_task. simpl. rewrite Hs, Ht. simpl. rewrite Htype, Hend.
  fold today. destruct (Z.leb_spec (daysBetween today cycleEnd) 0) as [Hle|_]; [lia|].
  simpl. rewrite Hs. simpl. rewrite Htype, Hend. simpl. rewrite Ht.
  fold todayAgain.
  destruct (Z.leb_spec (daysBetweenUTC todayAgain cycleEnd) 0) as [Hle|_]; [lia|].
  destruct completedAt as [|p|p]; [contradiction | |];
    destruct (0 <? daysBetweenUTC _ todayAgain)%Z; simpl;
    destruct storage_setItem_fault; simpl; rewrite ?Hs; simpl; rewrite ?Htype;
    repeat split; reflexivity.
Qed.

End SubmissionCycle.

(** * Further properties of loading, notifications and start-up *)

Section Persistence.

Context {dates : DateFns} {env : Collaborators}.

Lemma JSON_roundTrip_period_clean v :
  holdsNaN v = false -> JSON_roundTrip_period v = v.
Proof.
  induction v as [| | |n|timestamp period IH]; simpl; intros H;
    try reflexivity; try discriminate.
  now rewrite IH.
Qed.

Lemma JSON_roundTrip_clean s :
  holdsNaN (periodOf (lastChecked s)) = false -> JSON_roundTrip s = s.
Proof.
  destruct s as [t su ns nd sl ur cs ce [[ts v]|]]; unfold JSON_roundTrip; simpl;
    intros H; [|reflexivity].
  now rewrite JSON_roundTrip_period_clean.
Qed.

(** X16. Persisting and reloading.  When storage takes writes and answers
    reads, the status a service holds after any change is what a service
    constructed afresh over the same stores holds after
    [loadExposureStatus], and what the running service itself holds after
    loading again: the status as [JSON] carries it, which is the status
    itself unless a [NaN] sits in the checkpoint period. *)
Theorem loadExposureStatus_round_trip change w :
  storage_setItem_fault = None ->
  storage_getItem_fault = None ->
  let written := exec (append change) w in
  result loadExposureStatus (newService written) = Returned tt
  /\ exposureStatus (exec loadExposureStatus (newService written))
     = JSON_roundTrip (exposureStatus written)
  /\ exposureStatus (exec loadExposureStatus written)
     = JSON_roundTrip (exposureStatus written)
  /\ (holdsNaN (checkpointPeriod written) = false ->
      exposureStatus (exec loadExposureStatus (newService written))
      = exposureStatus written).
Proof.
  intros Hset Hget written.
  assert (Hstored : storage_exposureStatus written = Some (exposureStatus written)).
  { subst written. unfold exec, append. simpl. rewrite Hset. reflexivity. }
  clearbody written.
  assert (Hfresh : exposureStatus (exec loadExposureStatus (newService written))
                   = JSON_roundTrip (exposureStatus written)).
  { unfold exec, loadExposureStatus, storage_getItem_status. unfold_task.
    rewrite Hget, Hset. simpl. rewrite Hstored.
    destruct (exposureStatus written)
      as [t [su|] [ns|] [nd|] [sl|] [ur|] [cs|] [ce|] [[ts v]|]];
      reflexivity. }
  split; [|split; [exact Hfresh|split]].
  - unfold result, loadExposureStatus, storage_getItem_status. unfold_task.
    rewrite Hget. reflexivity.
  - unfold exec, loadExposureStatus, storage_getItem_status. unfold_task.
    rewrite Hget, Hset. simpl. rewrite Hstored.
    destruct (exposureStatus written)
      as [t [su|] [ns|] [nd|] [sl|] [ur|] [cs|] [ce|] [[ts v]|]];
      reflexivity.
  - intros Hclean. rewrite Hfresh. now apply JSON_roundTrip_clean.
Qed.

End Persistence.

Section Notifications.

Context {dates : DateFns} {calendar : CalendarFns}
        {env : Collaborators} {platform : Platform}.

Hypothesis storage_takes_writes : storage_setItem_fault = None.

Lemma append_stores p w : statusIsStored (snd (append p w)).
Proof. unfold statusIsStored, append. simpl. now rewrite storage_takes_writes. Qed.

Lemma loadExposureStatus_alerted w :
  alerted w -> alerted (snd (loadExposureStatus w)).
Proof.
  intros [Hsent Hstored].
  unfold loadExposureStatus, storage_getItem_status, bind, raiseFault.
  destruct storage_getItem_fault; simpl; [now split|].
  rewrite Hstored. split; [|apply append_stores].
  unfold append. simpl. rewrite storage_takes_writes. simpl.
  unfold JSON_roundTrip. simpl. now rewrite Hsent.
Qed.

Lemma finalize_stores status lastCheckedPeriod w :
  statusIsStored (snd (finalize status lastCheckedPeriod w)).
Proof.
  rewrite finalize_runs. cbv zeta. rewrite storage_takes_writes. reflexivity.
Qed.

Lemma performExposureCheck_stores w : statusIsStored (snd (performExposureCheck w)).
Proof.
  unfold performExposureCheck, bind.
  pose proof (getExposureConfiguration_runs w) as Hc.
  destruct (getExposureConfiguration w) as [[cfg|e0] w0]; simpl in Hc; [|discriminate].
  destruct (getSummariesFromEnFramework_returns cfg w0) as (summaries & lcp & Hr).
  destruct (getSummariesFromEnFramework cfg w0) as [o w5]. simpl in Hr. subst o.
  destruct (summariesContainingExposures Platform_OS
              (minimumExposureDurationMinutes cfg) summaries) as [|first more].
  - apply finalize_stores.
  - unfold setToExposed, selectExposureSummary, asyncStorage_setItem_unawaited.
    unfold bind, getStatus, ret.
    destruct (type (exposureStatus _)); apply finalize_stores.
Qed.

Lemma awaitExposureStatusUpdate_alerted d :
  alerted (service d) ->
  alerted (service (snd (awaitExposureStatusUpdate d)))
  /\ platformTrace (snd (awaitExposureStatusUpdate d)) = platformTrace d.
Proof.
  intros [Hsent _]. unfold awaitExposureStatusUpdate, onService, tryCatch, ret.
  pose proof (performExposureCheck_stores (service d)) as Hstored.
  pose proof (performExposureCheck_preserves_fieldsOutsideCheck (service d)) as Hkept.
  destruct (performExposureCheck (service d)) as [[[]|e] w']; simpl in *;
    (split; [|reflexivity]); (split; [|exact Hstored]);
    unfold fieldsOutsideCheck in Hkept; congruence.
Qed.

Lemma presented_recordPlatform alertTitle alertBody d :
  presented (recordPlatform (Presented alertTitle alertBody) d)
  = (presented d ++ [(alertTitle, alertBody)])%list.
Proof. reflexivity. Qed.

Lemma processNotification_alerted d :
  alerted (service d) ->
  alerted (service (snd (processNotification d)))
  /\ (presented (snd (processNotification d)) = presented d
      \/ presented (snd (processNotification d))
         = (presented d ++ [uploadReminder])%list).
Proof.
  intros [Hsent Hstored].
  assert (Hquiet : alerted (service d) /\
                   (presented d = presented d
                    \/ presented d = (presented d ++ [uploadReminder])%list))
    by (split; [now split | now left]).
  assert (Hticked : alerted (tick (service d))) by now split.
  assert (Hreminded : forall w,
    notificationSent (exposureStatus w) = Some true ->
    alerted
      (snd (append (mkPartial None None None None None (Some (clock (ticks w)))
                              None None None) (tick w)))).
  { intros w Hw. split; [|apply append_stores].
    unfold append. simpl. rewrite storage_takes_writes. simpl. exact Hw. }
  unfold processNotification, presentLocalNotification, isReminderNeeded.
  unfold_device. unfold getStatus, getCurrentDate, ret, bind.
  cbn [fst snd service set_service]. rewrite Hsent.
  destruct (type (exposureStatus (service d))); cbn [fst snd service set_service];
    try (destruct d; exact Hquiet).
  destruct (needsSubmission (exposureStatus (service d))) as [[|]|];
    cbn [fst snd service set_service]; try (destruct d; exact Hquiet).
  destruct (uploadReminderLastSentAt (exposureStatus (service d))) as [[|p|p]|];
    cbn [fst snd service set_service].
  all: try destruct (MINIMUM_REMINDER_INTERVAL_MINUTES <? _)%Z;
    cbn [fst snd service set_service recordPlatform platformTrace starting
         systemStatus].
  all: try (destruct d; simpl in *; split; [now split | now left]).
  all: split; [apply Hreminded; simpl; exact Hsent | right; reflexivity].
Qed.

Lemma updateExposureStatusInBackground_alerted d :
  alerted (service d) ->
  alerted (service (dexec updateExposureStatusInBackground d))
  /\ (presented (dexec updateExposureStatusInBackground d) = presented d
      \/ presented (dexec updateExposureStatusInBackground d)
         = (presented d ++ [uploadReminder])%list).
Proof.
  intros Hd. unfold dexec.
  destruct (updateExposureStatusInBackground d) as [o d'] eqn:Hrun. cbn [snd].
  revert Hrun.
  unfold updateExposureStatusInBackground, dbind at 1, onService at 1.
  pose proof (loadExposureStatus_alerted (service d) Hd) as Hloaded.
  destruct (loadExposureStatus (service d)) as [[[]|e] w1]; cbn [snd] in *.
  2:{ intros [= <- <-]. split; [exact Hloaded | now left]. }
  unfold dtryCatch, dbind.
  destruct (awaitExposureStatusUpdate_alerted (set_service w1 d) Hloaded)
    as [Hchecked Htrace].
  assert (Hsame : presented (snd (awaitExposureStatusUpdate (set_service w1 d)))
                  = presented d)
    by (unfold presented; now rewrite Htrace).
  destruct (awaitExposureStatusUpdate (set_service w1 d)) as [[[]|e] d2];
    cbn [snd] in *.
  - destruct (processNotification_alerted d2 Hchecked) as [Hprocessed Hpresented].
    rewrite Hsame in Hpresented.
    destruct (processNotification d2) as [[[]|e] d3]; cbn [snd] in *;
      intros [= <- <-]; split; assumption.
  - intros [= <- <-]. split; [exact Hchecked | left; exact Hsame].
Qed.

(** X17. Once [notificationSent] is set, as the first exposure alert sets
    it, and storage holds the status and takes writes, no background update
    presents an exposure alert again, whatever the checks detect later:
    over any number of background updates the only notifications are upload
    reminders, at most one for each update. *)
Theorem exposure_alert_is_not_repeated n d :
  alerted (service d) ->
  alerted (service (Nat.iter n (dexec updateExposureStatusInBackground) d))
  /\ exists reminders,
       (reminders <= n)%nat
       /\ presented (Nat.iter n (dexec updateExposureStatusInBackground) d)
          = (presented d ++ repeat uploadReminder reminders)%list.
Proof.
  intros Hd. induction n as [|n (Halerted & reminders & Hle & Hpresented)]; simpl.
  - split; [exact Hd|]. exists 0%nat. split; [lia|]. simpl. now rewrite app_nil_r.
  - destruct (updateExposureStatusInBackground_alerted _ Halerted) as [Hnext [Hp|Hp]].
    + split; [exact Hnext|]. exists reminders. split; [lia|]. now rewrite Hp.
    + split; [exact Hnext|]. exists (S reminders). split; [lia|].
      rewrite Hp, Hpresented, <- app_assoc. f_equal.
      change [uploadReminder] with (repeat uploadReminder 1).
      rewrite <- repeat_app. f_equal. lia.
Qed.

End Notifications.

Section BackgroundOutcome.

Context {dates : DateFns} {calendar : CalendarFns}
        {env : Collaborators} {platform : Platform}.

Lemma processNotification_returns d : fst (processNotification d) = Returned tt.
Proof.
  unfold processNotification, presentLocalNotification, isReminderNeeded.
  unfold_device. unfold getStatus, getCurrentDate, ret, bind, append.
  cbn [fst snd service set_service].
  destruct (type (exposureStatus (service d))); cbn [fst snd service set_service];
    try reflexivity.
  - destruct (notificationSent (exposureStatus (service d))) as [[|]|]; reflexivity.
  - destruct (needsSubmission (exposureStatus (service d))) as [[|]|];
      cbn [fst snd service set_service]; try reflexivity.
    destruct (uploadReminderLastSentAt (exposureStatus (service d))) as [[|p|p]|];
      cbn [fst snd service set_service];
      try destruct (MINIMUM_REMINDER_INTERVAL_MINUTES <? _)%Z; reflexivity.
Qed.

(** X18. A background update throws exactly when the stored status cannot be
    read, and then it has run no check and presented nothing; in every other
    case it returns, whatever fails in the check. *)
Theorem updateExposureStatusInBackground_outcome d :
  dresult updateExposureStatusInBackground d
  = match storage_getItem_fault with
    | Some r => Thrown (Raised r)
    | None => Returned tt
    end
  /\ (storage_getItem_fault <> None ->
      service (dexec updateExposureStatusInBackground d) = service d
      /\ platformTrace (dexec updateExposureStatusInBackground d) = platformTrace d).
Proof.
  unfold dresult, dexec, updateExposureStatusInBackground, dbind at 1 3 5,
    onService at 1 3 5, loadExposureStatus, storage_getItem_status.
  unfold bind, raiseFault, throw, ret.
  destruct storage_getItem_fault as [r|]; cbn [fst snd].
  - split; [reflexivity|]. intros _. destruct d; now split.
  - split; [|intros H; now contradiction H].
    match goal with |- context [append ?p ?w] => destruct (append p w) as [[[]|e] w1] eqn:Ha end;
      [|unfold append in Ha; discriminate].
    unfold dtryCatch, dbind, awaitExposureStatusUpdate, onService, tryCatch, ret.
    destruct (performExposureCheck (service (set_service w1 d))) as [[[]|e] w2];
      cbn [fst snd];
      match goal with
      | |- context [processNotification ?d2] =>
          pose proof (processNotification_returns d2) as Hp;
          destruct (processNotification d2) as [o d3]
      end; simpl in Hp; subst o; reflexivity.
Qed.

End BackgroundOutcome.

Section StartUp.

Context {dates : DateFns} {calendar : CalendarFns}
        {env : Collaborators} {platform : Platform}.

Lemma awaitExposureStatusUpdate_returns d :
  fst (awaitExposureStatusUpdate d) = Returned tt.
Proof.
  unfold awaitExposureStatusUpdate, onService, tryCatch, ret.
  destruct (performExposureCheck (service d)) as [[[]|e] w]; reflexivity.
Qed.

Lemma awaitExposureStatusUpdate_device d :
  starting (snd (awaitExposureStatusUpdate d)) = starting d
  /\ systemStatus (snd (awaitExposureStatusUpdate d)) = systemStatus d
  /\ platformTrace (snd (awaitExposureStatusUpdate d)) = platformTrace d.
Proof.
  unfold awaitExposureStatusUpdate, onService, tryCatch, ret.
  destruct (performExposureCheck (service d)) as [[[]|e] w]; now repeat split.
Qed.

(** [start] from a service that is not starting, path by path. *)
Lemma start_runs d :
  starting d = false ->
  start d =
  let loading := set_starting true d in
  match loadExposureStatus (service loading) with
  | (Thrown e, w) => (Thrown e, set_service w loading)
  | (Returned _, w) =>
      let asked := recordPlatform Call_exposureNotification_start
                                  (set_service w loading) in
      let started :=
        match exposureNotification_start with
        | Ok _ => asked
        | Rejects r =>
            set_service
              (record (Captured "Cannot start EN framework" (Raised r)) (service asked))
              asked
        end in
      let queried := recordPlatform Call_exposureNotification_getStatus started in
      match exposureNotification_getStatus with
      | Rejects r => (Thrown (Raised r), queried)
      | Ok status =>
          awaitExposureStatusUpdate
            (set_starting false (set_systemStatus status queried))
      end
  end.
Proof.
  intros Hidle. unfold start. rewrite Hidle.
  unfold updateSystemStatus. unfold_device. cbv zeta.
  cbn [service set_starting].
  destruct (loadExposureStatus (service d)) as [[[]|e] w]; [|reflexivity].
  unfold captureException. cbn [settled_answer].
  destruct exposureNotification_start as [[]|r]; cbn [settled_answer fst snd];
    destruct exposureNotification_getStatus as [status|r']; reflexivity.
Qed.

(** X19. A start throws exactly when the service is not already starting
    and either the stored status cannot be read or, that having been read,
    the bridge rejects [getStatus]; what it throws is that rejection.  A
    start that throws leaves [starting] set: every later [start] returns at
    once, without loading, starting the bridge or checking for exposure. *)
Theorem start_failure_blocks_later_starts d e :
  (dresult start d = Thrown e <->
   starting d = false
   /\ exists r,
        e = Raised r
        /\ (storage_getItem_fault = Some r
            \/ (storage_getItem_fault = None
                /\ exposureNotification_getStatus = Rejects r)))
  /\ (dresult start d = Thrown e ->
      starting (dexec start d) = true
      /\ start (dexec start d) = (Returned tt, dexec start d)).
Proof.
  unfold dresult, dexec.
  destruct (starting d) eqn:Hidle.
  { unfold start. rewrite Hidle. cbn [fst snd].
    split; [split; [discriminate | intros [H _]; discriminate] | discriminate]. }
  assert (Hlocked : forall d', starting d' = true -> start d' = (Returned tt, d'))
    by (intros d' H; unfold start; now rewrite H).
  rewrite (start_runs d Hidle). cbv zeta.
  unfold loadExposureStatus, storage_getItem_status, bind, raiseFault, throw, ret.
  destruct storage_getItem_fault as [r|].
  - cbn [fst snd]. split; [split|].
    + intros [= <-]. split; [reflexivity|]. exists r. split; [reflexivity | now left].
    + intros (_ & r' & -> & [[= <-] | [H _]]); [reflexivity | discriminate].
    + intros _. split; [reflexivity | now apply Hlocked].
  - cbn [fst snd].
    match goal with
    | |- context [append ?p ?w] => destruct (append p w) as [[[]|e0] w1] eqn:Ha
    end; [|unfold append in Ha; discriminate].
    destruct exposureNotification_getStatus as [status|r].
    + rewrite awaitExposureStatusUpdate_returns.
      split; [split; [discriminate|] | discriminate].
      intros (_ & r' & _ & [H | [_ H]]); discriminate.
    + cbn [fst snd]. split; [split|].
      * intros [= <-]. split; [reflexivity|]. exists r.
        split; [reflexivity | right; now split].
      * intros (_ & r' & -> & [H | [_ [= <-]]]); [discriminate | reflexivity].
      * intros _. destruct exposureNotification_start as [[]|r0];
          (split; [reflexivity | now apply Hlocked]).
Qed.

(** X20. When the stored status can be read and the bridge reports its
    status, a start from a service that is not starting returns, whether or
    not the bridge could be started: it leaves [starting] cleared and the
    reported status in [systemStatus], and has asked the bridge to start and
    then for its status, once each. *)
Theorem start_completes d status :
  starting d = false ->
  storage_getItem_fault = None ->
  exposureNotification_getStatus = Ok status ->
  dresult start d = Returned tt
  /\ starting (dexec start d) = false
  /\ systemStatus (dexec start d) = status
  /\ platformTrace (dexec start d)
     = Call_exposureNotification_getStatus
       :: Call_exposureNotification_start :: platformTrace d.
Proof.
  intros Hidle Hget Hstatus. unfold dresult, dexec.
  rewrite (start_runs d Hidle). cbv zeta.
  unfold loadExposureStatus, storage_getItem_status, bind, raiseFault, throw, ret.
  rewrite Hget, Hstatus. cbn [fst snd].
  match goal with
  | |- context [append ?p ?w] => destruct (append p w) as [[[]|e0] w1] eqn:Ha
  end; [|unfold append in Ha; discriminate].
  rewrite awaitExposureStatusUpdate_returns.
  match goal with
  | |- context [awaitExposureStatusUpdate ?d1] =>
      destruct (awaitExposureStatusUpdate_device d1) as (-> & -> & ->)
  end.
  destruct exposureNotification_start as [[]|r]; now repeat split.
Qed.

End StartUp.

Section FlightsOverRuns.

Context {dates : DateFns} {env : Collaborators}.

Lemma settle_consistent s :
  consistent s -> consistent (settle s)
  /\ checksStarted (settle s) = checksStarted s
  /\ (List.length (settled s) <= List.length (settled (settle s))
      <= S (List.length (settled s)))%nat
  /\ world (settle s)
     = Nat.iter (List.length (settled (settle s)) - List.length (settled s))
                (exec performExposureCheck) (world s).
Proof.
  unfold consistent, settle, cleanUpPromise, exec.
  destruct (exposureStatusUpdatePromise s) as [inFlight|] eqn:Hp.
  - intros [Hstarted ->].
    destruct (performExposureCheck (world s)) as [outcome w] eqn:Hcheck.
    cbn [settled world checksStarted exposureStatusUpdatePromise List.length].
    repeat split; try lia.
    replace (S (List.length (settled s)) - List.length (settled s))%nat with 1%nat
      by lia.
    simpl. now rewrite Hcheck.
  - intros Hstarted. rewrite Hp. repeat split; try lia.
    now rewrite Nat.sub_diag.
Qed.

Lemma updateExposureStatus_consistent s :
  consistent s ->
  consistent (snd (updateExposureStatus s))
  /\ fst (updateExposureStatus s) = List.length (settled s)
  /\ settled (snd (updateExposureStatus s)) = settled s
  /\ world (snd (updateExposureStatus s)) = world s
  /\ exposureStatusUpdatePromise (snd (updateExposureStatus s))
     = Some (List.length (settled s)).
Proof.
  unfold consistent, updateExposureStatus.
  destruct (exposureStatusUpdatePromise s) as [inFlight|] eqn:Hp; simpl.
  - intros [Hstarted ->]. rewrite Hp. now repeat split.
  - intros ->. now repeat split.
Qed.

(** X21. Over any sequence of calls and settlements, from a service whose
    promise and counters agree: the checks started are the checks settled,
    and one more while a promise is kept, so that never more than one check
    is in flight; every promise handed out is that of a check not yet
    settled when the run began and no later than the one in flight at its
    end; and the service is left as the settled checks leave it when run one
    after the other. *)
Theorem run_serializes_checks turns s :
  consistent s ->
  consistent (snd (run turns s))
  /\ (List.length (settled s) <= List.length (settled (snd (run turns s))))%nat
  /\ Forall (fun promise =>
               (List.length (settled s) <= promise
                <= List.length (settled (snd (run turns s))))%nat)
            (fst (run turns s))
  /\ world (snd (run turns s))
     = Nat.iter (List.length (settled (snd (run turns s))) - List.length (settled s))
                (exec performExposureCheck) (world s).
Proof.
  revert s. induction turns as [|[|] turns IH]; intros s Hs; simpl.
  - repeat split; [exact Hs | lia | constructor | now rewrite Nat.sub_diag].
  - destruct (updateExposureStatus_consistent s Hs)
      as (Hs' & Hpromise & Hsettled & Hworld & _).
    destruct (updateExposureStatus s) as [promise s']. simpl in *.
    destruct (IH s' Hs') as (Hc & Hle & Hall & Hw).
    destruct (run turns s') as [promises s'']. simpl in *.
    rewrite Hsettled in *. rewrite Hworld in *.
    repeat split; try assumption.
    constructor; [lia | exact Hall].
  - destruct (settle_consistent s Hs) as (Hs' & _ & Hlen & Hworld).
    destruct (IH (settle s) Hs') as (Hc & Hle & Hall & Hw).
    destruct (run turns (settle s)) as [promises s'']. simpl in *.
    repeat split; try assumption; try lia.
    + eapply Forall_impl; [|exact Hall]. simpl. intros promise. lia.
    + rewrite Hw, Hworld, <- Nat.iter_add. f_equal. lia.
Qed.

End FlightsOverRuns.

(** ** The further properties on concrete runs *)

(** One pending summary of 30 minutes against a threshold of 15: the check
    ends [Exposed] without a request for key files. *)
Lemma performExposureCheck_with_pending_witness :
  filter isRetrieveCall
    (trace (exec (performExposureCheck (dates := utcMinus4) (env := summaryPending))
                 (worldOf (monitoringStatus None)))) = []
  /\ type (exposureStatus
             (exec (performExposureCheck (dates := utcMinus4) (env := summaryPending))
                   (worldOf (monitoringStatus None)))) = Exposed.
Proof.
  pose proof (performExposureCheck_with_pending
                (dates := utcMinus4) (env := summaryPending)
                (worldOf (monitoringStatus None)) (anExposure 1) [] eq_refl)
    as (Hrequests & _ & Hstatus).
  split; [exact Hrequests|]. rewrite Hstatus. reflexivity.
Defined.

(** Three checks from a fresh service ask for batch 0 only. *)
Lemma checks_request_only_batch_zero_witness :
  exists requested,
    trace (Nat.iter 3 (exec (performExposureCheck (dates := utcMinus4)
                                                  (env := uneventful)))
                    (worldOf (monitoringStatus None)))
    = (requested ++ [])%list
    /\ Forall batchZeroOnly requested.
Proof.
  refine (proj2 (checks_request_only_batch_zero
                   (dates := utcMinus4) (env := uneventful)
                   3 (worldOf (monitoringStatus None)) _)).
  exact I.
Defined.

(** With an object in the period slot, two checks request no key file. *)
Lemma checks_after_object_checkpoint_witness :
  filter isRetrieveCall
    (trace (Nat.iter 2 (exec (performExposureCheck (dates := utcMinus4)
                                                   (env := uneventful)))
                     objectInPeriodSlot)) = [].
Proof.
  refine (proj2 (checks_after_object_checkpoint
                   (dates := utcMinus4) (env := uneventful)
                   2 objectInPeriodSlot _)).
  exact I.
Defined.

(** A second exposure, found while [Exposed]: the timestamp read back is
    that of the second. *)
Lemma setToExposed_then_getStoredLastExposureTimestamp_witness :
  result (getStoredLastExposureTimestamp (env := uneventful))
         (exec (setToExposed (env := uneventful) (anExposure 1) PUndefined)
               (exposedSince 5))
  = Returned (Some (lastExposureTimestamp (anExposure 1))).
Proof.
  refine (proj1 (setToExposed_then_getStoredLastExposureTimestamp
                   (env := uneventful)
                   (anExposure 1) PUndefined (exposedSince 5) _ _));
    reflexivity.
Defined.

(** With no credential in secure storage the submission throws and the
    status is as before. *)
Lemma fetchAndSubmitKeys_failure_changes_nothing_witness :
  exposureStatus (exec (fetchAndSubmitKeys (env := uneventful)
                                           "2020-08-20")
                       endsLaterToday)
  = exposureStatus endsLaterToday.
Proof.
  refine (proj1 (fetchAndSubmitKeys_failure_changes_nothing
                   (env := uneventful)
                   "2020-08-20" endsLaterToday BadCertificate _)).
  reflexivity.
Defined.

(** A code redeemed on a cooperative platform, two keys on the device: the
    submission that follows returns. *)
Lemma diagnosis_then_submission_witness :
  result (fetchAndSubmitKeys (env := keysOnDevice) "2020-08-20")
         (service (dexec (startKeysSubmission
                            (calendar := plainCalendar)
                            (env := keysOnDevice) (platform := cooperative)
                            "12345678")
                         (deviceOf (worldOf (monitoringStatus None)))))
  = Returned tt.
Proof.
  refine (proj1 (diagnosis_then_submission
                   (calendar := plainCalendar)
                   (env := keysOnDevice) (platform := cooperative)
                   "12345678" "2020-08-20" "keys for 12345678" "keys for 12345678"
                   "key 1" ["key 2"] (deviceOf (worldOf (monitoringStatus None)))
                   _ _ _ _ _ _ _));
    try reflexivity.
  discriminate.
Defined.

(** The same code where the secure store rejects writes: the status is
    [Diagnosed], the submission throws the bad-certificate error. *)
Lemma diagnosis_without_stored_credential_witness :
  type (exposureStatus
          (service (dexec (startKeysSubmission
                             (calendar := plainCalendar)
                             (env := keysOnDevice) (platform := secureStoreBroken)
                             "12345678")
                          (deviceOf (worldOf (monitoringStatus None))))))
  = Diagnosed
  /\ result (fetchAndSubmitKeys (env := keysOnDevice)
                                "2020-08-20")
            (service (dexec (startKeysSubmission
                               (calendar := plainCalendar)
                               (env := keysOnDevice) (platform := secureStoreBroken)
                               "12345678")
                            (deviceOf (worldOf (monitoringStatus None)))))
     = Thrown BadCertificate.
Proof.
  pose proof (diagnosis_without_stored_credential
                (calendar := plainCalendar)
                (env := keysOnDevice) (platform := secureStoreBroken)
                "12345678" "2020-08-20" "keys for 12345678"
                (OtherRejection "keychain locked")
                (deviceOf (worldOf (monitoringStatus None)))
                eq_refl eq_refl eq_refl) as (_ & Htype & _ & Hlater).
  split; [exact Htype | exact (proj1 (Hlater eq_refl))].
Defined.

(** A submission in the middle of a cycle, and the maintenance step on the
    same UTC day: nothing is left to submit. *)
Lemma submission_credited_for_its_UTC_day_witness :
  needsSubmission
    (exposureStatus
       (exec (updateExposure (dates := utcMinus4) (env := uneventful))
             (exec (fetchAndSubmitKeys (env := uneventful)
                                       "2020-08-20")
                   midCycle)))
  = Some false.
Proof.
  refine (proj1 (proj2 (submission_credited_for_its_UTC_day
                          (dates := utcMinus4) (env := uneventful)
                          "2020-08-20" midCycle (18510 * MS_PER_DAY)
                          _ _ _ _ _ _)));
    try reflexivity.
  vm_compute. discriminate.
Defined.

(** A diagnosis written by one service is the status of the next. *)
Lemma loadExposureStatus_round_trip_witness :
  exposureStatus
    (exec (loadExposureStatus (env := uneventful))
          (newService
             (exec (append (env := uneventful)
                           (partialOf (diagnosedStatus true 0 1209600000 None)))
                   (worldOf (monitoringStatus None)))))
  = diagnosedStatus true 0 1209600000 None.
Proof.
  refine (proj2 (proj2 (proj2 (loadExposureStatus_round_trip
                                 (env := uneventful)
                                 (partialOf (diagnosedStatus true 0 1209600000 None))
                                 (worldOf (monitoringStatus None)) _ _))) _);
    reflexivity.
Defined.

(** Two background updates after the alert: nothing more is presented. *)
Lemma exposure_alert_is_not_repeated_witness :
  exists reminders,
    (reminders <= 2)%nat
    /\ presented
         (Nat.iter 2 (dexec (updateExposureStatusInBackground
                               (dates := utcMinus4) (calendar := plainCalendar)
                               (env := uneventful) (platform := cooperative)))
                   (deviceOf alertPresented))
       = ([] ++ repeat (uploadReminder (platform := cooperative)) reminders)%list.
Proof.
  refine (proj2 (exposure_alert_is_not_repeated
                   (dates := utcMinus4) (calendar := plainCalendar)
                   (env := uneventful) (platform := cooperative)
                   _ 2 (deviceOf alertPresented) _)).
  - reflexivity.
  - split; reflexivity.
Defined.

(** The bridge rejects [getStatus]: the start throws, and the next start
    does nothing. *)
Lemma start_failure_blocks_later_starts_witness :
  starting (dexec (start (dates := utcMinus4) (env := uneventful)
                         (platform := statusUnavailable))
                  (deviceOf (worldOf (monitoringStatus None)))) = true.
Proof.
  refine (proj1 (proj2 (start_failure_blocks_later_starts
                          (dates := utcMinus4) (env := uneventful)
                          (platform := statusUnavailable)
                          (deviceOf (worldOf (monitoringStatus None)))
                          (Raised (OtherRejection "unavailable"))) _)).
  reflexivity.
Defined.

Lemma start_completes_witness :
  systemStatus (dexec (start (dates := utcMinus4) (env := uneventful)
                             (platform := cooperative))
                      (deviceOf (worldOf (monitoringStatus None))))
  = SystemStatus_Reported "active".
Proof.
  refine (proj1 (proj2 (proj2 (start_completes
                                 (dates := utcMinus4) (env := uneventful)
                                 (platform := cooperative)
                                 (deviceOf (worldOf (monitoringStatus None)))
                                 (SystemStatus_Reported "active") _ _ _))));
    reflexivity.
Defined.

(** Two calls, a settlement, a call: one check has run, a second is in
    flight. *)
Lemma run_serializes_checks_witness :
  world (snd (run (dates := utcMinus4) (env := uneventful)
                  [CallUpdate; CallUpdate; Settle; CallUpdate] idle))
  = Nat.iter
      (List.length
         (settled (snd (run (dates := utcMinus4) (env := uneventful)
                            [CallUpdate; CallUpdate; Settle; CallUpdate] idle)))
       - List.length (settled idle))
      (exec (performExposureCheck (dates := utcMinus4) (env := uneventful)))
      (world idle).
Proof.
  refine (proj2 (proj2 (proj2 (run_serializes_checks
                                 (dates := utcMinus4) (env := uneventful)
                                 [CallUpdate; CallUpdate; Settle; CallUpdate]
                                 idle _)))).
  reflexivity.
Defined.

